(** * pfmatch.apps.soptimizer: the SOptimizer training loop

    A shallow embedding of [src/pfmatch/apps/soptimizer.py]: the resume
    bookkeeping of [SOptimizer.__init__] (checkpoint file names written by
    [save] and parsed back with [re.findall]), the learning-rate scheduler
    lookup, the train/validation split, and the [train] / [validate] /
    [save] methods as state-passing programs over an explicit trainer
    record whose log keeps the calls made to the collaborators.

    Python integers are [Z]; strings are Latin-1 strings ([string], one
    [ascii] per code point), on which [\d] is exactly [0-9]; true division
    of two integers is kept as the exact rational; tensors, losses,
    learning rates and clock readings are abstract. *)

From Stdlib Require Import ZArith QArith Qround String Ascii List Lia Bool.
From stdpp Require Import gmap strings list fin_maps.

Local Open Scope Z_scope.

(** ** Python values, exceptions, results *)

(** Scalars found in the YAML configuration. *)
Inductive pyval :=
| PNone
| PBool (b : bool)
| PInt (z : Z)
| PStr (s : string).

(** Python truthiness, as tested by [if x] and [x and y]. *)
Definition truthy (v : pyval) : bool :=
  match v with
  | PNone => false
  | PBool b => b
  | PInt z => negb (z =? 0)
  | PStr s => negb (String.eqb s "")
  end.

(** [d.get(k)]: a missing key reads as [None]. *)
Definition dict_get (d : gmap string pyval) (k : string) : pyval :=
  default PNone (d !! k).

Inductive exn :=
| KeyError (k : string)
| IndexError
| ValueError
| TypeError
| RuntimeError (msg : string)
| ZeroDivisionError
| AttributeError.

Inductive result (A : Type) :=
| Ok (a : A)
| Err (e : exn).
Arguments Ok {A} a.
Arguments Err {A} e.

Definition rbind {A B} (r : result A) (f : A -> result B) : result B :=
  match r with
  | Ok a => f a
  | Err e => Err e
  end.

#[global] Instance result_ret : MRet result := fun A a => Ok a.
#[global] Instance result_bind : MBind result := fun A B f r => rbind r f.

(** [d[k]]: a missing key raises [KeyError]. *)
Definition dict_item (d : gmap string pyval) (k : string) : result pyval :=
  match d !! k with
  | Some v => Ok v
  | None => Err (KeyError k)
  end.

(** ** Characters and decimal numerals *)

Definition chars (s : string) : list ascii := list_ascii_of_string s.

Definition is_digit (c : ascii) : bool :=
  let n := Z.of_N (N_of_ascii c) in (48 <=? n) && (n <=? 57).

Definition digit_val (c : ascii) : Z := Z.of_N (N_of_ascii c) - 48.

Definition digit_char (d : Z) : ascii := ascii_of_N (Z.to_N (d + 48)).

(** [int(s)] on a string of decimal digits (all that [(\d+)] can capture);
    anything else is a [ValueError]. *)
Definition int_digits (s : list ascii) : Z :=
  fold_left (fun acc c => 10 * acc + digit_val c) s 0.

Definition py_int (s : list ascii) : result Z :=
  match s with
  | [] => Err ValueError
  | _ => if forallb is_digit s then Ok (int_digits s) else Err ValueError
  end.

(** Decimal digits of a non-negative integer, least significant first;
    the fuel bounds the number of digits. *)
Fixpoint rev_digits (fuel : nat) (n : Z) : list ascii :=
  match fuel with
  | O => [digit_char (n mod 10)]
  | S f => if n <? 10 then [digit_char n]
           else digit_char (n mod 10) :: rev_digits f (n / 10)
  end.

(** [str(n)] for [0 <= n]. *)
Definition decimal (n : Z) : list ascii :=
  rev (rev_digits (Z.to_nat (Z.log2 n)) n).

(** ** The fragment of [re] used by the resume pattern *)

Module PyRe.

(** One-character matchers: a literal, [\d], and [.] (anything but a
    newline). *)
Inductive atom :=
| Lit (c : ascii)
| Digit
| AnyChar.

(** Pattern items: an atom, a greedy [atom+], and the group brackets. *)
Inductive item :=
| One (a : atom)
| Plus (a : atom)
| GOpen
| GClose.

Definition regex := list item.

Definition atom_of (c : ascii) : atom :=
  if Ascii.eqb c "." then AnyChar else Lit c.

(** Reads the pattern text: [(] and [)] are brackets, [\d] the digit
    class, [.] the wildcard, a following [+] makes the atom repeat. *)
Fixpoint compile (p : list ascii) : regex :=
  match p with
  | [] => []
  | c :: p1 =>
    if Ascii.eqb c "(" then GOpen :: compile p1
    else if Ascii.eqb c ")" then GClose :: compile p1
    else
      match p1 with
      | [] => [One (atom_of c)]
      | c1 :: p2 =>
        if Ascii.eqb c "\" then
          (* an escape: only [\d] occurs *)
          let a := if Ascii.eqb c1 "d" then Digit else Lit c1 in
          match p2 with
          | [] => [One a]
          | c2 :: p3 =>
            if Ascii.eqb c2 "+" then Plus a :: compile p3
            else One a :: compile p2
          end
        else if Ascii.eqb c1 "+" then Plus (atom_of c) :: compile p2
        else One (atom_of c) :: compile p1
      end
  end.

Definition accepts (a : atom) (c : ascii) : bool :=
  match a with
  | Lit x => Ascii.eqb x c
  | Digit => is_digit c
  | AnyChar => negb (Ascii.eqb c "010")
  end.

(** A consumed character is added to every group that is open. *)
Definition push (c : ascii) (opened : list (list ascii)) : list (list ascii) :=
  map (fun g => g ++ [c]) opened.

(** Backtracking match of [r] at the head of [s]. Returns the captured
    groups and the unread rest. [Plus] is greedy: it first tries to take
    one more character and only then lets the rest of the pattern run. *)
Fixpoint match_here (r : regex) (s : list ascii)
    (opened groups : list (list ascii)) {struct r}
    : option (list (list ascii) * list ascii) :=
  match r with
  | [] => Some (groups, s)
  | GOpen :: r' => match_here r' s ([] :: opened) groups
  | GClose :: r' =>
    match opened with
    | g :: opened' => match_here r' s opened' (groups ++ [g])
    | [] => None
    end
  | One a :: r' =>
    match s with
    | c :: s' =>
      if accepts a c then match_here r' s' (push c opened) groups else None
    | [] => None
    end
  | Plus a :: r' =>
    (fix more (s : list ascii) (opened : list (list ascii)) {struct s} :=
       match s with
       | c :: s' =>
         if accepts a c then
           match more s' (push c opened) with
           | Some m => Some m
           | None => match_here r' s' (push c opened) groups
           end
         else None
       | [] => None
       end) s opened
  end.

(** [re.findall(r, s)]: the matches found scanning left to right, each
    as its tuple of groups; after a match the scan resumes where the match
    ended (after one character if it was empty). *)
Fixpoint findall_from (fuel : nat) (r : regex) (s : list ascii)
    : list (list (list ascii)) :=
  match fuel with
  | O => []
  | S f =>
    match match_here r s [] [] with
    | Some (g, rest) =>
      g :: (if (length rest <? length s)%nat then findall_from f r rest
            else match s with
                 | [] => []
                 | _ :: s' => findall_from f r s'
                 end)
    | None =>
      match s with
      | [] => []
      | _ :: s' => findall_from f r s'
      end
    end
  end.

Definition findall (pattern : string) (s : string) : list (list (list ascii)) :=
  findall_from (S (length (chars s))) (compile (chars pattern)) (chars s).

End PyRe.

(** ** Resume: counters read back from the checkpoint file name

    [iteration, epoch = re.findall(r'iteration-(\d+)-epoch-(\d+).ckpt',
    cfg['model']['ckpt_file'])[0]], then [int] of each. *)

Definition resume_pattern : string := "iteration-(\d+)-epoch-(\d+).ckpt".

Definition parse_ckpt_name (ckpt_file : string) : result (Z * Z) :=
  match PyRe.findall resume_pattern ckpt_file with
  | [] => Err IndexError
  | g :: _ =>
    match g with
    | [iteration; epoch] =>
      rbind (py_int iteration) (fun i =>
      rbind (py_int epoch) (fun e => Ok (i, e)))
    | _ => Err ValueError
    end
  end.

Example compile_resume_pattern :
  PyRe.compile (chars resume_pattern) =
  (map (fun c => PyRe.One (PyRe.Lit c)) (chars "iteration-")
   ++ [PyRe.GOpen; PyRe.Plus PyRe.Digit; PyRe.GClose]
   ++ map (fun c => PyRe.One (PyRe.Lit c)) (chars "-epoch-")
   ++ [PyRe.GOpen; PyRe.Plus PyRe.Digit; PyRe.GClose; PyRe.One PyRe.AnyChar]
   ++ map (fun c => PyRe.One (PyRe.Lit c)) (chars "ckpt"))%list.
Proof. reflexivity. Qed.

Example parse_example :
  parse_ckpt_name "iteration-000123-epoch-0004.ckpt" = Ok (123, 4).
Proof. vm_compute. reflexivity. Qed.

(** ** The [%] formatting used by [save] *)

Module PyFmt.

Definition zeros (n : nat) : list ascii := repeat "0"%char n.
Definition spaces (n : nat) : list ascii := repeat " "%char n.

(** [%<width>d] and [%0<width>d]: the sign counts in the width and the
    zeros go between the sign and the digits. *)
Definition fmt_d (zero : bool) (width : nat) (n : Z) : list ascii :=
  let sign := if n <? 0 then ["-"%char] else [] in
  let body := decimal (Z.abs n) in
  let pad := (width - length sign - length body)%nat in
  if zero then sign ++ zeros pad ++ body
  else spaces pad ++ sign ++ body.

(** [template % args] for templates made of plain text, [%%], and integer
    conversions [%d] with an optional [0] flag and width. Other conversion
    characters are reported as [ValueError]. *)
Fixpoint format (t : list ascii) (args : list Z) {struct t}
    : result (list ascii) :=
  match t with
  | [] =>
    match args with
    | [] => Ok []
    | _ :: _ => Err TypeError (* not all arguments converted *)
    end
  | c :: t' =>
    if Ascii.eqb c "%" then
      (fix spec (u : list ascii) (started zero : bool) (width : nat)
           {struct u} : result (list ascii) :=
         match u with
         | [] => Err ValueError (* incomplete format *)
         | d :: u' =>
           if Ascii.eqb d "d" then
             match args with
             | [] => Err TypeError (* not enough arguments *)
             | a :: args' =>
               rbind (format u' args') (fun r => Ok (fmt_d zero width a ++ r))
             end
           else if Ascii.eqb d "%" && negb started then
             rbind (format u' args) (fun r => Ok ("%"%char :: r))
           else if Ascii.eqb d "0" && negb started then
             spec u' true true width
           else if is_digit d then
             spec u' true zero (10 * width + Z.to_nat (digit_val d))%nat
           else Err ValueError (* unsupported format character *)
         end) t' false false O
    else rbind (format t' args) (fun r => Ok (c :: r))
  end.

End PyFmt.

(** [os.path.join(a, b)] on POSIX paths. *)
Definition path_join (a b : string) : string :=
  match b with
  | String "/" _ => b
  | _ =>
    match rev (chars a) with
    | [] => b
    | c :: _ => if Ascii.eqb c "/" then a +:+ b else a +:+ "/" +:+ b
    end
  end.

Definition ckpt_template : string := "iteration-%06d-epoch-%04d.ckpt".

(** The file name [save] hands to the model's [save_state]:
    [os.path.join(logdir, 'iteration-%06d-epoch-%04d.ckpt') % (iteration, epoch)]. *)
Definition ckpt_path (logdir : string) (iteration epoch : Z) : result string :=
  rbind (PyFmt.format (chars (path_join logdir ckpt_template)) [iteration; epoch])
        (fun cs => Ok (string_of_list_ascii cs)).



(** ** Decimal numerals: printing and reading back *)

Lemma digit_char_spec (d : Z) :
  0 <= d < 10 ->
  is_digit (digit_char d) = true /\ digit_val (digit_char d) = d.
Proof.
  intros H.
  assert (Hd : d = 0 \/ d = 1 \/ d = 2 \/ d = 3 \/ d = 4 \/ d = 5 \/ d = 6
               \/ d = 7 \/ d = 8 \/ d = 9) by lia.
  repeat (destruct Hd as [-> | Hd]; [split; reflexivity|]).
  subst. split; reflexivity.
Qed.

(** Value of a numeral written least significant digit first. *)
Fixpoint le_value (l : list ascii) : Z :=
  match l with
  | [] => 0
  | c :: l' => digit_val c + 10 * le_value l'
  end.

Lemma int_digits_acc (l : list ascii) (acc : Z) :
  fold_left (fun a c => 10 * a + digit_val c) l acc
  = acc * 10 ^ Z.of_nat (length l) + int_digits l.
Proof.
  unfold int_digits. revert acc.
  induction l as [|c l IH]; intros acc; simpl length; simpl fold_left.
  - simpl. lia.
  - rewrite IH, (IH (10 * 0 + digit_val c)).
    rewrite Nat2Z.inj_succ, Z.pow_succ_r by lia. lia.
Qed.

Lemma int_digits_app (a b : list ascii) :
  int_digits (a ++ b) = int_digits a * 10 ^ Z.of_nat (length b) + int_digits b.
Proof.
  unfold int_digits at 1. rewrite fold_left_app.
  fold (int_digits a). apply int_digits_acc.
Qed.

Lemma int_digits_rev (l : list ascii) : int_digits (rev l) = le_value l.
Proof.
  induction l as [|c l IH]; [reflexivity|].
  simpl rev. rewrite int_digits_app, IH. simpl.
  unfold int_digits. simpl. lia.
Qed.

Lemma rev_digits_spec (fuel : nat) (n : Z) :
  0 <= n < 10 * 2 ^ Z.of_nat fuel ->
  le_value (rev_digits fuel n) = n
  /\ forallb is_digit (rev_digits fuel n) = true
  /\ rev_digits fuel n <> [].
Proof.
  revert n. induction fuel as [|f IH]; intros n Hn.
  - simpl in *. assert (Hm : n mod 10 = n) by (apply Z.mod_small; lia).
    rewrite Hm. destruct (digit_char_spec n) as [H1 H2]; [lia|].
    rewrite H1, H2. repeat split; [lia | discriminate].
  - simpl rev_digits. destruct (n <? 10) eqn:Hlt.
    + apply Z.ltb_lt in Hlt. simpl.
      destruct (digit_char_spec n) as [H1 H2]; [lia|].
      rewrite H1, H2. repeat split; [lia | discriminate].
    + apply Z.ltb_ge in Hlt.
      rewrite Nat2Z.inj_succ, Z.pow_succ_r in Hn by lia.
      destruct (IH (n / 10)) as (Hv & Hd & _).
      { split; [apply Z.div_pos; lia|].
        apply Z.div_lt_upper_bound; lia. }
      destruct (digit_char_spec (n mod 10)) as [H1 H2];
        [apply Z.mod_pos_bound; lia|].
      simpl. rewrite H1, H2, Hv, Hd.
      repeat split; [|discriminate].
      rewrite (Z.div_mod n 10) at 3 by lia. lia.
Qed.

Lemma rev_digits_length (fuel : nat) (n : Z) (k : nat) :
  0 <= n < 10 ^ Z.of_nat (S k) -> (length (rev_digits fuel n) <= S k)%nat.
Proof.
  revert n k. induction fuel as [|f IH]; intros n k Hn; simpl; [lia|].
  destruct (n <? 10) eqn:Hlt; simpl; [lia|].
  apply Z.ltb_ge in Hlt.
  destruct k as [|k].
  - simpl in Hn. lia.
  - apply le_n_S. apply IH.
    rewrite (Nat2Z.inj_succ (S k)), Z.pow_succ_r in Hn by lia.
    split; [apply Z.div_pos; lia|].
    apply Z.div_lt_upper_bound; lia.
Qed.

Lemma forallb_rev_eq {A} (p : A -> bool) (l : list A) :
  forallb p (rev l) = forallb p l.
Proof.
  induction l as [|x l IH]; [reflexivity|].
  simpl. rewrite forallb_app, IH. simpl. rewrite andb_true_r. apply andb_comm.
Qed.

Lemma decimal_spec (n : Z) :
  0 <= n ->
  int_digits (decimal n) = n
  /\ forallb is_digit (decimal n) = true
  /\ decimal n <> [].
Proof.
  intros Hn. unfold decimal.
  destruct (rev_digits_spec (Z.to_nat (Z.log2 n)) n) as (Hv & Hd & Hne).
  { split; [assumption|].
    rewrite Z2Nat.id by apply Z.log2_nonneg.
    destruct (Z.eq_dec n 0) as [-> | Hnz]; [simpl; lia|].
    pose proof (Z.log2_spec n ltac:(lia)) as [_ Hup].
    rewrite Z.pow_succ_r in Hup by apply Z.log2_nonneg.
    pose proof (Z.pow_pos_nonneg 2 (Z.log2 n) ltac:(lia) (Z.log2_nonneg n)). lia. }
  rewrite int_digits_rev, forallb_rev_eq.
  repeat split; try assumption.
  intros Hr. apply Hne. apply (f_equal (@rev ascii)) in Hr.
  rewrite rev_involutive in Hr. exact Hr.
Qed.

Lemma decimal_length (n : Z) (k : nat) :
  0 <= n < 10 ^ Z.of_nat (S k) -> (length (decimal n) <= S k)%nat.
Proof.
  intros Hn. unfold decimal. rewrite length_rev. apply rev_digits_length. assumption.
Qed.

Lemma int_digits_zeros (k : nat) (d : list ascii) :
  int_digits (PyFmt.zeros k ++ d) = int_digits d.
Proof.
  rewrite int_digits_app.
  assert (Hz : int_digits (PyFmt.zeros k) = 0).
  { unfold PyFmt.zeros. induction k as [|k IH]; [reflexivity|].
    change (repeat "0"%char (S k)) with (["0"%char] ++ repeat "0"%char k)%list.
    rewrite int_digits_app, IH. reflexivity. }
  rewrite Hz. lia.
Qed.

(** [%0<w>d] of a number that fits: exactly [w] digits, reading back to
    the number. *)
Lemma fmt_d_spec (w : nat) (n : Z) :
  0 <= n < 10 ^ Z.of_nat (S w) ->
  length (PyFmt.fmt_d true (S w) n) = S w
  /\ forallb is_digit (PyFmt.fmt_d true (S w) n) = true
  /\ int_digits (PyFmt.fmt_d true (S w) n) = n.
Proof.
  intros Hn. unfold PyFmt.fmt_d.
  assert (Hs : (n <? 0) = false) by (apply Z.ltb_ge; lia).
  rewrite Hs, Z.abs_eq by lia. cbn [length app].
  destruct (decimal_spec n) as (Hv & Hd & Hne); [lia|].
  pose proof (decimal_length n w Hn) as Hlen.
  rewrite Nat.sub_0_r.
  rewrite length_app, forallb_app, int_digits_zeros, Hv, Hd.
  unfold PyFmt.zeros. rewrite repeat_length.
  split; [lia|]. split; [|reflexivity].
  rewrite andb_true_r.
  induction (S w - length (decimal n))%nat as [|k IH]; [reflexivity | exact IH].
Qed.

(** ** Formatting the checkpoint template *)

(** The checkpoint file name without its directory. *)
Definition ckpt_name (iteration epoch : Z) : list ascii :=
  (chars "iteration-" ++ PyFmt.fmt_d true 6 iteration
   ++ chars "-epoch-" ++ PyFmt.fmt_d true 4 epoch ++ chars ".ckpt")%list.

Lemma format_template (i e : Z) :
  PyFmt.format (chars ckpt_template) [i; e] = Ok (ckpt_name i e).
Proof. reflexivity. Qed.

Definition has_char (c : ascii) (s : list ascii) : bool :=
  existsb (Ascii.eqb c) s.

(** Text without [%] is copied as it is. *)
Lemma format_plain_prefix (pre t : list ascii) (args : list Z) :
  has_char "%" pre = false ->
  PyFmt.format (pre ++ t) args
  = rbind (PyFmt.format t args) (fun r => Ok (pre ++ r)%list).
Proof.
  induction pre as [|c pre IH]; intros Hp.
  - simpl. destruct (PyFmt.format t args); reflexivity.
  - unfold has_char in *. cbn [existsb] in Hp.
    apply orb_false_iff in Hp. destruct Hp as [Hc Hp].
    rewrite Ascii.eqb_sym in Hc.
    change ((c :: pre) ++ t)%list with (c :: (pre ++ t))%list.
    cbn [PyFmt.format]. rewrite Hc, (IH Hp).
    destruct (PyFmt.format t args); reflexivity.
Qed.

(** What [os.path.join(logdir, name)] puts in front of a relative name. *)
Definition dir_prefix (logdir : string) : list ascii :=
  match rev (chars logdir) with
  | [] => []
  | c :: _ => if Ascii.eqb c "/" then chars logdir else (chars logdir ++ ["/"%char])%list
  end.

Lemma chars_append (a b : string) : chars (a +:+ b) = (chars a ++ chars b)%list.
Proof.
  unfold chars. induction a as [|c a IH]; simpl; [reflexivity | rewrite IH; reflexivity].
Qed.

Lemma path_join_template (logdir : string) :
  chars (path_join logdir ckpt_template)
  = (dir_prefix logdir ++ chars ckpt_template)%list.
Proof.
  unfold path_join, dir_prefix. cbn [ckpt_template].
  destruct (rev (chars logdir)) as [|c l]; [reflexivity|].
  destruct (Ascii.eqb c "/").
  - apply chars_append.
  - rewrite !chars_append, <- app_assoc. reflexivity.
Qed.

Lemma ckpt_path_spec (logdir : string) (i e : Z) :
  has_char "%" (dir_prefix logdir) = false ->
  ckpt_path logdir i e
  = Ok (string_of_list_ascii (dir_prefix logdir ++ ckpt_name i e)).
Proof.
  intros Hp. unfold ckpt_path.
  rewrite path_join_template, (format_plain_prefix _ _ _ Hp), format_template.
  reflexivity.
Qed.

(** ** Matching the resume pattern *)

Module PyReFacts.
Import PyRe.

Definition lits (cs : list ascii) : regex := map (fun c => One (Lit c)) cs.

Definition pushes (cs : list ascii) (opened : list (list ascii)) : list (list ascii) :=
  fold_left (fun o c => push c o) cs opened.

Lemma lits_match (cs : list ascii) (r : regex) (s : list ascii)
    (opened groups : list (list ascii)) :
  match_here (lits cs ++ r) (cs ++ s) opened groups
  = match_here r s (pushes cs opened) groups.
Proof.
  revert opened. induction cs as [|c cs IH]; intros opened; [reflexivity|].
  simpl. rewrite Ascii.eqb_refl. apply IH.
Qed.

Fixpoint starts_with (p s : list ascii) : bool :=
  match p, s with
  | [], _ => true
  | c :: p', x :: s' => Ascii.eqb c x && starts_with p' s'
  | _ :: _, [] => false
  end.

Lemma lits_need_prefix (cs : list ascii) (r : regex) (s : list ascii)
    (opened groups : list (list ascii)) :
  starts_with cs s = false -> match_here (lits cs ++ r) s opened groups = None.
Proof.
  revert s opened. induction cs as [|c cs IH]; intros s opened H; [discriminate|].
  destruct s as [|x s]; [reflexivity|].
  simpl in *. destruct (Ascii.eqb c x); [|reflexivity].
  apply IH. exact H.
Qed.

Definition stops_digits (t : list ascii) : Prop :=
  match t with
  | [] => True
  | x :: _ => is_digit x = false
  end.

(** A greedy [\d+] in front of a run of digits that ends at [t]: if the
    rest of the pattern matches at [t] the whole run is taken. *)
Lemma plus_digit_run (ds t : list ascii) (r : regex)
    (opened groups : list (list ascii)) (m : list (list ascii) * list ascii) :
  ds <> [] -> forallb is_digit ds = true -> stops_digits t ->
  match_here r t (pushes ds opened) groups = Some m ->
  match_here (Plus Digit :: r) (ds ++ t) opened groups = Some m.
Proof.
  revert opened. induction ds as [|c ds IH]; intros opened Hne Hd Ht Hm;
    [contradiction|].
  simpl in Hd. apply andb_true_iff in Hd. destruct Hd as [Hc Hd].
  destruct ds as [|c' ds'].
  - simpl in *. rewrite Hc.
    destruct t as [|x t']; [exact Hm|].
    simpl in Ht. rewrite Ht. exact Hm.
  - specialize (IH (push c opened) ltac:(discriminate) Hd Ht Hm).
    change (match_here (Plus Digit :: r) ((c :: c' :: ds') ++ t) opened groups)
      with (if accepts Digit c
            then match match_here (Plus Digit :: r) ((c' :: ds') ++ t) (push c opened) groups with
                 | Some m' => Some m'
                 | None => match_here r ((c' :: ds') ++ t) (push c opened) groups
                 end
            else None).
    simpl accepts. rewrite Hc, IH. reflexivity.
Qed.

Lemma pushes_single (cs g : list ascii) : pushes cs [g] = [(g ++ cs)%list].
Proof.
  revert g. induction cs as [|c cs IH]; intros g; simpl.
  - rewrite app_nil_r. reflexivity.
  - unfold pushes in IH. rewrite IH, <- app_assoc. reflexivity.
Qed.

Lemma pushes_nil (cs : list ascii) : pushes cs [] = [].
Proof. induction cs as [|c cs IH]; [reflexivity | exact IH]. Qed.

Lemma match_open (r : regex) (s : list ascii) (opened groups : list (list ascii)) :
  match_here (GOpen :: r) s opened groups = match_here r s ([] :: opened) groups.
Proof. reflexivity. Qed.

Lemma match_close (r : regex) (s g : list ascii) (opened groups : list (list ascii)) :
  match_here (GClose :: r) s (g :: opened) groups
  = match_here r s opened (groups ++ [g]).
Proof. reflexivity. Qed.

Lemma match_one (r : regex) (a : atom) (c : ascii) (s : list ascii)
    (opened groups : list (list ascii)) :
  accepts a c = true ->
  match_here (One a :: r) (c :: s) opened groups
  = match_here r s (push c opened) groups.
Proof. intros H. simpl. rewrite H. reflexivity. Qed.

Abbreviation resume_regex := (compile (chars resume_pattern)).

(** The pattern on a name of the written form. *)
Lemma match_written_name (d1 d2 rest : list ascii) :
  d1 <> [] -> d2 <> [] ->
  forallb is_digit d1 = true -> forallb is_digit d2 = true ->
  match_here resume_regex
    (chars "iteration-" ++ d1 ++ chars "-epoch-" ++ d2 ++ chars ".ckpt" ++ rest)
    [] []
  = Some ([d1; d2], rest).
Proof.
  intros H1 H2 Hd1 Hd2.
  change resume_regex with
    (lits (chars "iteration-")
     ++ GOpen :: Plus Digit :: GClose
        :: lits (chars "-epoch-")
           ++ GOpen :: Plus Digit :: GClose :: One AnyChar
              :: lits (chars "ckpt") ++ [])%list.
  rewrite lits_match, pushes_nil, match_open.
  apply plus_digit_run; [assumption | assumption | reflexivity |].
  rewrite pushes_single, match_close. cbn [app].
  rewrite lits_match, pushes_nil, match_open.
  apply plus_digit_run; [assumption | assumption | reflexivity |].
  rewrite pushes_single, match_close. cbn [app].
  change (chars ".ckpt" ++ rest)%list with ("."%char :: chars "ckpt" ++ rest)%list.
  rewrite match_one by reflexivity.
  rewrite lits_match. reflexivity.
Qed.

(** The pattern can only match where the text [iteration-] starts. *)
Lemma match_needs_iteration (s : list ascii) :
  starts_with (chars "iteration-") s = false ->
  match_here resume_regex s [] [] = None.
Proof.
  intros H.
  change resume_regex with
    (lits (chars "iteration-")
     ++ GOpen :: Plus Digit :: GClose
        :: lits (chars "-epoch-")
           ++ GOpen :: Plus Digit :: GClose :: One AnyChar
              :: lits (chars "ckpt") ++ [])%list.
  apply lits_need_prefix. exact H.
Qed.

(** The first match found scanning from the left. *)
Fixpoint first_match (r : regex) (s : list ascii)
    : option (list (list ascii) * list ascii) :=
  match match_here r s [] [] with
  | Some m => Some m
  | None =>
    match s with
    | [] => None
    | _ :: s' => first_match r s'
    end
  end.

Lemma findall_head (r : regex) (s : list ascii) (fuel : nat) :
  (length s <= fuel)%nat ->
  hd_error (findall_from (S fuel) r s) = option_map fst (first_match r s).
Proof.
  revert s. induction fuel as [|f IH]; intros s Hlen.
  - destruct s as [|c s]; [|simpl in Hlen; lia].
    simpl. destruct (match_here r [] [] []) as [[g rest]|]; reflexivity.
  - destruct s as [|c s].
    + simpl. destruct (match_here r [] [] []) as [[g rest]|]; reflexivity.
    + cbn [findall_from first_match].
      destruct (match_here r (c :: s) [] []) as [[g rest]|]; [reflexivity|].
      apply IH. simpl in Hlen. lia.
Qed.

(** No match starts inside [pre] when it is followed by [rest]. *)
Fixpoint free_of (p pre rest : list ascii) : bool :=
  match pre with
  | [] => true
  | _ :: pre' => negb (starts_with p (pre ++ rest)) && free_of p pre' rest
  end.

Lemma first_match_skip (pre rest : list ascii) :
  free_of (chars "iteration-") pre rest = true ->
  first_match resume_regex (pre ++ rest) = first_match resume_regex rest.
Proof.
  induction pre as [|c pre IH]; intros H; [reflexivity|].
  cbn [free_of] in H. apply andb_true_iff in H. destruct H as [Hs Hf].
  apply negb_true_iff in Hs.
  change ((c :: pre) ++ rest)%list with (c :: (pre ++ rest))%list in *.
  cbn [first_match]. rewrite (match_needs_iteration _ Hs). apply IH. exact Hf.
Qed.

End PyReFacts.

(** What [parse_ckpt_name] does, through the first match. *)
Lemma parse_ckpt_name_first_match (path : string) :
  parse_ckpt_name path =
  match PyReFacts.first_match (PyRe.compile (chars resume_pattern)) (chars path) with
  | None => Err IndexError
  | Some ([iteration; epoch], _) =>
    rbind (py_int iteration) (fun i => rbind (py_int epoch) (fun e => Ok (i, e)))
  | Some _ => Err ValueError
  end.
Proof.
  unfold parse_ckpt_name, PyRe.findall.
  pose proof (PyReFacts.findall_head (PyRe.compile (chars resume_pattern))
                (chars path) (length (chars path)) (Nat.le_refl _)) as Hh.
  revert Hh. generalize (PyRe.compile (chars resume_pattern)) as r. intros r Hh.
  destruct (PyRe.findall_from (S (length (chars path))) r (chars path))
    as [|g gs];
    destruct (PyReFacts.first_match r (chars path)) as [[g' rest]|];
    cbn [hd_error option_map fst] in Hh; try discriminate; [reflexivity|].
  inversion Hh; subst. reflexivity.
Qed.

Lemma py_int_digits (d : list ascii) :
  d <> [] -> forallb is_digit d = true -> py_int d = Ok (int_digits d).
Proof.
  intros Hne Hd. unfold py_int. destruct d; [contradiction|]. rewrite Hd. reflexivity.
Qed.
(** ** Configuration

    The keys that [SOptimizer.__init__] reads. A field of type [option]
    is [None] when the key is absent from the mapping. *)

(** What YAML can put under [train.lr_scheduler]: a mapping, or a value
    that is none (the [null] of [lr_scheduler:] with nothing after it, a
    number, a string). *)
Inductive lrs_value :=
| LrsMapping (m : gmap string pyval)
| LrsScalar (v : pyval).

Record train_cfg := {
  validation_split : option Q;
  seed : option Z;
  resume : option pyval;
  lr_scheduler : option lrs_value;
  max_epochs : option Z;
  max_iterations : option Z;
  cfg_validate_every_iterations : option Z;
  cfg_save_every_iterations : option Z;
  cfg_save_every_epochs : option Z
}.

(** [cfg['data']['loader']], passed on to [DataLoader]. *)
Record loader_cfg := {
  batch_size : option Z;
  drop_last : option bool
}.

Record config := {
  cfg_train : option train_cfg;
  cfg_model : option (gmap string pyval);
  cfg_loader : loader_cfg
}.

Definition namespace {A} (k : string) (ns : option A) : result A :=
  match ns with
  | Some a => Ok a
  | None => Err (KeyError k)
  end.

(** Lines 59-66 of [__init__]: the counters start at [(0, 0)] and are
    overwritten from the file name when
    [cfg['train'].get('resume') and cfg['model']['ckpt_file']] is truthy. *)
Definition resume_counters (cfg : config) : result (Z * Z) :=
  tc ← namespace "train" (cfg_train cfg);
  if truthy (default PNone (resume tc)) then
    m ← namespace "model" (cfg_model cfg);
    ckpt_file ← dict_item m "ckpt_file";
    if truthy ckpt_file then
      match ckpt_file with
      | PStr path => parse_ckpt_name path
      | _ => Err TypeError (* re.findall wants a string *)
      end
    else Ok (0, 0)
  else Ok (0, 0).

(** ** The collaborators from torch: [random_split] and [DataLoader]

    Fractions are exact rationals. A batch is the list of the dataset
    indices it collates. *)

Definition batch := list nat.

Definition Qsum (fs : list Q) : Q := fold_right Qplus (0 # 1)%Q fs.

(** The round-robin loop that hands out the samples left over by the
    floors: [for i in range(remainder): lengths[i % len(lengths)] += 1]. *)
Definition round_robin (remainder : nat) (lengths : list Z) : list Z :=
  fold_left (fun ls i => alter Z.succ (i mod length ls)%nat ls)
            (seq 0 remainder) lengths.

(** Subset lengths of [random_split(dataset, fracs)] for a dataset of [n]
    samples. *)
Definition split_lengths (n : nat) (fracs : list Q) : result (list nat) :=
  if Qeq_bool (Qsum fracs) (1 # 1)%Q then
    if forallb (fun f => Qle_bool (0 # 1)%Q f && Qle_bool f (1 # 1)%Q) fracs then
      let floors := map (fun f => Qfloor (inject_Z (Z.of_nat n) * f)) fracs in
      let remainder := Z.of_nat n - fold_right Z.add 0 floors in
      Ok (map Z.to_nat (round_robin (Z.to_nat remainder) floors))
    else Err ValueError (* fraction not between 0 and 1 *)
  else Err ValueError (* lengths do not add up to the dataset *).

(** Consecutive slices of the permuted indices, one per length. *)
Fixpoint slices (lengths : list nat) (indices : list nat) : list (list nat) :=
  match lengths with
  | [] => []
  | k :: ks => take k indices :: slices ks (drop k indices)
  end.

(** [DataLoader] batching of a subset, in subset order: groups of
    [bs] indices, the last one shorter unless [drop_last]. *)
Fixpoint batches_of (bs : nat) (dl : bool) (l cur : list nat) : list batch :=
  match l with
  | [] =>
    match cur with
    | [] => []
    | _ :: _ => if dl then [] else [cur]
    end
  | x :: l' =>
    let cur' := (cur ++ [x])%list in
    if (length cur' =? bs)%nat then cur' :: batches_of bs dl l' []
    else batches_of bs dl l' cur'
  end.

Definition data_loader (lc : loader_cfg) (subset : list nat) : result (list batch) :=
  let bs := default 1 (batch_size lc) in
  if bs <=? 0 then Err ValueError
  else Ok (batches_of (Z.to_nat bs) (default false (drop_last lc)) subset []).

(** [str(v)], for the scheduler error message. *)
Definition py_str (v : pyval) : string :=
  match v with
  | PNone => "None"
  | PBool true => "True"
  | PBool false => "False"
  | PInt z =>
    string_of_list_ascii
      ((if z <? 0 then ["-"%char] else []) ++ decimal (Z.abs z))
  | PStr s => s
  end.

(** Going from iteration [i] to [i + 1] passes a multiple of [n] exactly
    when [i + 1] is one. *)
Lemma multiples_step (i n : Z) :
  0 < n ->
  (i + 1) / n - i / n = if (i + 1) mod n =? 0 then 1 else 0.
Proof.
  intros Hn. destruct ((i + 1) mod n =? 0) eqn:Hm.
  - apply Z.eqb_eq in Hm. Z.div_mod_to_equations. nia.
  - apply Z.eqb_neq in Hm. Z.div_mod_to_equations. nia.
Qed.

(** ** The trainer *)

Section SOptimizer.

(** Model parameters, optimizer state, scheduler, generator state, loss
    values, learning rates, spectra and clock readings. *)
Context {Par Optm Sch Gen Loss Rate Spec Tm : Type}.

(** [SirenTrack(cfg)] draws the initial weights from torch's global
    generator; [optimizer_factory] builds the optimizer over them. *)
Variable model_init : Gen -> Par.
Variable optimizer_factory : Par -> Optm.
(** [torch.Generator().manual_seed(seed)] and [torch.randperm(n, generator)]. *)
Variable manual_seed : Z -> Gen.
Variable randperm : nat -> Gen -> list nat * Gen.
(** [hasattr(torch.optim.lr_scheduler, name)] and the constructor call
    [lrs_type(opt, **lrs_args)]. *)
Variable has_scheduler : string -> bool.
Variable make_scheduler : string -> gmap string pyval -> Optm -> Sch.
(** Forward pass and criterion: target, prediction and loss of a batch. *)
Variable forward : Par -> batch -> Spec * Spec * Loss.
(** [opt.zero_grad(); loss.backward(); opt.step()]. *)
Variable backprop : Optm -> Par -> batch -> Optm * Par.
Variable get_lr : Optm -> Rate.
(** [scheduler.step(val_loss)] may rewrite the optimizer's learning rate. *)
Variable scheduler_step : Sch -> Loss -> Optm -> Sch * Optm.
(** Loss arithmetic of [validate]: the integer [0], [+=] and [/=]. *)
Variable lzero : Loss.
Variable ladd : Loss -> Loss -> Loss.
Variable ldiv : Loss -> Z -> Loss.
(** [time()] at the n-th reading, and the difference of two readings. *)
Variable now : nat -> Tm.
Variable tsub : Tm -> Tm -> Tm.

(** [val_loss] starts as [torch.nan]. *)
Inductive val_loss :=
| NaN
| Validated (l : Loss).

Inductive cell :=
| CInt (z : Z)
| CLoss (l : Loss)
| CValLoss (v : val_loss)
| CLr (r : Rate)
| CTime (t : Tm).

(** Calls made to the collaborators, in order. *)
Inductive event :=
| OptStep                                         (* opt.step() after backward *)
| Metric (cols : list string) (vals : list cell)  (* logger.record *)
| Snapshot (it : Z) (target pred : Spec)            (* logger.step *)
| Validation (v : Loss)                           (* validate() returned v *)
| SchedulerStep (v : Loss)                        (* scheduler.step *)
| SaveState (filename : string) (count : Q)            (* model.save_state *)
| LogWrite
| LogClose.

(** What [__init__] fixes for the lifetime of the trainer. *)
Record setup := {
  train_loader : list batch;
  val_loader : list batch;
  train_dataset : list nat;
  val_dataset : list nat;
  logdir : string;
  epoch_max : Z;
  iteration_max : Z;
  validate_every_iterations : Z;
  save_every_iterations : Z;
  save_every_epochs : Z
}.

(** What the methods change. *)
Record state := {
  iteration : Z;
  epoch : Z;
  params : Par;
  opt : Optm;
  scheduler : option Sch;
  clock : nat;
  log : list event
}.

Definition set_iteration (i : Z) (s : state) : state :=
  {| iteration := i; epoch := epoch s; params := params s; opt := opt s;
     scheduler := scheduler s; clock := clock s; log := log s |}.
Definition set_epoch (e : Z) (s : state) : state :=
  {| iteration := iteration s; epoch := e; params := params s; opt := opt s;
     scheduler := scheduler s; clock := clock s; log := log s |}.
Definition set_model (o : Optm) (p : Par) (s : state) : state :=
  {| iteration := iteration s; epoch := epoch s; params := p; opt := o;
     scheduler := scheduler s; clock := clock s; log := log s |}.
Definition set_scheduler (sc : Sch) (o : Optm) (s : state) : state :=
  {| iteration := iteration s; epoch := epoch s; params := params s; opt := o;
     scheduler := Some sc; clock := clock s; log := log s |}.
Definition tick (s : state) : state :=
  {| iteration := iteration s; epoch := epoch s; params := params s; opt := opt s;
     scheduler := scheduler s; clock := S (clock s); log := log s |}.
Definition add_event (ev : event) (s : state) : state :=
  {| iteration := iteration s; epoch := epoch s; params := params s; opt := opt s;
     scheduler := scheduler s; clock := clock s; log := (log s ++ [ev])%list |}.

(** *** State and exceptions *)

Inductive outcome (A : Type) :=
| Ret (a : A)
| Raise (e : exn)
| OutOfFuel.
Arguments Ret {A} a.
Arguments Raise {A} e.
Arguments OutOfFuel {A}.

Definition M (A : Type) : Type := state -> outcome A * state.

Definition ret {A} (a : A) : M A := fun s => (Ret a, s).
Definition bind {A B} (m : M A) (k : A -> M B) : M B :=
  fun s =>
    match m s with
    | (Ret a, s') => k a s'
    | (Raise e, s') => (Raise e, s')
    | (OutOfFuel, s') => (OutOfFuel, s')
    end.
Definition raise {A} (e : exn) : M A := fun s => (Raise e, s).
Definition out_of_fuel {A} : M A := fun s => (OutOfFuel, s).
Definition get : M state := fun s => (Ret s, s).
Definition modify (f : state -> state) : M unit := fun s => (Ret tt, f s).
Definition emit (ev : event) : M unit := modify (add_event ev).
Definition time : M Tm := fun s => (Ret (now (clock s)), tick s).
Definition when (b : bool) (m : M unit) : M unit := if b then m else ret tt.

#[local] Instance M_ret : MRet M := @ret.
#[local] Instance M_bind : MBind M := fun A B k m => bind m k.

(** *** [step], [validate], [save] *)

Definition target_of (r : Spec * Spec * Loss) : Spec := r.1.1.
Definition pred_of (r : Spec * Spec * Loss) : Spec := r.1.2.
Definition loss_of (r : Spec * Spec * Loss) : Loss := r.2.

Definition step (input : batch) : M (Spec * Spec * Loss) :=
  s ← get;
  ret (forward (params s) input).

(** [iteration / len(dataloader['train'].dataset)] *)
Definition epoch_count (c : setup) : M Q :=
  s ← get;
  match length (train_dataset c) with
  | O => raise ZeroDivisionError
  | S _ => ret (Qmake (iteration s) (Pos.of_nat (length (train_dataset c))))
  end.

Definition save (c : setup) (count : option Q) : M unit :=
  count ← match count with
           | None => epoch_count c
           | Some q => ret q
           end;
  s ← get;
  match ckpt_path (logdir c) (iteration s) (epoch s) with
  | Ok filename => emit (SaveState filename count)
  | Err e => raise e
  end.

(** The loop of [validate]: [val_loss += self.step(batch)[-1]]. *)
Fixpoint validate_sum (batches : list batch) (acc : Loss) : M Loss :=
  match batches with
  | [] => ret acc
  | b :: bs =>
    r ← step b;
    validate_sum bs (ladd acc (loss_of r))
  end.

Definition validate (c : setup) : M Loss :=
  total ← validate_sum (val_loader c) lzero;
  match val_loader c with
  | [] => raise ZeroDivisionError (* 0 / 0 *)
  | _ :: _ => ret (ldiv total (Z.of_nat (length (val_loader c))))
  end.

(** *** [train] *)

Definition columns : list string :=
  ["iter"; "epoch"; "loss"; "val_loss"; "lr"; "ttrain"; "twait"].

(** The locals of [train] that live across batches. *)
Record locals := {
  twait : Tm;
  cur_val_loss : val_loss
}.

Definition do_backprop (b : batch) (s : state) : state :=
  let r := backprop (opt s) (params s) b in set_model r.1 r.2 s.

Definition do_scheduler_step (sc : Sch) (v : Loss) (s : state) : state :=
  let r := scheduler_step sc v (opt s) in set_scheduler r.1 r.2 s.

(** Lines 188-192: validate when the iteration is a multiple of
    [validate_every_iterations], then step the scheduler if there is one. *)
Definition maybe_validate (c : setup) (loc : locals) : M val_loss :=
  s ← get;
  if (0 <? validate_every_iterations c)
     && (iteration s mod validate_every_iterations c =? 0)
  then
    v ← validate c;
    emit (Validation v);;
    s' ← get;
    match scheduler s' with
    | Some sc =>
      modify (do_scheduler_step sc v);;
      emit (SchedulerStep v);;
      ret (Validated v)
    | None => ret (Validated v)
    end
  else ret (cur_val_loss loc).

(** Lines 195-197. *)
Definition maybe_save (c : setup) : M unit :=
  s ← get;
  when ((0 <? save_every_iterations c)
        && (iteration s mod save_every_iterations c =? 0))
       (save c None).

(** One pass through the body of the batch loop; the boolean is [true]
    when the body ends in [break]. *)
Definition batch_body (c : setup) (b : batch) (loc : locals) : M (locals * bool) :=
  modify (fun s => set_iteration (iteration s + 1) s);;
  t0 ← time;
  let tw := tsub t0 (twait loc) in
  t1 ← time;
  r ← step b;
  modify (do_backprop b);;
  emit OptStep;;
  t2 ← time;
  let ttrain := tsub t2 t1 in
  s ← get;
  emit (Metric columns
          [CInt (iteration s); CInt (epoch s); CLoss (loss_of r);
           CValLoss (cur_val_loss loc); CLr (get_lr (opt s));
           CTime ttrain; CTime tw]);;
  t3 ← time;
  emit (Snapshot (iteration s) (target_of r) (pred_of r));;
  vl ← maybe_validate c loc;
  maybe_save c;;
  s ← get;
  ret ({| twait := t3; cur_val_loss := vl |}, iteration_max c <=? iteration s).

(** [for batch in dataloader['train']: ...]; the boolean is
    [stop_training]. *)
Fixpoint batch_loop (c : setup) (batches : list batch) (loc : locals)
    : M (locals * bool) :=
  match batches with
  | [] => ret (loc, false)
  | b :: bs =>
    '(loc', stop) ← batch_body c b loc;
    if stop : bool then ret (loc', true) else batch_loop c bs loc'
  end.

(** Lines 207-211, after a pass that did not break. *)
Definition end_of_epoch (c : setup) : M unit :=
  modify (fun s => set_epoch (epoch s + 1) s);;
  s ← get;
  when ((0 <? save_every_epochs c * epoch s)
        && (epoch s mod save_every_epochs c =? 0))
       (count ← epoch_count c; save c (Some count)).

(** The [while] loop; [fuel] bounds the number of times its body runs. *)
Fixpoint epoch_loop (fuel : nat) (c : setup) (loc : locals) : M unit :=
  s ← get;
  if (iteration s <? iteration_max c) && (epoch s <? epoch_max c) then
    match fuel with
    | O => out_of_fuel
    | S fuel' =>
      '(loc', stop_training) ← batch_loop c (train_loader c) loc;
      if stop_training : bool then ret tt
      else end_of_epoch c;; epoch_loop fuel' c loc'
    end
  else ret tt.

Definition train (fuel : nat) (c : setup) : M unit :=
  t ← time;
  epoch_loop fuel c {| twait := t; cur_val_loss := NaN |};;
  emit LogWrite;;
  emit LogClose.

(** *** [__init__] *)

Record trainer := {
  self_setup : setup;
  self_state : state;
  generator : Gen
}.

(** [random_split(dataset, fracs, generator)]: the subsets are
    consecutive slices of one random permutation of the indices. *)
Definition random_split (n : nat) (fracs : list Q) (g : Gen)
    : result (list (list nat) * Gen) :=
  lengths ← split_lengths n fracs;
  let '(indices, g') := randperm (foldr Nat.add O lengths) g in
  Ok (slices lengths indices, g').

(** Lines 70-81: the scheduler is looked up by name in
    [torch.optim.lr_scheduler]; the error message reads [lrs["Name"]].
    [lrs.get] exists on a mapping only. *)
Definition configure_scheduler (tc : train_cfg) (o : Optm) : result (option Sch) :=
  match default (LrsMapping ∅) (lr_scheduler tc) with
  | LrsScalar _ => Err AttributeError (* no attribute 'get' *)
  | LrsMapping lrs =>
    if truthy (dict_get lrs "name") then
      name ← dict_item lrs "name";
      match name with
      | PStr nm =>
        if has_scheduler nm then Ok (Some (make_scheduler nm lrs o))
        else
          shown ← dict_item lrs "Name";
          Err (RuntimeError
                 ("Learning rate scheduler not available: " +:+ py_str shown))
      | _ => Err TypeError (* hasattr wants a string *)
      end
    else Ok None
  end.

(** [SOptimizer(cfg)], given what the collaborators supply: the size of
    [ToyMCDataset(cfg)], the state of torch's global generator when the
    model is built, and the logger's directory. *)
Definition init (cfg : config) (dataset_len : nat) (global_rng : Gen)
    (logger_dir : string) : result trainer :=
  let p := model_init global_rng in
  tc ← namespace "train" (cfg_train cfg);
  let val_split := default (1 # 10)%Q (validation_split tc) in
  let g := manual_seed (default 0 (seed tc)) in
  '(parts, g') ← random_split dataset_len [(1 - val_split)%Q; val_split] g;
  match parts with
  | [train_set; val_set] =>
    tl ← data_loader (cfg_loader cfg) train_set;
    vl ← data_loader (cfg_loader cfg) val_set;
    let o := optimizer_factory p in
    '(it, ep) ← resume_counters cfg;
    sched ← configure_scheduler tc o;
    Ok {| self_setup :=
            {| train_loader := tl;
               val_loader := vl;
               train_dataset := train_set;
               val_dataset := val_set;
               logdir := logger_dir;
               epoch_max := default (10 ^ 20) (max_epochs tc);
               iteration_max := default (10 ^ 20) (max_iterations tc);
               validate_every_iterations :=
                 default (Z.of_nat (length tl)) (cfg_validate_every_iterations tc);
               save_every_iterations := default (-1) (cfg_save_every_iterations tc);
               save_every_epochs := default (-1) (cfg_save_every_epochs tc) |};
          self_state :=
            {| iteration := it; epoch := ep; params := p; opt := o;
               scheduler := sched; clock := O; log := [] |};
          generator := g' |}
  | _ => Err ValueError
  end.



(** ** Reading the log *)

Definition is_opt_step (ev : event) : bool :=
  match ev with OptStep => true | _ => false end.
Definition is_record (ev : event) : bool :=
  match ev with Metric _ _ => true | _ => false end.
Definition is_validation (ev : event) : bool :=
  match ev with Validation _ => true | _ => false end.
Definition is_save (ev : event) : bool :=
  match ev with SaveState _ _ => true | _ => false end.

Fixpoint count (p : event -> bool) (evs : list event) : nat :=
  match evs with
  | [] => O
  | ev :: rest => ((if p ev then 1 else 0) + count p rest)%nat
  end.

(** A metric row carries the seven declared columns, one value each. *)
Definition row_ok (ev : event) : Prop :=
  match ev with
  | Metric cols vals => cols = columns /\ length vals = 7%nat
  | _ => True
  end.

Definition nan_row (vals : list cell) : Prop :=
  vals !! 3%nat = Some (CValLoss NaN).

(** Every row logged before the first validation has [val_loss = nan]. *)
Fixpoint nan_until_validation (evs : list event) : Prop :=
  match evs with
  | [] => True
  | Validation _ :: _ => True
  | Metric _ vals :: rest => nan_row vals /\ nan_until_validation rest
  | _ :: rest => nan_until_validation rest
  end.

(** The stop condition of the loop. *)
Definition stopped (c : setup) (s : state) : bool :=
  (iteration_max c <=? iteration s) || (epoch_max c <=? epoch s).

(** Mean of the per-batch losses over the validation loader. *)
Definition sum_loss (p : Par) (batches : list batch) (acc : Loss) : Loss :=
  fold_left (fun a b => ladd a (loss_of (forward p b))) batches acc.

Definition mean_val_loss (c : setup) (p : Par) : Loss :=
  ldiv (sum_loss p (val_loader c) lzero) (Z.of_nat (length (val_loader c))).

(** ** Lemmas on the monadic code *)

Ltac unfold_M :=
  unfold mbind, mret, M_bind, M_ret, bind, ret, get, modify, emit, raise,
         time, when, out_of_fuel in *.

Lemma count_app p (a b : list event) :
  count p (a ++ b) = (count p a + count p b)%nat.
Proof. induction a as [|ev a IH]; simpl; [reflexivity | rewrite IH; lia]. Qed.

Lemma Forall_row_ok_app (a b : list event) :
  Forall row_ok a -> Forall row_ok b -> Forall row_ok (a ++ b).
Proof. intros Ha Hb. apply Forall_app. split; assumption. Qed.

Lemma nan_until_validation_app (a b : list event) :
  nan_until_validation a ->
  (count is_validation a = O -> nan_until_validation b) ->
  nan_until_validation (a ++ b).
Proof.
  induction a as [|ev a IH]; simpl; intros Ha Hb.
  - apply Hb. reflexivity.
  - destruct ev; simpl in *; try (apply IH; [assumption | exact Hb]).
    + destruct Ha as [Hr Ha]. split; [assumption | apply IH; assumption].
    + exact I.
Qed.

Lemma validate_sum_run (batches : list batch) (acc : Loss) (s : state) :
  validate_sum batches acc s = (Ret (sum_loss (params s) batches acc), s).
Proof.
  revert acc. induction batches as [|b bs IH]; intros acc; simpl.
  - reflexivity.
  - unfold step. unfold_M. simpl. apply IH.
Qed.

Lemma validate_run (c : setup) (s : state) :
  validate c s =
  (match val_loader c with
   | [] => Raise ZeroDivisionError
   | _ :: _ => Ret (mean_val_loss c (params s))
   end, s).
Proof.
  unfold validate, mean_val_loss. unfold_M.
  rewrite validate_sum_run. destruct (val_loader c); reflexivity.
Qed.

Lemma epoch_count_run (c : setup) (s : state) :
  exists o, epoch_count c s = (o, s) /\ o <> OutOfFuel.
Proof.
  unfold epoch_count. unfold_M.
  destruct (length (train_dataset c)); eexists; split; try reflexivity; discriminate.
Qed.

(** [save] adds at most one [SaveState] to the log and touches nothing else. *)
Lemma save_run (c : setup) (cnt : option Q) (s : state) :
  exists o evs, save c cnt s = (o, fold_left (fun s ev => add_event ev s) evs s)
    /\ o <> OutOfFuel
    /\ count is_opt_step evs = O /\ count is_record evs = O
    /\ count is_validation evs = O.
Proof.
  unfold save. unfold_M.
  assert (Hc : exists o, (match cnt with Some q => fun s => (Ret q, s) | None => epoch_count c end) s = (o, s)
                         /\ o <> OutOfFuel).
  { destruct cnt as [q|]; [eexists; split; [reflexivity | discriminate] | apply epoch_count_run]. }
  destruct Hc as [o [Hc Ho]].
  destruct cnt as [q|].
  - destruct (ckpt_path (logdir c) (iteration s) (epoch s)) as [f|e].
    + exists (Ret tt), [SaveState f q]. simpl. repeat split; discriminate.
    + exists (Raise e), []. simpl. repeat split; discriminate.
  - rewrite Hc. destruct o as [q|e|].
    + destruct (ckpt_path (logdir c) (iteration s) (epoch s)) as [f|e].
      * exists (Ret tt), [SaveState f q]. simpl. repeat split; discriminate.
      * exists (Raise e), []. simpl. repeat split; discriminate.
    + exists (Raise e), []. simpl. repeat split; discriminate.
    + congruence.
Qed.

(** What a piece of the loop may do to the counters and the log. *)
Definition appended (s s' : state) (evs : list event) : Prop :=
  iteration s' = iteration s /\ epoch s' = epoch s
  /\ log s' = (log s ++ evs)%list.

Lemma appended_events (evs : list event) (s : state) :
  appended s (fold_left (fun s ev => add_event ev s) evs s) evs.
Proof.
  revert s. induction evs as [|ev evs IH]; intros s; simpl.
  - unfold appended. rewrite app_nil_r. auto.
  - destruct (IH (add_event ev s)) as (Hi & He & Hl).
    unfold appended. rewrite Hi, He, Hl. simpl.
    rewrite <- app_assoc. auto.
Qed.

Lemma appended_nil (s : state) : appended s s [].
Proof. unfold appended. rewrite app_nil_r. auto. Qed.

Definition validate_due (c : setup) (s : state) : bool :=
  (0 <? validate_every_iterations c)
  && (iteration s mod validate_every_iterations c =? 0).

Definition save_due (c : setup) (s : state) : bool :=
  (0 <? save_every_iterations c)
  && (iteration s mod save_every_iterations c =? 0).

Lemma maybe_validate_run (c : setup) (loc : locals) (s : state) :
  exists o s' evs,
    maybe_validate c loc s = (o, s') /\ appended s s' evs
    /\ o <> OutOfFuel
    /\ count is_opt_step evs = O /\ count is_record evs = O
    /\ (forall v, o = Ret v ->
          count is_validation evs = O -> v = cur_val_loss loc).
Proof.
  unfold maybe_validate. unfold_M.
  destruct ((0 <? validate_every_iterations c)
            && (iteration s mod validate_every_iterations c =? 0)).
  - rewrite validate_run. destruct (val_loader c) as [|vb vbs] eqn:Hv.
    + exists (Raise ZeroDivisionError), s, [].
      split; [reflexivity|]. split; [apply appended_nil|].
      repeat split; discriminate.
    + simpl. destruct (scheduler s) as [sc|].
      * eexists _, _, [Validation _; SchedulerStep _].
        split; [reflexivity|]. unfold appended, do_scheduler_step. simpl.
        rewrite <- app_assoc. repeat split; discriminate.
      * eexists _, _, [Validation _].
        split; [reflexivity|]. unfold appended. simpl.
        repeat split; discriminate.
  - exists (Ret (cur_val_loss loc)), s, [].
    split; [reflexivity|]. split; [apply appended_nil|].
    repeat split; try discriminate. congruence.
Qed.

Lemma maybe_save_run (c : setup) (s : state) :
  exists o s' evs,
    maybe_save c s = (o, s') /\ appended s s' evs
    /\ o <> OutOfFuel
    /\ count is_opt_step evs = O /\ count is_record evs = O
    /\ count is_validation evs = O.
Proof.
  unfold maybe_save. unfold_M.
  destruct ((0 <? save_every_iterations c)
            && (iteration s mod save_every_iterations c =? 0)).
  - destruct (save_run c None s) as (o & evs & Hs & Ho & H1 & H2 & H3).
    exists o, (fold_left (fun s ev => add_event ev s) evs s), evs.
    repeat split; try assumption; apply appended_events.
  - exists (Ret tt), s, [].
    split; [reflexivity|]. split; [apply appended_nil|].
    repeat split; discriminate.
Qed.

(** One batch: the iteration counter moves by one, one update and one
    well-formed row are logged, and the loop breaks exactly when the
    iteration limit is reached. *)
Lemma batch_body_run (c : setup) (b : batch) (loc : locals) (s : state) :
  exists o s' vals tail,
    batch_body c b loc s = (o, s')
    /\ iteration s' = iteration s + 1 /\ epoch s' = epoch s
    /\ log s' = (log s ++ OptStep :: Metric columns vals :: tail)%list
    /\ length vals = 7%nat
    /\ vals !! 3%nat = Some (CValLoss (cur_val_loss loc))
    /\ count is_opt_step tail = O /\ count is_record tail = O
    /\ o <> OutOfFuel
    /\ (forall loc' brk, o = Ret (loc', brk) ->
          brk = (iteration_max c <=? iteration s')
          /\ (count is_validation tail = O ->
              cur_val_loss loc' = cur_val_loss loc)).
Proof.
  unfold batch_body. unfold_M. unfold step. unfold_M. simpl.
  match goal with
  | |- context [maybe_validate c loc ?s1] =>
    destruct (maybe_validate_run c loc s1)
      as (ov & sv & ev1 & Hv & (Hvi & Hve & Hvl) & Hvo & Hv1 & Hv2 & Hv3);
    rewrite Hv
  end.
  simpl in Hvi, Hve, Hvl.
  assert (Hshape : forall (s' : state) (ev2 : list event),
    iteration s' = iteration sv -> epoch s' = epoch sv ->
    log s' = (log sv ++ ev2)%list ->
    count is_opt_step ev2 = O -> count is_record ev2 = O ->
    exists vals tail,
      iteration s' = iteration s + 1 /\ epoch s' = epoch s
      /\ log s' = (log s ++ OptStep :: Metric columns vals :: tail)%list
      /\ length vals = 7%nat
      /\ vals !! 3%nat = Some (CValLoss (cur_val_loss loc))
      /\ count is_opt_step tail = O /\ count is_record tail = O
      /\ count is_validation tail
         = (count is_validation ev1 + count is_validation ev2)%nat).
  { intros s' ev2 Hi He Hl H1 H2.
    eexists _, (Snapshot _ _ _ :: ev1 ++ ev2)%list.
    rewrite Hi, He, Hl, Hvi, Hve, Hvl.
    split; [reflexivity|]. split; [reflexivity|].
    split; [repeat rewrite <- app_assoc; reflexivity|].
    split; [reflexivity|]. split; [reflexivity|].
    simpl. rewrite !count_app. repeat split; lia. }
  destruct ov as [vl|e|]; [| |congruence].
  - destruct (maybe_save_run c sv)
      as (os & ss & ev2 & Hs & (Hsi & Hse & Hsl) & Hso & Hs1 & Hs2 & Hs3).
    rewrite Hs.
    destruct (Hshape ss ev2 Hsi Hse Hsl Hs1 Hs2)
      as (vals & tail & Hi & He & Hl & Hn & Hr & Ht1 & Ht2 & Ht3).
    destruct os as [[]|e|]; [| |congruence].
    + eexists _, ss, vals, tail. split; [reflexivity|].
      repeat (split; [assumption|]). split; [discriminate|].
      intros loc' brk Heq. inversion Heq; subst. simpl. split.
      * rewrite Hsi, Hvi. reflexivity.
      * intros Hc. apply Hv3; [reflexivity | lia].
    + eexists _, ss, vals, tail. split; [reflexivity|].
      repeat (split; [assumption|]). split; discriminate.
  - destruct (Hshape sv [] eq_refl eq_refl (eq_sym (app_nil_r _)) eq_refl eq_refl)
      as (vals & tail & Hi & He & Hl & Hn & Hr & Ht1 & Ht2 & Ht3).
    eexists _, sv, vals, tail. split; [reflexivity|].
    repeat (split; [assumption|]). split; discriminate.
Qed.

(** What the log of a run looks like when the run started with
    [val_loss = v]: as many rows as updates, every row well formed, and
    [nan] in the rows before the first validation if [v] was [nan]. *)
Definition logged (v : val_loss) (evs : list event) : Prop :=
  count is_record evs = count is_opt_step evs
  /\ Forall row_ok evs
  /\ (v = NaN -> nan_until_validation evs).

Lemma no_record_row_ok (evs : list event) :
  count is_record evs = O -> Forall row_ok evs.
Proof.
  induction evs as [|ev evs IH]; simpl; intros H; constructor.
  - destruct ev; simpl in *; try exact I. discriminate.
  - apply IH. destruct (is_record ev); [discriminate | exact H].
Qed.

Lemma no_record_nan (evs : list event) :
  count is_record evs = O -> nan_until_validation evs.
Proof.
  induction evs as [|ev evs IH]; simpl; intros H; [exact I|].
  destruct ev; simpl in *; try (apply IH; exact H); try exact I.
  discriminate.
Qed.

Lemma logged_quiet (v : val_loss) (evs : list event) :
  count is_opt_step evs = O -> count is_record evs = O -> logged v evs.
Proof.
  intros H1 H2. unfold logged. rewrite H1, H2.
  split; [reflexivity|]. split; [apply no_record_row_ok; assumption|].
  intros _. apply no_record_nan. assumption.
Qed.

Lemma logged_app (v v' : val_loss) (a b : list event) :
  logged v a -> logged v' b ->
  (count is_validation a = O -> v' = v) ->
  logged v (a ++ b).
Proof.
  intros (Ha1 & Ha2 & Ha3) (Hb1 & Hb2 & Hb3) Hv. unfold logged.
  rewrite !count_app, Ha1, Hb1.
  split; [reflexivity|]. split; [apply Forall_app; split; assumption|].
  intros Hn. apply nan_until_validation_app; [apply Ha3; assumption|].
  intros Hc. apply Hb3. rewrite (Hv Hc). assumption.
Qed.

Lemma logged_batch (v : val_loss) (vals : list cell) (tail : list event) :
  length vals = 7%nat -> vals !! 3%nat = Some (CValLoss v) ->
  count is_opt_step tail = O -> count is_record tail = O ->
  logged v (OptStep :: Metric columns vals :: tail).
Proof.
  intros Hn Hr H1 H2. unfold logged. simpl. rewrite H1, H2.
  split; [reflexivity|]. split.
  - constructor; [exact I|]. constructor; [split; [reflexivity | assumption]|].
    apply no_record_row_ok. assumption.
  - intros ->. split; [exact Hr | apply no_record_nan; assumption].
Qed.

(** One pass over (a prefix of) the training loader. *)
Lemma batch_loop_run (c : setup) (batches : list batch) (loc : locals) (s : state) :
  exists o s' evs,
    batch_loop c batches loc s = (o, s')
    /\ epoch s' = epoch s
    /\ iteration s' = iteration s + Z.of_nat (count is_opt_step evs)
    /\ log s' = (log s ++ evs)%list
    /\ logged (cur_val_loss loc) evs
    /\ (count is_opt_step evs <= length batches)%nat
    /\ o <> OutOfFuel
    /\ (iteration s < iteration_max c -> iteration s' <= iteration_max c)
    /\ (forall loc' stop, o = Ret (loc', stop) ->
          (count is_validation evs = O -> cur_val_loss loc' = cur_val_loss loc)
          /\ (stop = true -> iteration_max c <= iteration s')
          /\ (stop = false ->
              count is_opt_step evs = length batches
              /\ (batches = [] \/ iteration s' < iteration_max c))).
Proof.
  revert loc s. induction batches as [|b bs IH]; intros loc s; simpl.
  - exists (Ret (loc, false)), s, []. unfold_M. simpl.
    split; [reflexivity|]. split; [reflexivity|]. split; [lia|].
    split; [symmetry; apply app_nil_r|].
    split; [apply logged_quiet; reflexivity|]. split; [lia|].
    split; [discriminate|]. split; [lia|].
    intros loc' stop Heq. inversion Heq; subst.
    split; [reflexivity|]. split; [discriminate|]. intros _. auto.
  - unfold_M.
    destruct (batch_body_run c b loc s)
      as (o1 & s1 & vals & tail & Hb & Hi1 & He1 & Hl1 & Hn & Hr & Ht1 & Ht2
          & Ho1 & Hret1).
    rewrite Hb.
    assert (Hlg1 : logged (cur_val_loss loc) (OptStep :: Metric columns vals :: tail))
      by (apply logged_batch; assumption).
    assert (Hc1 : count is_opt_step (OptStep :: Metric columns vals :: tail) = 1%nat)
      by (simpl; lia).
    destruct o1 as [[loc1 brk]|e|]; [| |congruence].
    + destruct (Hret1 loc1 brk eq_refl) as [Hbrk Hval1].
      destruct brk.
      * exists (Ret (loc1, true)), s1, (OptStep :: Metric columns vals :: tail).
        split; [reflexivity|]. split; [assumption|].
        split; [rewrite Hc1; lia|]. split; [assumption|].
        split; [assumption|]. split; [rewrite Hc1; lia|].
        split; [discriminate|]. split; [lia|].
        intros loc' stop Heq. inversion Heq; subst.
        split; [intros Hc; apply Hval1; simpl in Hc; lia|].
        split; [intros _; symmetry in Hbrk; apply Z.leb_le in Hbrk; lia|].
        discriminate.
      * symmetry in Hbrk. apply Z.leb_gt in Hbrk.
        destruct (IH loc1 s1)
          as (o2 & s2 & evs2 & Hrun & He2 & Hi2 & Hl2 & Hlg2 & Hc2 & Ho2
              & Hmax2 & Hret2).
        exists o2, s2, ((OptStep :: Metric columns vals :: tail) ++ evs2)%list.
        split; [exact Hrun|]. split; [congruence|].
        split; [rewrite count_app, Hc1; lia|].
        split; [rewrite Hl2, Hl1, <- app_assoc; reflexivity|].
        split; [eapply logged_app; [exact Hlg1 | exact Hlg2 |];
                intros Hc; apply Hval1; simpl in Hc; lia|].
        split; [rewrite count_app, Hc1; lia|].
        split; [assumption|]. split; [intros _; apply Hmax2; lia|].
        intros loc' stop Heq. destruct (Hret2 loc' stop Heq) as (Hv2 & Hs2 & Hf2).
        split.
        { intros Hc. rewrite count_app in Hc.
          rewrite Hv2 by lia. apply Hval1. simpl in Hc. lia. }
        split; [assumption|].
        intros Hst. destruct (Hf2 Hst) as [Hcnt Hlt].
        split; [rewrite count_app, Hc1, Hcnt; lia|].
        right. destruct Hlt as [-> | Hlt]; [|assumption].
        simpl in Hcnt. rewrite Hi2. simpl in Hc2.
        assert (count is_opt_step evs2 = O) by lia. lia.
    + exists (Raise e), s1, (OptStep :: Metric columns vals :: tail).
      split; [reflexivity|]. split; [assumption|].
      split; [rewrite Hc1; lia|]. split; [assumption|].
      split; [assumption|]. split; [rewrite Hc1; lia|].
      split; [discriminate|]. split; [lia|]. discriminate.
Qed.

Lemma end_of_epoch_run (c : setup) (s : state) :
  exists o s' evs,
    end_of_epoch c s = (o, s')
    /\ iteration s' = iteration s /\ epoch s' = epoch s + 1
    /\ log s' = (log s ++ evs)%list
    /\ count is_opt_step evs = O /\ count is_record evs = O
    /\ count is_validation evs = O
    /\ o <> OutOfFuel.
Proof.
  unfold end_of_epoch. unfold_M. simpl.
  destruct ((0 <? save_every_epochs c * (epoch s + 1))
            && ((epoch s + 1) mod save_every_epochs c =? 0)).
  - destruct (epoch_count_run c (set_epoch (epoch s + 1) s)) as (oc & Hc & Hoc).
    rewrite Hc. destruct oc as [q|e|]; [| |congruence].
    + destruct (save_run c (Some q) (set_epoch (epoch s + 1) s))
        as (o & evs & Hs & Ho & H1 & H2 & H3).
      destruct (appended_events evs (set_epoch (epoch s + 1) s)) as (Hi & He & Hl).
      exists o, (fold_left (fun s ev => add_event ev s) evs (set_epoch (epoch s + 1) s)), evs.
      split; [exact Hs|]. rewrite Hi, He, Hl. simpl. auto 10.
    + exists (Raise e), (set_epoch (epoch s + 1) s), []. simpl.
      rewrite app_nil_r. repeat split; discriminate.
  - exists (Ret tt), (set_epoch (epoch s + 1) s), []. simpl.
    rewrite app_nil_r. repeat split; discriminate.
Qed.

(** The epoch loop: the counters stay within the limits, the log is
    well formed, a normal exit leaves the trainer stopped, and the loop
    ends within [epoch_max - epoch] rounds. *)
Lemma epoch_loop_run (fuel : nat) (c : setup) (loc : locals) (s : state) :
  exists o s' evs,
    epoch_loop fuel c loc s = (o, s')
    /\ log s' = (log s ++ evs)%list
    /\ iteration s' = iteration s + Z.of_nat (count is_opt_step evs)
    /\ logged (cur_val_loss loc) evs
    /\ epoch s <= epoch s' <= Z.max (epoch s) (epoch_max c)
    /\ iteration s' <= Z.max (iteration s) (iteration_max c)
    /\ Z.of_nat (count is_opt_step evs)
       <= Z.max 0 (epoch_max c - epoch s) * Z.of_nat (length (train_loader c))
    /\ (o = Ret tt -> stopped c s' = true)
    /\ ((Z.to_nat (epoch_max c - epoch s) <= fuel)%nat -> o <> OutOfFuel).
Proof.
  revert loc s. induction fuel as [|fuel IH]; intros loc s.
  - simpl. unfold_M.
    destruct ((iteration s <? iteration_max c) && (epoch s <? epoch_max c)) eqn:Hgo.
    + exists OutOfFuel, s, []. rewrite app_nil_r. simpl.
      apply andb_true_iff in Hgo. destruct Hgo as [_ Hep]. apply Z.ltb_lt in Hep.
      split; [reflexivity|]. split; [reflexivity|]. split; [lia|].
      split; [apply logged_quiet; reflexivity|].
      split; [lia|]. split; [lia|]. split; [nia|]. split; [discriminate|].
      intros Hf. lia.
    + exists (Ret tt), s, []. rewrite app_nil_r. simpl.
      split; [reflexivity|]. split; [reflexivity|]. split; [lia|].
      split; [apply logged_quiet; reflexivity|].
      split; [lia|]. split; [lia|]. split; [nia|].
      split; [|discriminate].
      intros _. unfold stopped.
      apply andb_false_iff in Hgo. apply orb_true_iff.
      destruct Hgo as [H | H]; apply Z.ltb_ge in H; [left | right];
        apply Z.leb_le; assumption.
  - simpl. unfold_M.
    destruct ((iteration s <? iteration_max c) && (epoch s <? epoch_max c)) eqn:Hgo.
    + apply andb_true_iff in Hgo. destruct Hgo as [Hit Hep].
      apply Z.ltb_lt in Hit. apply Z.ltb_lt in Hep.
      destruct (batch_loop_run c (train_loader c) loc s)
        as (o1 & s1 & evs1 & Hrun1 & He1 & Hi1 & Hl1 & Hlg1 & Hc1 & Ho1
            & Hmax1 & Hret1).
      rewrite Hrun1. specialize (Hmax1 Hit).
      destruct o1 as [[loc1 stop]|e|]; [| |congruence].
      * destruct (Hret1 loc1 stop eq_refl) as (Hv1 & Hst & Hnst).
        destruct stop.
        -- exists (Ret tt), s1, evs1.
           split; [reflexivity|]. split; [assumption|]. split; [assumption|].
           split; [assumption|]. split; [lia|]. split; [lia|]. split; [nia|].
           split; [|discriminate].
           intros _. unfold stopped. apply orb_true_iff. left.
           apply Z.leb_le. apply Hst. reflexivity.
        -- destruct (end_of_epoch_run c s1)
             as (o2 & s2 & evs2 & Hrun2 & Hi2 & He2 & Hl2 & H21 & H22 & H23 & Ho2).
           rewrite Hrun2.
           assert (Hlg2 : logged (cur_val_loss loc1) evs2)
             by (apply logged_quiet; assumption).
           destruct o2 as [[]|e|]; [| |congruence].
           ++ destruct (IH loc1 s2)
                as (o3 & s3 & evs3 & Hrun3 & Hl3 & Hi3 & Hlg3 & He3 & Hm3
                    & Hp3 & Hstop3 & Hfuel3).
              exists o3, s3, (evs1 ++ evs2 ++ evs3)%list.
              split; [exact Hrun3|].
              split; [rewrite Hl3, Hl2, Hl1, <- !app_assoc; reflexivity|].
              split; [rewrite !count_app, H21; lia|].
              split.
              { eapply logged_app; [exact Hlg1| |exact Hv1].
                eapply logged_app; [exact Hlg2 | exact Hlg3 | reflexivity]. }
              split; [lia|]. split; [lia|].
              split; [rewrite !count_app, H21; nia|].
              split; [assumption|].
              intros Hf. apply Hfuel3. lia.
           ++ exists (Raise e), s2, (evs1 ++ evs2)%list.
              split; [reflexivity|].
              split; [rewrite Hl2, Hl1, <- !app_assoc; reflexivity|].
              split; [rewrite !count_app, H21; lia|].
              split; [eapply logged_app; [exact Hlg1 | exact Hlg2 | exact Hv1]|].
              split; [lia|]. split; [lia|].
              split; [rewrite !count_app, H21; nia|].
              split; discriminate.
      * exists (Raise e), s1, evs1.
        split; [reflexivity|]. split; [assumption|]. split; [assumption|].
        split; [assumption|]. split; [lia|]. split; [lia|]. split; [nia|].
        split; discriminate.
    + exists (Ret tt), s, []. rewrite app_nil_r. simpl.
      split; [reflexivity|]. split; [reflexivity|]. split; [lia|].
      split; [apply logged_quiet; reflexivity|].
      split; [lia|]. split; [lia|]. split; [nia|].
      split; [|discriminate].
      intros _. unfold stopped.
      apply andb_false_iff in Hgo. apply orb_true_iff.
      destruct Hgo as [H | H]; apply Z.ltb_ge in H; [left | right];
        apply Z.leb_le; assumption.
Qed.

(** [train]: one clock reading, the epoch loop, and the logger is
    written and closed on a normal exit. *)
Lemma train_run (fuel : nat) (c : setup) (s : state) :
  exists o s' evs,
    train fuel c s = (o, s')
    /\ log s' = (log s ++ evs)%list
    /\ iteration s' = iteration s + Z.of_nat (count is_opt_step evs)
    /\ logged NaN evs
    /\ epoch s <= epoch s' <= Z.max (epoch s) (epoch_max c)
    /\ iteration s' <= Z.max (iteration s) (iteration_max c)
    /\ Z.of_nat (count is_opt_step evs)
       <= Z.max 0 (epoch_max c - epoch s) * Z.of_nat (length (train_loader c))
    /\ (o = Ret tt -> stopped c s' = true)
    /\ ((Z.to_nat (epoch_max c - epoch s) <= fuel)%nat -> o <> OutOfFuel).
Proof.
  unfold train. unfold_M.
  destruct (epoch_loop_run fuel c {| twait := now (clock s); cur_val_loss := NaN |} (tick s))
    as (o & s1 & evs & Hrun & Hl & Hi & Hlg & He & Hm & Hp & Hst & Hf).
  rewrite Hrun. simpl in *.
  destruct o as [[]|e|].
  - exists (Ret tt), (add_event LogClose (add_event LogWrite s1)),
      (evs ++ [LogWrite; LogClose])%list.
    split; [reflexivity|]. simpl.
    split; [rewrite Hl, <- !app_assoc; reflexivity|].
    split; [rewrite count_app; simpl; lia|].
    split; [eapply logged_app; [exact Hlg | apply (logged_quiet NaN); reflexivity
                                | reflexivity]|].
    split; [lia|]. split; [lia|].
    split; [rewrite count_app; simpl; lia|].
    split; [|discriminate]. intros _. apply Hst. reflexivity.
  - exists (Raise e), s1, evs.
    repeat (split; [first [reflexivity | assumption]|]). discriminate.
  - exists OutOfFuel, s1, evs.
    repeat (split; [first [reflexivity | assumption]|]). assumption.
Qed.

(** ** The training loop respects its limits *)

(** C2. For positive limits [iteration_max] and [epoch_max] (and counters
    that are not negative), [train] logs at most [iteration_max] optimizer
    updates, and no more than [epoch_max] passes over the training loader:
    the updates never exceed [epoch_max * len(train_loader)] and the epoch
    counter advances by at most [epoch_max]. The loop is left normally only
    with [iteration >= iteration_max] or [epoch >= epoch_max]; that
    condition is what the [while] tests before each epoch, and what the
    [break] test after each batch amounts to (the epoch half cannot change
    inside a pass). [epoch_max - epoch] rounds of fuel are enough for
    [train] to come to an end. *)
Theorem C2_train_respects_limits (fuel : nat) (c : setup) (s : state) :
  0 < iteration_max c -> 0 < epoch_max c ->
  0 <= iteration s -> 0 <= epoch s ->
  exists evs,
    log (train fuel c s).2 = (log s ++ evs)%list
    /\ Z.of_nat (count is_opt_step evs) <= iteration_max c
    /\ Z.of_nat (count is_opt_step evs)
       <= epoch_max c * Z.of_nat (length (train_loader c))
    /\ epoch (train fuel c s).2 - epoch s <= epoch_max c
    /\ ((train fuel c s).1 = Ret tt -> stopped c (train fuel c s).2 = true)
    /\ ((Z.to_nat (epoch_max c - epoch s) <= fuel)%nat ->
        (train fuel c s).1 <> OutOfFuel)
    /\ (forall f loc s0,
          stopped c s0 = true -> epoch_loop f c loc s0 = (Ret tt, s0))
    /\ (forall f loc s0,
          stopped c s0 = false ->
          epoch_loop (S f) c loc s0 =
          ('(loc', stop_training) ← batch_loop c (train_loader c) loc;
           if stop_training : bool then mret tt
           else end_of_epoch c;; epoch_loop f c loc') s0)
    /\ (forall b loc s0 loc' brk s1,
          epoch s0 < epoch_max c ->
          batch_body c b loc s0 = (Ret (loc', brk), s1) ->
          brk = stopped c s1).
Proof.
  intros Him Hem Hi He.
  destruct (train_run fuel c s)
    as (o & s' & evs & Hrun & Hl & Hit & Hlg & Hep & Hmx & Hps & Hst & Hf).
  rewrite Hrun. simpl. exists evs.
  split; [assumption|]. split; [lia|]. split; [nia|]. split; [lia|].
  split; [assumption|]. split; [assumption|].
  assert (Hcond : forall s0, stopped c s0
            = negb ((iteration s0 <? iteration_max c) && (epoch s0 <? epoch_max c))).
  { intros s0. unfold stopped. rewrite negb_andb, !Z.ltb_antisym, !negb_involutive.
    reflexivity. }
  split; [|split].
  - intros f loc s0 Hs0. rewrite Hcond in Hs0. apply negb_true_iff in Hs0.
    destruct f; simpl; unfold_M; rewrite Hs0; reflexivity.
  - intros f loc s0 Hs0. rewrite Hcond in Hs0. apply negb_false_iff in Hs0.
    simpl. unfold_M. rewrite Hs0. reflexivity.
  - intros b loc s0 loc' brk s1 Hlt Hb.
    destruct (batch_body_run c b loc s0)
      as (o1 & s1' & vals & tail & Hb' & Hi1 & He1 & _ & _ & _ & _ & _ & _ & Hret).
    rewrite Hb in Hb'. inversion Hb'; subst o1 s1'.
    destruct (Hret loc' brk eq_refl) as [-> _].
    unfold stopped.
    assert (Hno : (epoch_max c <=? epoch s1) = false) by (apply Z.leb_gt; lia).
    rewrite Hno, orb_false_r. reflexivity.
Qed.

(** ** The metric log *)

(** Rows against the loader: every pass that was completed went through
    the whole training loader, and the pass in which the run ended (by
    [break], by an exception, or not begun) through [r] of its batches. *)
Lemma epoch_loop_rows (fuel : nat) (c : setup) (loc : locals) (s : state) :
  exists o s' evs r,
    epoch_loop fuel c loc s = (o, s')
    /\ log s' = (log s ++ evs)%list
    /\ (r <= length (train_loader c))%nat
    /\ Z.of_nat (count is_record evs)
       = (epoch s' - epoch s) * Z.of_nat (length (train_loader c))
         + Z.of_nat r.
Proof.
  revert loc s. induction fuel as [|fuel IH]; intros loc s; simpl; unfold_M.
  - destruct ((iteration s <? iteration_max c) && (epoch s <? epoch_max c));
      eexists _, s, [], O; rewrite app_nil_r; simpl;
      (split; [reflexivity|]); (split; [reflexivity|]); split; lia.
  - destruct ((iteration s <? iteration_max c) && (epoch s <? epoch_max c));
      [|eexists _, s, [], O; rewrite app_nil_r; simpl;
        (split; [reflexivity|]); (split; [reflexivity|]); split; lia].
    destruct (batch_loop_run c (train_loader c) loc s)
      as (o1 & s1 & evs1 & Hrun1 & He1 & _ & Hl1 & (Hc1 & _) & Hle1 & Ho1 & _
          & Hret1).
    rewrite Hrun1.
    assert (Hpart : exists r,
              (r <= length (train_loader c))%nat
              /\ Z.of_nat (count is_record evs1)
                 = (epoch s1 - epoch s) * Z.of_nat (length (train_loader c))
                   + Z.of_nat r).
    { exists (count is_record evs1). split; [lia|]. rewrite He1. lia. }
    destruct o1 as [[loc1 [|]]|e|]; [| | |congruence].
    + destruct Hpart as (r & Hr & Hn). exists (Ret tt), s1, evs1, r. auto.
    + destruct (Hret1 loc1 false eq_refl) as (_ & _ & Hfull).
      destruct (Hfull eq_refl) as [Hfull' _].
      destruct (end_of_epoch_run c s1)
        as (o2 & s2 & evs2 & Hrun2 & Hi2 & He2 & Hl2 & _ & Hc2 & _ & Ho2).
      rewrite Hrun2.
      destruct o2 as [[]|e|]; [| |congruence].
      * destruct (IH loc1 s2) as (o3 & s3 & evs3 & r & Hrun3 & Hl3 & Hr & Hn).
        exists o3, s3, ((evs1 ++ evs2) ++ evs3)%list, r.
        split; [exact Hrun3|].
        split; [rewrite Hl3, Hl2, Hl1, <- !app_assoc; reflexivity|].
        split; [exact Hr|].
        rewrite !count_app, Hc2, !Nat2Z.inj_add, Hn, Hc1, Hfull'. lia.
      * exists (Raise e), s2, (evs1 ++ evs2)%list, O.
        split; [reflexivity|].
        split; [rewrite Hl2, Hl1, <- app_assoc; reflexivity|].
        split; [lia|].
        rewrite count_app, Hc2, Hc1, Hfull'. lia.
    + destruct Hpart as (r & Hr & Hn). exists (Raise e), s1, evs1, r. auto.
Qed.

(** C5. The rows that [train] adds to the metric log are as many as the
    batches it went through: every batch body logs exactly one row; a pass
    over a list of batches logs one row per batch up to the [break], all of
    them when it does not break; and a whole run logs
    [len(train loader)] rows per completed pass plus the batches of the
    pass it ended in, which is also the number of optimizer updates and
    the advance of the iteration counter. Every row has the seven columns
    [iter, epoch, loss, val_loss, lr, ttrain, twait] with one value each;
    and every row logged before the first validation carries
    [val_loss = nan]. *)
Theorem C5_metric_rows (fuel : nat) (c : setup) (s : state) :
  (exists evs r,
     log (train fuel c s).2 = (log s ++ evs)%list
     /\ (r <= length (train_loader c))%nat
     /\ Z.of_nat (count is_record evs)
        = (epoch (train fuel c s).2 - epoch s)
          * Z.of_nat (length (train_loader c)) + Z.of_nat r
     /\ count is_record evs = count is_opt_step evs
     /\ Z.of_nat (count is_record evs) = iteration (train fuel c s).2 - iteration s
     /\ Forall row_ok evs
     /\ nan_until_validation evs)
  /\ (forall batches loc s0,
        exists evs,
          log (batch_loop c batches loc s0).2 = (log s0 ++ evs)%list
          /\ (count is_record evs <= length batches)%nat
          /\ Forall row_ok evs
          /\ (forall loc' stop,
                (batch_loop c batches loc s0).1 = Ret (loc', stop) ->
                (stop = false -> count is_record evs = length batches)
                /\ (stop = true ->
                    iteration_max c
                    <= iteration s0 + Z.of_nat (count is_record evs))))
  /\ (forall b loc s0,
        exists vals tail,
          log (batch_body c b loc s0).2
          = (log s0 ++ OptStep :: Metric columns vals :: tail)%list
          /\ length vals = 7%nat
          /\ vals !! 3%nat = Some (CValLoss (cur_val_loss loc))
          /\ count is_record tail = O).
Proof.
  split; [|split].
  - destruct (train_run fuel c s)
      as (o & s' & evs & Hrun & Hl & Hit & (Hc & Hrows & Hnan) & _).
    assert (Hloader : exists r,
              (r <= length (train_loader c))%nat
              /\ Z.of_nat (count is_record evs)
                 = (epoch s' - epoch s) * Z.of_nat (length (train_loader c))
                   + Z.of_nat r).
    { revert Hrun Hl. unfold train. unfold_M.
      destruct (epoch_loop_rows fuel c
                  {| twait := now (clock s); cur_val_loss := NaN |} (tick s))
        as (o1 & s1 & evs1 & r & Hrun1 & Hl1 & Hr & Hn).
      rewrite Hrun1. simpl in Hl1, Hn.
      destruct o1 as [[]|e|]; intros Hrun Hl; inversion Hrun; subst o s';
        simpl in Hl; exists r; (split; [exact Hr|]).
      + rewrite Hl1, <- !app_assoc in Hl. apply app_inv_head in Hl.
        subst evs. simpl. rewrite count_app. simpl. lia.
      + rewrite Hl1 in Hl. apply app_inv_head in Hl. subst evs. exact Hn.
      + rewrite Hl1 in Hl. apply app_inv_head in Hl. subst evs. exact Hn. }
    destruct Hloader as (r & Hr & Hn).
    rewrite Hrun. simpl. exists evs, r.
    split; [assumption|]. split; [assumption|]. split; [assumption|].
    split; [assumption|]. split; [lia|].
    split; [assumption|]. apply Hnan. reflexivity.
  - intros batches loc s0.
    destruct (batch_loop_run c batches loc s0)
      as (o1 & s1 & evs1 & Hrun1 & _ & Hi1 & Hl1 & (Hc1 & Hrows1 & _) & Hle1
          & _ & _ & Hret1).
    rewrite Hrun1. simpl. exists evs1.
    split; [exact Hl1|]. split; [lia|]. split; [exact Hrows1|].
    intros loc' stop Heq.
    destruct (Hret1 loc' stop Heq) as (_ & Hstop & Hfull). split.
    + intros Hs. destruct (Hfull Hs) as [Hn _]. lia.
    + intros Hs. specialize (Hstop Hs). lia.
  - intros b loc s0.
    destruct (batch_body_run c b loc s0)
      as (o1 & s1 & vals & tail & Hb & _ & _ & Hl & Hlen & Hv3 & _ & Hrec & _).
    rewrite Hb. simpl. exists vals, tail. auto.
Qed.

(** ** [validate] *)

(** C6 (amended). In every state, [validate] leaves the whole trainer
    state (iteration, epoch, optimizer, parameters, log) as it was; and
    when the validation loader yields at least one batch it returns the sum
    of the per-batch losses divided by the number of batches. *)
Theorem C6_validate_mean_and_frame (c : setup) (s : state) :
  (validate c s).2 = s
  /\ (val_loader c <> [] ->
      (validate c s).1 = Ret (mean_val_loss c (params s))).
Proof.
  rewrite validate_run.
  destruct (val_loader c) as [|b bs]; simpl.
  - split; [reflexivity | intros H; contradiction].
  - split; reflexivity.
Qed.

(** With no validation batch the division is [0 / 0]. *)
Lemma validate_empty (c : setup) (s : state) :
  val_loader c = [] -> validate c s = (Raise ZeroDivisionError, s).
Proof. intros Hv. rewrite validate_run, Hv. reflexivity. Qed.

(** ** The two [save] call sites *)

(** What [save] does once the file name can be formed. *)
Lemma save_writes (c : setup) (cnt : option Q) (s : state) (f : string) :
  (cnt = None -> train_dataset c <> []) ->
  ckpt_path (logdir c) (iteration s) (epoch s) = Ok f ->
  save c cnt s
  = (Ret tt,
     add_event
       (SaveState f
          (default (Qmake (iteration s)
                          (Pos.of_nat (length (train_dataset c)))) cnt)) s).
Proof.
  intros Hne Hp. unfold save, epoch_count. unfold_M.
  destruct cnt as [q|]; simpl.
  - rewrite Hp. reflexivity.
  - destruct (train_dataset c) as [|x l]; [exfalso; apply Hne; reflexivity|].
    simpl. rewrite Hp. reflexivity.
Qed.

(** ... and when it cannot. *)
Lemma save_fails (c : setup) (cnt : option Q) (s : state) (e : exn) :
  (cnt = None -> train_dataset c <> []) ->
  ckpt_path (logdir c) (iteration s) (epoch s) = Err e ->
  save c cnt s = (Raise e, s).
Proof.
  intros Hne Hp. unfold save, epoch_count. unfold_M.
  destruct cnt as [q|]; simpl.
  - rewrite Hp. reflexivity.
  - destruct (train_dataset c) as [|x l]; [exfalso; apply Hne; reflexivity|].
    simpl. rewrite Hp. reflexivity.
Qed.

Lemma save_empty_dataset (c : setup) (s : state) :
  train_dataset c = [] -> save c None s = (Raise ZeroDivisionError, s).
Proof.
  intros Hd. unfold save, epoch_count. unfold_M. rewrite Hd. reflexivity.
Qed.

(** The test of line 210, on the epoch just begun. *)
Definition epoch_save_due (c : setup) (s : state) : bool :=
  (0 <? save_every_epochs c * (epoch s + 1))
  && ((epoch s + 1) mod save_every_epochs c =? 0).

(** C10. In every state in which the end of an epoch saves, what
    [end_of_epoch] does, passing [count = iteration / len(train dataset)]
    explicitly, is what [save()] with the count left out does on the state
    with the epoch counter advanced: same outcome, same file name, same
    count. The per-iteration site, when it saves, is [save()] itself. So
    when both sites save from the same iteration, with a training subset
    that is not empty, the two checkpoints carry the same count, the
    rational [iteration / len(train dataset)]. *)
Theorem C10_epoch_save_count_is_default (c : setup) (s : state) :
  (epoch_save_due c s = true ->
   end_of_epoch c s = save c None (set_epoch (epoch s + 1) s))
  /\ (save_due c s = true -> maybe_save c s = save c None s)
  /\ (forall f_epoch f_iter,
        epoch_save_due c s = true -> save_due c s = true ->
        train_dataset c <> [] ->
        ckpt_path (logdir c) (iteration s) (epoch s + 1) = Ok f_epoch ->
        ckpt_path (logdir c) (iteration s) (epoch s) = Ok f_iter ->
        let q := Qmake (iteration s) (Pos.of_nat (length (train_dataset c))) in
        end_of_epoch c s
        = (Ret tt, add_event (SaveState f_epoch q) (set_epoch (epoch s + 1) s))
        /\ maybe_save c s = (Ret tt, add_event (SaveState f_iter q) s)).
Proof.
  assert (He : epoch_save_due c s = true ->
               end_of_epoch c s = save c None (set_epoch (epoch s + 1) s)).
  { unfold epoch_save_due, end_of_epoch. intros Hdue. unfold_M. simpl.
    rewrite Hdue. unfold save, epoch_count. unfold_M.
    destruct (length (train_dataset c)); reflexivity. }
  assert (Hi : save_due c s = true -> maybe_save c s = save c None s).
  { unfold save_due, maybe_save. intros Hdue. unfold_M. rewrite Hdue.
    reflexivity. }
  split; [exact He|]. split; [exact Hi|].
  intros f_epoch f_iter Hde Hdi Hne Hpe Hpi q.
  rewrite (He Hde), (Hi Hdi).
  split.
  - rewrite (save_writes c None (set_epoch (epoch s + 1) s) f_epoch);
      [reflexivity | intros _; exact Hne | exact Hpe].
  - rewrite (save_writes c None s f_iter);
      [reflexivity | intros _; exact Hne | exact Hpi].
Qed.

(** ** The end-to-end scenario *)

(** A batch with a validation loader that is not empty and per-iteration
    saving switched off: the body cannot fail, and validates exactly when
    the new iteration is a multiple of [validate_every_iterations]. *)
Lemma batch_body_no_save (c : setup) (b : batch) (loc : locals) (s : state) :
  val_loader c <> [] -> save_every_iterations c <= 0 ->
  exists loc' s' evs,
    batch_body c b loc s = (Ret (loc', iteration_max c <=? iteration s + 1), s')
    /\ iteration s' = iteration s + 1 /\ epoch s' = epoch s
    /\ log s' = (log s ++ evs)%list
    /\ count is_opt_step evs = 1%nat
    /\ count is_save evs = O
    /\ count is_validation evs
       = if (0 <? validate_every_iterations c)
            && ((iteration s + 1) mod validate_every_iterations c =? 0)
         then 1%nat else O.
Proof.
  intros Hval Hse.
  assert (Hns : (0 <? save_every_iterations c) = false) by (apply Z.ltb_ge; lia).
  unfold batch_body, maybe_validate, maybe_save. unfold_M. unfold step. unfold_M.
  simpl. rewrite Hns. simpl.
  destruct ((0 <? validate_every_iterations c)
            && ((iteration s + 1) mod validate_every_iterations c =? 0)).
  - rewrite validate_run. destruct (val_loader c) as [|vb vl]; [contradiction|].
    simpl. destruct (scheduler s) as [sc|]; simpl.
    + eexists _, _, _. split; [reflexivity|]. simpl.
      split; [reflexivity|]. split; [reflexivity|].
      split; [rewrite <- !app_assoc; reflexivity|].
      simpl. auto.
    + eexists _, _, _. split; [reflexivity|]. simpl.
      split; [reflexivity|]. split; [reflexivity|].
      split; [rewrite <- !app_assoc; reflexivity|].
      simpl. auto.
  - eexists _, _, _. split; [reflexivity|]. simpl.
    split; [reflexivity|]. split; [reflexivity|].
    split; [rewrite <- !app_assoc; reflexivity|].
    simpl. auto.
Qed.

(** A pass that reaches the iteration limit: it breaks right there,
    having validated once per multiple of [validate_every_iterations]
    crossed. *)
Lemma batch_loop_until_limit (c : setup) (batches : list batch)
    (loc : locals) (s : state) :
  val_loader c <> [] -> save_every_iterations c <= 0 ->
  0 < validate_every_iterations c ->
  iteration s < iteration_max c ->
  iteration_max c - iteration s <= Z.of_nat (length batches) ->
  exists loc' s' evs,
    batch_loop c batches loc s = (Ret (loc', true), s')
    /\ iteration s' = iteration_max c /\ epoch s' = epoch s
    /\ log s' = (log s ++ evs)%list
    /\ Z.of_nat (count is_opt_step evs) = iteration_max c - iteration s
    /\ count is_save evs = O
    /\ Z.of_nat (count is_validation evs)
       = iteration_max c / validate_every_iterations c
         - iteration s / validate_every_iterations c.
Proof.
  intros Hval Hse Hve. revert loc s.
  induction batches as [|b bs IH]; intros loc s Hlt Hlen; simpl in Hlen; [lia|].
  simpl. unfold_M.
  destruct (batch_body_no_save c b loc s Hval Hse)
    as (loc1 & s1 & evs1 & Hb & Hi1 & He1 & Hl1 & Ho1 & Hs1 & Hv1).
  rewrite Hb.
  assert (Hv1' : Z.of_nat (count is_validation evs1)
                 = (iteration s + 1) / validate_every_iterations c
                   - iteration s / validate_every_iterations c).
  { rewrite Hv1, multiples_step by assumption.
    assert (H0 : (0 <? validate_every_iterations c) = true) by (apply Z.ltb_lt; lia).
    rewrite H0. simpl.
    destruct ((iteration s + 1) mod validate_every_iterations c =? 0); reflexivity. }
  destruct (iteration_max c <=? iteration s + 1) eqn:Hbrk.
  - apply Z.leb_le in Hbrk.
    assert (Heq : iteration s + 1 = iteration_max c) by lia.
    exists loc1, s1, evs1. split; [reflexivity|].
    split; [lia|]. split; [assumption|]. split; [assumption|].
    split; [lia|]. split; [assumption|]. rewrite Hv1', Heq. reflexivity.
  - apply Z.leb_gt in Hbrk.
    destruct (IH loc1 s1) as (loc2 & s2 & evs2 & Hrun & Hi2 & He2 & Hl2 & Ho2 & Hs2 & Hv2);
      [lia | lia |].
    exists loc2, s2, (evs1 ++ evs2)%list. split; [exact Hrun|].
    split; [assumption|]. split; [congruence|].
    split; [rewrite Hl2, Hl1, <- app_assoc; reflexivity|].
    rewrite !count_app, Hs1, Hs2.
    split; [lia|]. split; [reflexivity|].
    rewrite Nat2Z.inj_add, Hv1', Hv2, Hi1. lia.
Qed.

(** C3 (amended). With [validate_every_iterations = 10],
    [max_iterations = 10], [save_every_iterations = -1], a training loader
    of at least 10 batches, a validation loader that is not empty and
    counters at [(0, 0)], [train] halts normally after the 10th batch of
    the first epoch: 10 updates, exactly one validation, no checkpoint, and
    the epoch counter still [0]. *)
Theorem C3_scenario (fuel : nat) (c : setup) (s : state) :
  iteration s = 0 -> epoch s = 0 ->
  (10 <= length (train_loader c))%nat -> val_loader c <> [] ->
  validate_every_iterations c = 10 -> iteration_max c = 10 ->
  save_every_iterations c = -1 -> 0 < epoch_max c ->
  exists evs,
    log (train (S fuel) c s).2 = (log s ++ evs)%list
    /\ (train (S fuel) c s).1 = Ret tt
    /\ iteration (train (S fuel) c s).2 = 10
    /\ epoch (train (S fuel) c s).2 = 0
    /\ count is_opt_step evs = 10%nat
    /\ count is_validation evs = 1%nat
    /\ count is_save evs = O.
Proof.
  intros Hi He Hlen Hval Hve Him Hse Hem.
  unfold train. unfold_M. simpl. unfold_M. simpl.
  rewrite Hi, He, Him.
  assert (Hgo : (0 <? 10) && (0 <? epoch_max c) = true).
  { apply andb_true_iff. split; apply Z.ltb_lt; lia. }
  rewrite Hgo.
  destruct (batch_loop_until_limit c (train_loader c)
              {| twait := now (clock s); cur_val_loss := NaN |} (tick s))
    as (loc' & s' & evs & Hrun & Hi' & He' & Hl' & Ho' & Hs' & Hv');
    simpl; try assumption; try lia.
  rewrite Hrun. simpl in Hi', He', Hl', Ho', Hv'.
  rewrite Him in Hi'. rewrite Him, Hi in Ho'. rewrite Hve, Him, Hi in Hv'.
  exists (evs ++ [LogWrite; LogClose])%list. simpl.
  split; [rewrite Hl', <- !app_assoc; reflexivity|].
  split; [reflexivity|]. split; [assumption|]. split; [lia|].
  rewrite !count_app, Hs'. simpl.
  change (10 / 10 - 0 / 10) with 1 in Hv'.
  repeat split; lia.
Qed.

(** ** Construction *)

(** The counters of a constructed trainer are the ones the resume step
    read. *)
Lemma init_counters (cfg : config) (n : nat) (rng : Gen) (dir : string)
    (t : trainer) :
  init cfg n rng dir = Ok t ->
  resume_counters cfg
  = Ok (iteration (self_state t), epoch (self_state t)).
Proof.
  unfold init. unfold mbind, result_bind, rbind.
  destruct (namespace "train" (cfg_train cfg)) as [tc|]; [|discriminate].
  destruct (random_split _ _ _) as [[parts g']|]; [|discriminate].
  destruct parts as [|tr [|va [|x parts]]]; try discriminate.
  destruct (data_loader (cfg_loader cfg) tr); [|discriminate].
  destruct (data_loader (cfg_loader cfg) va); [|discriminate].
  destruct (resume_counters cfg) as [[it ep]|]; [|discriminate].
  destruct (configure_scheduler tc _); [|discriminate].
  intros H. inversion H; subst. reflexivity.
Qed.

(** A failure of the scheduler step is a failure of the construction. *)
Lemma init_scheduler_error (cfg : config) (tc : train_cfg) (n : nat)
    (rng : Gen) (dir : string) (e : exn) :
  cfg_train cfg = Some tc ->
  configure_scheduler tc (optimizer_factory (model_init rng)) = Err e ->
  exists e', init cfg n rng dir = Err e'.
Proof.
  intros Htc Hs. unfold init. unfold mbind, result_bind, rbind.
  rewrite Htc. simpl.
  destruct (random_split _ _ _) as [[parts g']|]; [|eauto].
  destruct parts as [|tr [|va [|x parts]]]; eauto.
  destruct (data_loader (cfg_loader cfg) tr); [|eauto].
  destruct (data_loader (cfg_loader cfg) va); [|eauto].
  destruct (resume_counters cfg) as [[it ep]|]; [|eauto].
  rewrite Hs. eauto.
Qed.

Lemma init_scheduler (cfg : config) (tc : train_cfg) (n : nat) (rng : Gen)
    (dir : string) (t : trainer) :
  cfg_train cfg = Some tc ->
  init cfg n rng dir = Ok t ->
  configure_scheduler tc (optimizer_factory (model_init rng))
  = Ok (scheduler (self_state t)).
Proof.
  intros Htc. unfold init. unfold mbind, result_bind, rbind.
  rewrite Htc. simpl.
  destruct (random_split _ _ _) as [[parts g']|]; [|discriminate].
  destruct parts as [|tr [|va [|x parts]]]; try discriminate.
  destruct (data_loader (cfg_loader cfg) tr); [|discriminate].
  destruct (data_loader (cfg_loader cfg) va); [|discriminate].
  destruct (resume_counters cfg) as [[it ep]|]; [|discriminate].
  destruct (configure_scheduler tc _); [|discriminate].
  intros H. inversion H; subst. reflexivity.
Qed.

(** The construction step by step: once the split, the loaders and the
    resume step have succeeded, the outcome is that of the scheduler
    lookup. *)
Lemma init_after_resume (cfg : config) (tc : train_cfg) (n : nat) (rng : Gen)
    (dir : string) (tr va : list nat) (g' : Gen) (tl vl : list batch)
    (it ep : Z) :
  cfg_train cfg = Some tc ->
  random_split n
    [(1 - default (1 # 10)%Q (validation_split tc))%Q;
     default (1 # 10)%Q (validation_split tc)]
    (manual_seed (default 0 (seed tc))) = Ok ([tr; va], g') ->
  data_loader (cfg_loader cfg) tr = Ok tl ->
  data_loader (cfg_loader cfg) va = Ok vl ->
  resume_counters cfg = Ok (it, ep) ->
  (forall e,
     configure_scheduler tc (optimizer_factory (model_init rng)) = Err e ->
     init cfg n rng dir = Err e)
  /\ (forall sc,
        configure_scheduler tc (optimizer_factory (model_init rng)) = Ok sc ->
        exists t, init cfg n rng dir = Ok t /\ scheduler (self_state t) = sc).
Proof.
  intros Htc Hsplit Htl Hvl Hr.
  unfold init. unfold mbind, result_bind, rbind.
  rewrite Htc. simpl. rewrite Hsplit, Htl, Hvl, Hr.
  split; [intros e -> | intros sc ->]; [reflexivity|].
  eexists. split; reflexivity.
Qed.

(** The mapping that lines 71-73 read: [train.lr_scheduler] when it is
    a mapping, an empty one when the key is absent. *)
Definition lrs_mapping (tc : train_cfg) : option (gmap string pyval) :=
  match lr_scheduler tc with
  | None => Some ∅
  | Some (LrsMapping m) => Some m
  | Some (LrsScalar _) => None
  end.

(** The message of line 75. *)
Definition not_available (shown : pyval) : exn :=
  RuntimeError ("Learning rate scheduler not available: " +:+ py_str shown).

(** C7 (amended). Let [train.lr_scheduler] be a mapping, or absent. When
    its [name] is a non-empty string that names no attribute of
    [torch.optim.lr_scheduler], and the mapping has the key [Name] that
    the error message reads, the scheduler lookup raises the
    [RuntimeError] "Learning rate scheduler not available", no trainer is
    constructed, and that error is the failure of the construction whenever
    the steps before it (split, loaders, resume) succeed. When [name] is
    absent, or present but empty or null, no scheduler is configured: the
    lookup raises nothing, every constructed trainer has
    [scheduler = None], and the construction completes whenever the steps
    before it succeed. *)
Theorem C7_scheduler_lookup (cfg : config) (tc : train_cfg)
    (lrs : gmap string pyval) (o : Optm) :
  cfg_train cfg = Some tc ->
  lrs_mapping tc = Some lrs ->
  (forall nm shown,
     lrs !! "name" = Some (PStr nm) -> nm <> ""%string ->
     has_scheduler nm = false ->
     lrs !! "Name" = Some shown ->
     configure_scheduler tc o = Err (not_available shown)
     /\ (forall n rng dir t, init cfg n rng dir <> Ok t)
     /\ (forall n rng dir tr va g' tl vl it ep,
           random_split n
             [(1 - default (1 # 10)%Q (validation_split tc))%Q;
              default (1 # 10)%Q (validation_split tc)]
             (manual_seed (default 0 (seed tc))) = Ok ([tr; va], g') ->
           data_loader (cfg_loader cfg) tr = Ok tl ->
           data_loader (cfg_loader cfg) va = Ok vl ->
           resume_counters cfg = Ok (it, ep) ->
           init cfg n rng dir = Err (not_available shown)))
  /\ (truthy (dict_get lrs "name") = false ->
      configure_scheduler tc o = Ok None
      /\ (forall n rng dir t,
            init cfg n rng dir = Ok t -> scheduler (self_state t) = None)
      /\ (forall n rng dir tr va g' tl vl it ep,
            random_split n
              [(1 - default (1 # 10)%Q (validation_split tc))%Q;
               default (1 # 10)%Q (validation_split tc)]
              (manual_seed (default 0 (seed tc))) = Ok ([tr; va], g') ->
            data_loader (cfg_loader cfg) tr = Ok tl ->
            data_loader (cfg_loader cfg) va = Ok vl ->
            resume_counters cfg = Ok (it, ep) ->
            exists t, init cfg n rng dir = Ok t
                      /\ scheduler (self_state t) = None)).
Proof.
  intros Htc Hmap.
  assert (Hlrs : default (LrsMapping ∅) (lr_scheduler tc) = LrsMapping lrs).
  { unfold lrs_mapping in Hmap.
    destruct (lr_scheduler tc) as [[m|v]|]; simpl; congruence. }
  split.
  - intros nm shown Hname Hne Hrec Hshown.
    assert (Hfail : forall o', configure_scheduler tc o' = Err (not_available shown)).
    { intros o'. unfold configure_scheduler, dict_get, dict_item.
      rewrite Hlrs, Hname. simpl.
      destruct (String.eqb nm "") eqn:E;
        [apply String.eqb_eq in E; contradiction|].
      simpl. unfold mbind, result_bind, rbind. rewrite Hrec, Hshown.
      reflexivity. }
    split; [apply Hfail|]. split.
    + intros n rng dir t Hinit.
      pose proof (init_scheduler cfg tc n rng dir t Htc Hinit) as Hs.
      rewrite Hfail in Hs. discriminate Hs.
    + intros n rng dir tr va g' tl vl it ep Hsplit Htl Hvl Hr.
      apply (init_after_resume cfg tc n rng dir tr va g' tl vl it ep
               Htc Hsplit Htl Hvl Hr).
      apply Hfail.
  - intros Hf.
    assert (Hnone : forall o', configure_scheduler tc o' = Ok None).
    { intros o'. unfold configure_scheduler. rewrite Hlrs, Hf. reflexivity. }
    split; [apply Hnone|]. split.
    + intros n rng dir t Hinit.
      pose proof (init_scheduler cfg tc n rng dir t Htc Hinit) as Hs.
      rewrite Hnone in Hs. inversion Hs. reflexivity.
    + intros n rng dir tr va g' tl vl it ep Hsplit Htl Hvl Hr.
      apply (init_after_resume cfg tc n rng dir tr va g' tl vl it ep
               Htc Hsplit Htl Hvl Hr).
      apply Hnone.
Qed.

(** Whether the scheduler step fails, and how, does not depend on the
    optimizer it is given. *)
Lemma configure_scheduler_error (tc : train_cfg) (o1 o2 : Optm) :
  match configure_scheduler tc o1, configure_scheduler tc o2 with
  | Ok _, Ok _ => True
  | Err e1, Err e2 => e1 = e2
  | _, _ => False
  end.
Proof.
  unfold configure_scheduler. unfold mbind, result_bind, rbind.
  destruct (default (LrsMapping ∅) (lr_scheduler tc)) as [lrs|v];
    [|reflexivity].
  destruct (truthy _); [|exact I].
  destruct (dict_item _ "name") as [[| | |nm]|]; try reflexivity.
  destruct (has_scheduler nm); [exact I|].
  destruct (dict_item _ "Name"); reflexivity.
Qed.

(** C9. The train/validation split made by the constructor depends on
    the configuration and the dataset only: two constructions with the same
    configuration and dataset size, whatever the state of torch's global
    generator and the logger directory, either both fail, with the same
    error, or both succeed with the same index subsets and the same
    batches. *)
Theorem C9_split_deterministic (cfg : config) (n : nat) (rng1 rng2 : Gen)
    (dir1 dir2 : string) :
  match init cfg n rng1 dir1, init cfg n rng2 dir2 with
  | Ok t1, Ok t2 =>
    train_dataset (self_setup t1) = train_dataset (self_setup t2)
    /\ val_dataset (self_setup t1) = val_dataset (self_setup t2)
    /\ train_loader (self_setup t1) = train_loader (self_setup t2)
    /\ val_loader (self_setup t1) = val_loader (self_setup t2)
  | Err e1, Err e2 => e1 = e2
  | _, _ => False
  end.
Proof.
  unfold init. unfold mbind, result_bind, rbind.
  destruct (cfg_train cfg) as [tc|]; simpl; [|reflexivity].
  destruct (random_split _ _ _) as [[parts g']|]; [|reflexivity].
  destruct parts as [|tr [|va [|x parts]]]; try reflexivity.
  destruct (data_loader (cfg_loader cfg) tr); [|reflexivity].
  destruct (data_loader (cfg_loader cfg) va); [|reflexivity].
  destruct (resume_counters cfg) as [[it ep]|]; [|reflexivity].
  pose proof (configure_scheduler_error tc
                (optimizer_factory (model_init rng1))
                (optimizer_factory (model_init rng2))) as Hs.
  destruct (configure_scheduler tc (optimizer_factory (model_init rng1)));
    destruct (configure_scheduler tc (optimizer_factory (model_init rng2)));
    simpl; auto.
Qed.

(** The construction up to the resume step: once the split and the
    loaders have succeeded, an error of the resume step is the failure of
    the construction. *)
Lemma init_resume_error (cfg : config) (tc : train_cfg) (n : nat) (rng : Gen)
    (dir : string) (e : exn) :
  cfg_train cfg = Some tc ->
  resume_counters cfg = Err e ->
  (forall t, init cfg n rng dir <> Ok t)
  /\ (forall tr va g' tl vl,
        random_split n
          [(1 - default (1 # 10)%Q (validation_split tc))%Q;
           default (1 # 10)%Q (validation_split tc)]
          (manual_seed (default 0 (seed tc))) = Ok ([tr; va], g') ->
        data_loader (cfg_loader cfg) tr = Ok tl ->
        data_loader (cfg_loader cfg) va = Ok vl ->
        init cfg n rng dir = Err e).
Proof.
  intros Htc Hr. split.
  - intros t Hinit. apply init_counters in Hinit. congruence.
  - intros tr va g' tl vl Hsplit Htl Hvl.
    unfold init. unfold mbind, result_bind, rbind.
    rewrite Htc. simpl. rewrite Hsplit, Htl, Hvl, Hr. reflexivity.
Qed.

(** C8 (amended). When [train.resume] is absent or falsy, or when
    [cfg['model']] has a [ckpt_file] key whose value is falsy (null or
    empty), the resume step leaves the counters at [(0, 0)]: every trainer
    that is constructed starts at iteration 0, epoch 0, and the construction
    completes whenever the split, the loaders and the scheduler step do.
    When [train.resume] is truthy and no checkpoint is given because
    [cfg['model']] or its [ckpt_file] key is missing, the resume step
    raises the [KeyError] of the missing key: no trainer is constructed,
    and that [KeyError] is the failure of the construction whenever the
    split and the loaders succeed. *)
Theorem C8_fresh_counters (cfg : config) (tc : train_cfg) :
  cfg_train cfg = Some tc ->
  (truthy (default PNone (resume tc)) = false
   \/ (exists m v, cfg_model cfg = Some m /\ m !! "ckpt_file" = Some v
                   /\ truthy v = false) ->
   resume_counters cfg = Ok (0, 0)
   /\ (forall n rng dir t,
         init cfg n rng dir = Ok t ->
         iteration (self_state t) = 0 /\ epoch (self_state t) = 0)
   /\ (forall n rng dir tr va g' tl vl sc,
         random_split n
           [(1 - default (1 # 10)%Q (validation_split tc))%Q;
            default (1 # 10)%Q (validation_split tc)]
           (manual_seed (default 0 (seed tc))) = Ok ([tr; va], g') ->
         data_loader (cfg_loader cfg) tr = Ok tl ->
         data_loader (cfg_loader cfg) va = Ok vl ->
         configure_scheduler tc (optimizer_factory (model_init rng)) = Ok sc ->
         exists t, init cfg n rng dir = Ok t
                   /\ iteration (self_state t) = 0
                   /\ epoch (self_state t) = 0))
  /\ (forall k,
        truthy (default PNone (resume tc)) = true ->
        (k = "model"%string /\ cfg_model cfg = None)
        \/ (k = "ckpt_file"%string
            /\ exists m, cfg_model cfg = Some m /\ m !! "ckpt_file" = None) ->
        resume_counters cfg = Err (KeyError k)
        /\ (forall n rng dir t, init cfg n rng dir <> Ok t)
        /\ (forall n rng dir tr va g' tl vl,
              random_split n
                [(1 - default (1 # 10)%Q (validation_split tc))%Q;
                 default (1 # 10)%Q (validation_split tc)]
                (manual_seed (default 0 (seed tc))) = Ok ([tr; va], g') ->
              data_loader (cfg_loader cfg) tr = Ok tl ->
              data_loader (cfg_loader cfg) va = Ok vl ->
              init cfg n rng dir = Err (KeyError k))).
Proof.
  intros Htc. split.
  - intros Hcase.
    assert (Hr : resume_counters cfg = Ok (0, 0)).
    { unfold resume_counters. rewrite Htc. simpl.
      unfold mbind, result_bind, rbind.
      destruct (truthy (default PNone (resume tc))) eqn:Hres; [|reflexivity].
      destruct Hcase as [Hf | (m & v & Hm & Hv & Hf)]; [discriminate|].
      rewrite Hm. simpl. unfold dict_item. rewrite Hv, Hf. reflexivity. }
    split; [exact Hr|]. split.
    + intros n rng dir t Hinit. apply init_counters in Hinit.
      rewrite Hr in Hinit. inversion Hinit. auto.
    + intros n rng dir tr va g' tl vl sc Hsplit Htl Hvl Hsc.
      unfold init. unfold mbind, result_bind, rbind.
      rewrite Htc. simpl. rewrite Hsplit, Htl, Hvl, Hr, Hsc.
      eexists. split; [reflexivity|]. split; reflexivity.
  - intros k Hres Hcase.
    assert (Hr : resume_counters cfg = Err (KeyError k)).
    { unfold resume_counters. rewrite Htc. simpl.
      unfold mbind, result_bind, rbind. rewrite Hres.
      destruct Hcase as [[-> Hm] | (-> & m & Hm & Hk)]; rewrite Hm; simpl;
        [reflexivity|].
      unfold dict_item. rewrite Hk. reflexivity. }
    split; [exact Hr|].
    split; intros n rng dir;
      apply (init_resume_error cfg tc n rng dir (KeyError k) Htc Hr).
Qed.

(** ** Replaying the log of a run *)

Definition is_log_end (ev : event) : bool :=
  match ev with LogWrite | LogClose => true | _ => false end.

(** [every > 0 and i % every == 0] *)
Definition due (every i : Z) : bool := (0 <? every) && (i mod every =? 0).

(** The log replayed from iteration [i], one step per optimizer update:
    every metric row has the current iteration in its [iter] column and
    every snapshot is keyed by it. *)
Fixpoint row_iters (i : Z) (evs : list event) : Prop :=
  match evs with
  | [] => True
  | OptStep :: rest => row_iters (i + 1) rest
  | Metric _ vals :: rest => vals !! 0%nat = Some (CInt i) /\ row_iters i rest
  | Snapshot it _ _ :: rest => it = i /\ row_iters i rest
  | _ :: rest => row_iters i rest
  end.

(** Every checkpoint in the log is named after the current iteration and
    an epoch [e], carries [count = iteration / len(train dataset)], and was
    written either by the per-iteration test (the iteration is a multiple
    of [save_every_iterations]) or by the per-epoch test after the epoch
    counter moved to [e]. *)
Fixpoint saves_explained (c : setup) (lo i : Z) (evs : list event) : Prop :=
  match evs with
  | [] => True
  | OptStep :: rest => saves_explained c lo (i + 1) rest
  | SaveState f q :: rest =>
    (q = Qmake i (Pos.of_nat (length (train_dataset c)))
     /\ exists e,
          ckpt_path (logdir c) i e = Ok f
          /\ ((lo <= e /\ due (save_every_iterations c) i = true)
              \/ (lo < e /\ 0 < save_every_epochs c * e
                  /\ e mod save_every_epochs c = 0)))
    /\ saves_explained c lo i rest
  | _ :: rest => saves_explained c lo i rest
  end.

(** The [val_loss] column: [v] until a validation returns, then its
    result. *)
Fixpoint val_column (v : val_loss) (evs : list event) : Prop :=
  match evs with
  | [] => True
  | Validation l :: rest => val_column (Validated l) rest
  | Metric _ vals :: rest =>
    vals !! 3%nat = Some (CValLoss v) /\ val_column v rest
  | _ :: rest => val_column v rest
  end.

Fixpoint last_val (v : val_loss) (evs : list event) : val_loss :=
  match evs with
  | [] => v
  | Validation l :: rest => last_val (Validated l) rest
  | _ :: rest => last_val v rest
  end.

Definition traced (c : setup) (lo i : Z) (v : val_loss) (evs : list event) : Prop :=
  row_iters i evs /\ saves_explained c lo i evs /\ val_column v evs
  /\ count is_log_end evs = O
  /\ (validate_every_iterations c <= 0 \/ val_loader c = [] ->
      count is_validation evs = O).

Lemma row_iters_app (i : Z) (a b : list event) :
  row_iters i a -> row_iters (i + Z.of_nat (count is_opt_step a)) b ->
  row_iters i (a ++ b).
Proof.
  revert i. induction a as [|ev a IH]; intros i Ha Hb; simpl in *.
  - rewrite Z.add_0_r in Hb. exact Hb.
  - destruct ev; simpl in *;
      try (apply IH; [exact Ha | exact Hb]);
      try (destruct Ha as [H1 Ha]; split; [exact H1 | apply IH; assumption]).
    apply IH; [exact Ha|].
    replace (i + 1 + Z.of_nat (count is_opt_step a))
      with (i + Z.of_nat (S (count is_opt_step a))) by lia.
    exact Hb.
Qed.

Lemma saves_explained_app (c : setup) (lo i : Z) (a b : list event) :
  saves_explained c lo i a ->
  saves_explained c lo (i + Z.of_nat (count is_opt_step a)) b ->
  saves_explained c lo i (a ++ b).
Proof.
  revert i. induction a as [|ev a IH]; intros i Ha Hb; simpl in *.
  - rewrite Z.add_0_r in Hb. exact Hb.
  - destruct ev; simpl in *;
      try (apply IH; [exact Ha | exact Hb]);
      try (destruct Ha as [H1 Ha]; split; [exact H1 | apply IH; assumption]).
    apply IH; [exact Ha|].
    replace (i + 1 + Z.of_nat (count is_opt_step a))
      with (i + Z.of_nat (S (count is_opt_step a))) by lia.
    exact Hb.
Qed.

Lemma saves_explained_lower (c : setup) (lo lo' i : Z) (evs : list event) :
  lo <= lo' -> saves_explained c lo' i evs -> saves_explained c lo i evs.
Proof.
  intros Hlo. revert i. induction evs as [|ev evs IH]; intros i H; simpl in *;
    [exact I|].
  destruct ev; simpl in *; try (apply IH; exact H).
  destruct H as [(Hq & e & Hp & Hwhy) H]. split; [|apply IH; exact H].
  split; [exact Hq|]. exists e. split; [exact Hp|].
  destruct Hwhy as [[He Hd] | (He & H1 & H2)]; [left | right];
    repeat split; try assumption; lia.
Qed.

Lemma val_column_app (v : val_loss) (a b : list event) :
  val_column v a -> val_column (last_val v a) b -> val_column v (a ++ b).
Proof.
  revert v. induction a as [|ev a IH]; intros v Ha Hb; simpl in *; [exact Hb|].
  destruct ev; simpl in *;
    try (apply IH; [exact Ha | exact Hb]).
  destruct Ha as [H1 Ha]. split; [exact H1 | apply IH; assumption].
Qed.

Lemma last_val_app (v : val_loss) (a b : list event) :
  last_val v (a ++ b) = last_val (last_val v a) b.
Proof.
  revert v. induction a as [|ev a IH]; intros v; simpl; [reflexivity|].
  destruct ev; apply IH.
Qed.

Lemma traced_app (c : setup) (lo lo' i : Z) (v : val_loss) (a b : list event) :
  lo <= lo' ->
  traced c lo i v a ->
  traced c lo' (i + Z.of_nat (count is_opt_step a)) (last_val v a) b ->
  traced c lo i v (a ++ b).
Proof.
  intros Hlo (Ha1 & Ha2 & Ha3 & Ha4 & Ha5) (Hb1 & Hb2 & Hb3 & Hb4 & Hb5).
  unfold traced. rewrite !count_app, Ha4, Hb4.
  split; [apply row_iters_app; assumption|].
  split; [apply saves_explained_app;
          [assumption | eapply saves_explained_lower; eassumption]|].
  split; [apply val_column_app; assumption|].
  split; [reflexivity|].
  intros H. rewrite (Ha5 H), (Hb5 H). reflexivity.
Qed.

Lemma traced_nil (c : setup) (lo i : Z) (v : val_loss) : traced c lo i v [].
Proof. unfold traced. simpl. auto. Qed.

(** *** The pieces of the loop, event by event *)

Lemma maybe_validate_detail (c : setup) (loc : locals) (s : state) :
  (validate_due c s = false
   /\ maybe_validate c loc s = (Ret (cur_val_loss loc), s))
  \/ (validate_due c s = true /\ val_loader c = []
      /\ maybe_validate c loc s = (Raise ZeroDivisionError, s))
  \/ (validate_due c s = true /\ val_loader c <> []
      /\ exists s' evs,
           maybe_validate c loc s
           = (Ret (Validated (mean_val_loss c (params s))), s')
           /\ appended s s' evs /\ params s' = params s
           /\ (evs = [Validation (mean_val_loss c (params s))]
               \/ evs = [Validation (mean_val_loss c (params s));
                         SchedulerStep (mean_val_loss c (params s))])).
Proof.
  unfold maybe_validate, validate_due. unfold_M.
  destruct ((0 <? validate_every_iterations c)
            && (iteration s mod validate_every_iterations c =? 0)).
  - rewrite validate_run. destruct (val_loader c) as [|vb vbs] eqn:Hv.
    + right. left. auto.
    + right. right. split; [reflexivity|]. split; [discriminate|].
      simpl. destruct (scheduler s) as [sc|].
      * eexists _, _. split; [reflexivity|].
        unfold appended, do_scheduler_step. simpl.
        rewrite <- app_assoc. simpl. auto 10.
      * eexists _, _. split; [reflexivity|].
        unfold appended. simpl. auto 10.
  - left. auto.
Qed.

Lemma maybe_save_detail (c : setup) (s : state) :
  (save_due c s = false /\ maybe_save c s = (Ret tt, s))
  \/ (save_due c s = true
      /\ exists e, maybe_save c s = (Raise e, s)
                   /\ (train_dataset c = []
                       \/ ckpt_path (logdir c) (iteration s) (epoch s) = Err e))
  \/ (save_due c s = true
      /\ exists f,
           ckpt_path (logdir c) (iteration s) (epoch s) = Ok f
           /\ train_dataset c <> []
           /\ maybe_save c s
              = (Ret tt,
                 add_event
                   (SaveState f
                      (Qmake (iteration s)
                             (Pos.of_nat (length (train_dataset c))))) s)).
Proof.
  unfold maybe_save, save_due, save, epoch_count. unfold_M.
  destruct ((0 <? save_every_iterations c)
            && (iteration s mod save_every_iterations c =? 0)).
  - right. destruct (train_dataset c) as [|x l] eqn:Hd.
    + left. split; [reflexivity|]. exists ZeroDivisionError. simpl. auto.
    + simpl.
      destruct (ckpt_path (logdir c) (iteration s) (epoch s)) as [f|e] eqn:Hp.
      * right. split; [reflexivity|]. exists f.
        split; [reflexivity|]. split; [discriminate | reflexivity].
      * left. split; [reflexivity|]. exists e. auto.
  - left. auto.
Qed.

Lemma due_positive (every i : Z) : due every i = true -> 0 < every.
Proof.
  unfold due. intros H. apply andb_true_iff in H. destruct H as [H _].
  apply Z.ltb_lt in H. exact H.
Qed.

(** One batch, in full: what is logged, when it validates and saves, and
    when it fails. *)
Lemma batch_body_detail (c : setup) (b : batch) (loc : locals) (s : state) :
  exists o s' evs,
    batch_body c b loc s = (o, s')
    /\ iteration s' = iteration s + 1 /\ epoch s' = epoch s
    /\ log s' = (log s ++ evs)%list
    /\ count is_opt_step evs = 1%nat
    /\ traced c (epoch s) (iteration s) (cur_val_loss loc) evs
    /\ o <> OutOfFuel
    /\ (forall loc' brk, o = Ret (loc', brk) ->
          brk = (iteration_max c <=? iteration s + 1)
          /\ cur_val_loss loc' = last_val (cur_val_loss loc) evs
          /\ count is_validation evs
             = (if due (validate_every_iterations c) (iteration s + 1)
                then 1%nat else O)
          /\ count is_save evs
             = (if due (save_every_iterations c) (iteration s + 1)
                then 1%nat else O))
    /\ ((due (validate_every_iterations c) (iteration s + 1) = true ->
         val_loader c <> []) ->
        (due (save_every_iterations c) (iteration s + 1) = true ->
         train_dataset c <> []
         /\ has_char "%" (dir_prefix (logdir c)) = false) ->
        exists loc', o = Ret (loc', iteration_max c <=? iteration s + 1))
    /\ (due (validate_every_iterations c) (iteration s + 1) = true ->
        val_loader c = [] ->
        o = Raise ZeroDivisionError
        /\ exists vals t p,
             evs = [OptStep; Metric columns vals; Snapshot (iteration s + 1) t p]).
Proof.
  unfold batch_body. unfold_M. unfold step. unfold_M. simpl.
  match goal with
  | |- context [maybe_validate c loc ?s1] => set (s1' := s1)
  end.
  assert (Hi1 : iteration s1' = iteration s + 1) by reflexivity.
  assert (He1 : epoch s1' = epoch s) by reflexivity.
  assert (Hl1 : exists vals t p,
            log s1' = (log s ++ [OptStep; Metric columns vals;
                                 Snapshot (iteration s + 1) t p])%list
            /\ vals !! 0%nat = Some (CInt (iteration s + 1))
            /\ vals !! 3%nat = Some (CValLoss (cur_val_loss loc))).
  { eexists _, _, _.
    split; [subst s1'; simpl; rewrite <- !app_assoc; reflexivity|].
    split; reflexivity. }
  destruct Hl1 as (vals & t & p & Hl1 & Hv0 & Hv3).
  assert (Hvd : validate_due c s1' = due (validate_every_iterations c) (iteration s + 1))
    by reflexivity.
  assert (Hsd1 : save_due c s1' = due (save_every_iterations c) (iteration s + 1))
    by reflexivity.
  clearbody s1'.
  assert (Hnv : due (validate_every_iterations c) (iteration s + 1) = true ->
                validate_every_iterations c <= 0 \/ val_loader c = [] ->
                val_loader c <> [] -> False).
  { intros Hd [Hle | Hnil] Hne; [|contradiction].
    apply due_positive in Hd. lia. }
  destruct (maybe_validate_detail c loc s1')
    as [[Hdue Hrun] | [(Hdue & Hnil & Hrun) | (Hdue & Hne & sv & ev1 & Hrun & (Hvi & Hve & Hvl) & Hvp & Hev1)]];
    rewrite Hrun; rewrite Hvd in Hdue; clear Hrun.
  - (* no validation *)
    pose proof Hsd1 as Hsd.
    destruct (maybe_save_detail c s1')
      as [[Hsdue Hsrun] | [(Hsdue & e & Hsrun & Hwhy) | (Hsdue & f & Hp & Hds & Hsrun)]];
      rewrite Hsrun; rewrite Hsd in Hsdue; clear Hsrun.
    + eexists _, s1', _. split; [reflexivity|].
      split; [exact Hi1|]. split; [exact He1|]. split; [exact Hl1|].
      split; [reflexivity|].
      split; [unfold traced; simpl; rewrite Hv0, Hv3; auto 10|].
      split; [discriminate|]. split.
      { intros loc' brk Heq. inversion Heq; subst. simpl.
        rewrite ?Hi1, Hdue, Hsdue. auto. }
      split; [intros _ _; simpl; rewrite ?Hi1; eexists; reflexivity|].
      intros Hd. rewrite Hd in Hdue. discriminate.
    + eexists _, s1', _. split; [reflexivity|].
      split; [exact Hi1|]. split; [exact He1|]. split; [exact Hl1|].
      split; [reflexivity|].
      split; [unfold traced; simpl; rewrite Hv0, Hv3; auto 10|].
      split; [discriminate|]. split; [discriminate|]. split.
      { intros _ Hs. destruct (Hs Hsdue) as [Hds Hpct].
        destruct Hwhy as [Hnil | Hp]; [contradiction|].
        rewrite (ckpt_path_spec _ _ _ Hpct) in Hp. discriminate. }
      intros Hd. rewrite Hd in Hdue. discriminate.
    + eexists _, _, _. split; [reflexivity|]. simpl.
      split; [exact Hi1|]. split; [exact He1|].
      split; [rewrite Hl1, <- app_assoc; reflexivity|].
      split; [reflexivity|].
      split.
      { unfold traced. simpl. rewrite Hv0, Hv3.
        split; [auto|]. split; [|auto 10]. split; [|exact I].
        split; [rewrite Hi1; reflexivity|].
        exists (epoch s). rewrite Hi1, He1 in Hp. split; [exact Hp|].
        left. split; [lia | exact Hsdue]. }
      split; [discriminate|]. split.
      { intros loc' brk Heq. inversion Heq; subst. simpl.
        rewrite ?Hi1, Hdue, Hsdue. auto. }
      split; [intros _ _; simpl; rewrite ?Hi1; eexists; reflexivity|].
      intros Hd. rewrite Hd in Hdue. discriminate.
  - (* validation raises *)
    eexists _, s1', _. split; [reflexivity|].
    split; [exact Hi1|]. split; [exact He1|]. split; [exact Hl1|].
    split; [reflexivity|].
    split; [unfold traced; simpl; rewrite Hv0, Hv3; auto 10|].
    split; [discriminate|]. split; [discriminate|]. split.
    + intros Hv _. specialize (Hv Hdue). contradiction.
    + intros _ _. split; [reflexivity|]. eauto.
  - (* validation returns *)
    assert (Hsd : save_due c sv = due (save_every_iterations c) (iteration s + 1))
      by (unfold save_due; rewrite Hvi, Hi1; reflexivity).
    assert (Hcv : count is_validation ev1 = 1%nat
                  /\ count is_opt_step ev1 = O /\ count is_log_end ev1 = O
                  /\ count is_save ev1 = O
                  /\ row_iters (iteration s + 1) ev1
                  /\ (forall lo i, saves_explained c lo i ev1)
                  /\ (forall v, val_column v ev1)
                  /\ (forall v, last_val v ev1
                                = Validated (mean_val_loss c (params s1')))).
    { destruct Hev1 as [-> | ->]; simpl; auto 10. }
    destruct Hcv as (Hc1 & Hc2 & Hc3 & Hc4 & Hc5 & Hc6 & Hc7 & Hc8).
    assert (Htr1 : traced c (epoch s) (iteration s) (cur_val_loss loc)
                     ([OptStep; Metric columns vals;
                       Snapshot (iteration s + 1) t p] ++ ev1)).
    { apply (traced_app c (epoch s) (epoch s)); [lia | |].
      - unfold traced. simpl. rewrite Hv0, Hv3. auto 10.
      - unfold traced. simpl count. rewrite Hc3.
        replace (iteration s + Z.of_nat (1 + (0 + (0 + 0)))) with (iteration s + 1) by lia.
        split; [exact Hc5|]. split; [apply Hc6|]. split; [apply Hc7|].
        split; [reflexivity|].
        intros H. exfalso. exact (Hnv Hdue H Hne). }
    destruct (maybe_save_detail c sv)
      as [[Hsdue Hsrun] | [(Hsdue & e & Hsrun & Hwhy) | (Hsdue & f & Hp & Hds & Hsrun)]];
      rewrite Hsrun; rewrite Hsd in Hsdue; clear Hsrun.
    + eexists _, sv, _. split; [reflexivity|].
      split; [lia|]. split; [congruence|].
      split; [rewrite Hvl, Hl1, <- app_assoc; reflexivity|].
      split; [rewrite count_app, Hc2; reflexivity|].
      split; [exact Htr1|].
      split; [discriminate|]. split.
      { intros loc' brk Heq. inversion Heq; subst.
        rewrite Hvi, Hi1, last_val_app, Hc8, !count_app, Hc1, Hc4, Hdue, Hsdue.
        simpl. auto. }
      split; [intros _ _; rewrite Hvi, Hi1; eexists; reflexivity|].
      intros _ Hnil. contradiction.
    + eexists _, sv, _. split; [reflexivity|].
      split; [lia|]. split; [congruence|].
      split; [rewrite Hvl, Hl1, <- app_assoc; reflexivity|].
      split; [rewrite count_app, Hc2; reflexivity|].
      split; [exact Htr1|].
      split; [discriminate|]. split; [discriminate|]. split.
      { intros _ Hs. destruct (Hs Hsdue) as [Hds Hpct].
        destruct Hwhy as [Hnil | Hp]; [contradiction|].
        rewrite (ckpt_path_spec _ _ _ Hpct) in Hp. discriminate. }
      intros _ Hnil. contradiction.
    + eexists _, _, _. split; [reflexivity|]. simpl.
      split; [lia|]. split; [congruence|].
      split; [rewrite Hvl, Hl1, <- !app_assoc; reflexivity|].
      split; [rewrite !count_app, Hc2; reflexivity|].
      split.
      { rewrite app_assoc.
        apply (traced_app c (epoch s) (epoch s)); [lia | exact Htr1 |].
        rewrite count_app, Hc2. simpl count.
        replace (iteration s + Z.of_nat (1 + (0 + (0 + 0)) + 0)) with (iteration s + 1) by lia.
        unfold traced. simpl.
        split; [auto|]. split; [|auto 10]. split; [|exact I].
        split; [rewrite Hvi, Hi1; reflexivity|].
        exists (epoch s). rewrite Hvi, Hve, Hi1, He1 in Hp. split; [exact Hp|].
        left. split; [lia | exact Hsdue]. }
      split; [discriminate|]. split.
      { intros loc' brk Heq. inversion Heq; subst.
        rewrite Hvi, Hi1, !last_val_app, Hc8, !count_app, Hc1, Hc4, Hdue, Hsdue.
        simpl. auto. }
      split; [intros _ _; rewrite Hvi, Hi1; eexists; reflexivity|].
      intros _ Hnil. contradiction.
Qed.

Lemma batch_loop_detail (c : setup) (batches : list batch) (loc : locals)
    (s : state) :
  exists o s' evs,
    batch_loop c batches loc s = (o, s')
    /\ log s' = (log s ++ evs)%list
    /\ iteration s' = iteration s + Z.of_nat (count is_opt_step evs)
    /\ epoch s' = epoch s
    /\ traced c (epoch s) (iteration s) (cur_val_loss loc) evs
    /\ o <> OutOfFuel
    /\ (forall loc' stop, o = Ret (loc', stop) ->
          cur_val_loss loc' = last_val (cur_val_loss loc) evs).
Proof.
  revert loc s. induction batches as [|b bs IH]; intros loc s; simpl.
  - exists (Ret (loc, false)), s, []. unfold_M. simpl.
    rewrite app_nil_r, Z.add_0_r.
    repeat (split; [first [reflexivity | apply traced_nil | discriminate]|]).
    intros loc' stop Heq. inversion Heq. reflexivity.
  - unfold_M.
    destruct (batch_body_detail c b loc s)
      as (o1 & s1 & evs1 & Hb & Hi1 & He1 & Hl1 & Hc1 & Ht1 & Ho1 & Hret1 & _).
    rewrite Hb.
    destruct o1 as [[loc1 brk]|e|]; [| |congruence].
    + destruct (Hret1 loc1 brk eq_refl) as (_ & Hv1 & _).
      destruct brk.
      * exists (Ret (loc1, true)), s1, evs1.
        split; [reflexivity|]. split; [assumption|].
        split; [rewrite Hc1; lia|]. split; [assumption|].
        split; [assumption|]. split; [discriminate|].
        intros loc' stop Heq. inversion Heq; subst. exact Hv1.
      * destruct (IH loc1 s1)
          as (o2 & s2 & evs2 & Hrun & Hl2 & Hi2 & He2 & Ht2 & Ho2 & Hret2).
        exists o2, s2, (evs1 ++ evs2)%list.
        split; [exact Hrun|].
        split; [rewrite Hl2, Hl1, <- app_assoc; reflexivity|].
        split; [rewrite count_app, Hc1; lia|].
        split; [congruence|].
        split.
        { apply (traced_app c (epoch s) (epoch s)); [lia | exact Ht1 |].
          rewrite Hc1, <- Hv1.
          replace (iteration s + Z.of_nat 1) with (iteration s1) by lia.
          rewrite <- He1. exact Ht2. }
        split; [assumption|].
        intros loc' stop Heq. rewrite last_val_app, <- Hv1.
        apply (Hret2 loc' stop Heq).
    + exists (Raise e), s1, evs1.
      split; [reflexivity|]. split; [assumption|].
      split; [rewrite Hc1; lia|]. split; [assumption|].
      split; [assumption|]. split; discriminate.
Qed.

(** With a positive epoch the per-epoch test
    [save_every_epochs * epoch > 0 and epoch % save_every_epochs == 0]
    is the per-iteration form of the test. *)
Lemma epoch_test_is_due (every e : Z) :
  0 < e ->
  ((0 <? every * e) && (e mod every =? 0)) = due every e.
Proof.
  intros He. unfold due. f_equal.
  destruct (0 <? every) eqn:H.
  - apply Z.ltb_lt in H. apply Z.ltb_lt. nia.
  - apply Z.ltb_ge in H. apply Z.ltb_ge. nia.
Qed.

Lemma end_of_epoch_detail (c : setup) (s : state) :
  exists o s' evs,
    end_of_epoch c s = (o, s')
    /\ iteration s' = iteration s /\ epoch s' = epoch s + 1
    /\ log s' = (log s ++ evs)%list
    /\ count is_opt_step evs = O
    /\ (forall v, traced c (epoch s) (iteration s) v evs)
    /\ (forall v, last_val v evs = v)
    /\ o <> OutOfFuel
    /\ (0 <= epoch s -> o = Ret tt ->
        count is_save evs
        = if due (save_every_epochs c) (epoch s + 1) then 1%nat else O)
    /\ (0 <= epoch s ->
        (due (save_every_epochs c) (epoch s + 1) = true ->
         train_dataset c <> []
         /\ has_char "%" (dir_prefix (logdir c)) = false) ->
        o = Ret tt).
Proof.
  unfold end_of_epoch, save, epoch_count. unfold_M. simpl.
  destruct ((0 <? save_every_epochs c * (epoch s + 1))
            && ((epoch s + 1) mod save_every_epochs c =? 0)) eqn:Hcond.
  - assert (Hwhy : 0 < save_every_epochs c * (epoch s + 1)
                   /\ (epoch s + 1) mod save_every_epochs c = 0).
    { apply andb_true_iff in Hcond. destruct Hcond as [H1 H2].
      apply Z.ltb_lt in H1. apply Z.eqb_eq in H2. auto. }
    destruct (train_dataset c) as [|x l] eqn:Hd.
    + exists (Raise ZeroDivisionError), (set_epoch (epoch s + 1) s), [].
      simpl. rewrite app_nil_r.
      do 5 (split; [reflexivity|]).
      split; [intros; apply traced_nil|]. split; [reflexivity|].
      split; [discriminate|].
      split; [intros _ Hr; discriminate Hr|].
      intros He Hok. rewrite <- epoch_test_is_due, Hcond in Hok by lia.
      destruct (Hok eq_refl) as [Hne _]. contradiction.
    + simpl.
      destruct (ckpt_path (logdir c) (iteration s) (epoch s + 1)) as [f|e] eqn:Hp.
      * eexists (Ret tt), _, [SaveState f _].
        split; [reflexivity|]. simpl.
        split; [reflexivity|]. split; [reflexivity|]. split; [reflexivity|].
        split; [reflexivity|].
        split.
        { intros v. unfold traced. simpl. rewrite Hd.
          split; [exact I|]. split; [|auto].
          split; [|exact I]. split; [reflexivity|].
          exists (epoch s + 1). split; [exact Hp|].
          right. split; [lia | exact Hwhy]. }
        split; [reflexivity|]. split; [discriminate|].
        split; [|reflexivity].
        intros He _. rewrite <- epoch_test_is_due, Hcond by lia. reflexivity.
      * exists (Raise e), (set_epoch (epoch s + 1) s), [].
        simpl. rewrite app_nil_r.
        do 5 (split; [reflexivity|]).
        split; [intros; apply traced_nil|]. split; [reflexivity|].
        split; [discriminate|].
        split; [intros _ Hr; discriminate Hr|].
        intros He Hok. rewrite <- epoch_test_is_due, Hcond in Hok by lia.
        destruct (Hok eq_refl) as [_ Hpct].
        rewrite (ckpt_path_spec _ _ _ Hpct) in Hp. discriminate.
  - exists (Ret tt), (set_epoch (epoch s + 1) s), [].
    simpl. rewrite app_nil_r.
    do 5 (split; [reflexivity|]).
    split; [intros; apply traced_nil|]. split; [reflexivity|].
    split; [discriminate|].
    split; [|reflexivity].
    intros He _. rewrite <- epoch_test_is_due, Hcond by lia. reflexivity.
Qed.

Lemma epoch_loop_detail (fuel : nat) (c : setup) (loc : locals) (s : state) :
  exists o s' evs,
    epoch_loop fuel c loc s = (o, s')
    /\ log s' = (log s ++ evs)%list
    /\ traced c (epoch s) (iteration s) (cur_val_loss loc) evs.
Proof.
  revert loc s. induction fuel as [|fuel IH]; intros loc s; simpl; unfold_M.
  - destruct ((iteration s <? iteration_max c) && (epoch s <? epoch_max c)).
    + exists OutOfFuel, s, []. rewrite app_nil_r.
      split; [reflexivity|]. split; [reflexivity | apply traced_nil].
    + exists (Ret tt), s, []. rewrite app_nil_r.
      split; [reflexivity|]. split; [reflexivity | apply traced_nil].
  - destruct ((iteration s <? iteration_max c) && (epoch s <? epoch_max c)).
    + destruct (batch_loop_detail c (train_loader c) loc s)
        as (o1 & s1 & evs1 & Hrun1 & Hl1 & Hi1 & He1 & Ht1 & Ho1 & Hret1).
      rewrite Hrun1.
      destruct o1 as [[loc1 stop]|e|]; [| |congruence].
      * pose proof (Hret1 loc1 stop eq_refl) as Hv1.
        destruct stop.
        -- exists (Ret tt), s1, evs1. auto.
        -- destruct (end_of_epoch_detail c s1)
             as (o2 & s2 & evs2 & Hrun2 & Hi2 & He2 & Hl2 & Hc2 & Ht2 & Hlv2
                 & Ho2 & _).
           rewrite Hrun2.
           assert (Ht12 : traced c (epoch s) (iteration s) (cur_val_loss loc)
                            (evs1 ++ evs2)).
           { apply (traced_app c (epoch s) (epoch s1)); [lia | exact Ht1 |].
             rewrite <- Hi1. apply Ht2. }
           destruct o2 as [[]|e|]; [| |congruence].
           ++ destruct (IH loc1 s2) as (o3 & s3 & evs3 & Hrun3 & Hl3 & Ht3).
              exists o3, s3, ((evs1 ++ evs2) ++ evs3)%list.
              split; [exact Hrun3|].
              split; [rewrite Hl3, Hl2, Hl1, <- !app_assoc; reflexivity|].
              apply (traced_app c (epoch s) (epoch s2)); [lia | exact Ht12 |].
              rewrite count_app, Hc2, last_val_app, Hlv2, <- Hv1.
              replace (iteration s + Z.of_nat (count is_opt_step evs1 + 0))
                with (iteration s2) by lia.
              exact Ht3.
           ++ exists (Raise e), s2, (evs1 ++ evs2)%list.
              split; [reflexivity|].
              split; [rewrite Hl2, Hl1, <- !app_assoc; reflexivity|].
              exact Ht12.
      * exists (Raise e), s1, evs1. auto.
    + exists (Ret tt), s, []. rewrite app_nil_r.
      split; [reflexivity|]. split; [reflexivity | apply traced_nil].
Qed.

(** [train]: the log of the loop replays from the starting counters, and
    the logger's write and close come last, after a normal exit only. *)
Lemma train_detail (fuel : nat) (c : setup) (s : state) :
  exists o s' body,
    train fuel c s = (o, s')
    /\ log s'
       = (log s ++ body
          ++ match o with Ret _ => [LogWrite; LogClose] | _ => [] end)%list
    /\ traced c (epoch s) (iteration s) NaN body.
Proof.
  unfold train. unfold_M.
  destruct (epoch_loop_detail fuel c
              {| twait := now (clock s); cur_val_loss := NaN |} (tick s))
    as (o & s1 & evs & Hrun & Hl & Ht).
  rewrite Hrun. simpl in Hl, Ht.
  destruct o as [[]|e|].
  - exists (Ret tt), (add_event LogClose (add_event LogWrite s1)), evs.
    split; [reflexivity|]. simpl.
    split; [rewrite Hl, <- !app_assoc; reflexivity | exact Ht].
  - exists (Raise e), s1, evs. rewrite app_nil_r. auto.
  - exists OutOfFuel, s1, evs. rewrite app_nil_r. auto.
Qed.

(** ** What a run logs *)

Lemma traced_with_ends (c : setup) (lo i : Z) (v : val_loss)
    (body : list event) (o : outcome unit) :
  traced c lo i v body ->
  row_iters i (body ++ match o with Ret _ => [LogWrite; LogClose] | _ => [] end)
  /\ saves_explained c lo i
       (body ++ match o with Ret _ => [LogWrite; LogClose] | _ => [] end)
  /\ val_column v
       (body ++ match o with Ret _ => [LogWrite; LogClose] | _ => [] end)
  /\ count is_save
       (body ++ match o with Ret _ => [LogWrite; LogClose] | _ => [] end)
     = count is_save body
  /\ count is_validation
       (body ++ match o with Ret _ => [LogWrite; LogClose] | _ => [] end)
     = count is_validation body.
Proof.
  intros (H1 & H2 & H3 & _).
  split; [apply row_iters_app; [exact H1 | destruct o; simpl; auto]|].
  split; [apply saves_explained_app; [exact H2 | destruct o; simpl; auto]|].
  split; [apply val_column_app; [exact H3 | destruct o; simpl; auto]|].
  rewrite !count_app. split; destruct o; simpl; lia.
Qed.

(** X5. In the log of any run, replayed from the starting iteration with
    one step per optimizer update, every metric row has the current
    iteration in its [iter] column and every spectrum snapshot is keyed by
    it: under resume the column continues from the resumed iteration. *)
Theorem X5_rows_carry_the_iteration (fuel : nat) (c : setup) (s : state) :
  exists evs,
    log (train fuel c s).2 = (log s ++ evs)%list
    /\ row_iters (iteration s) evs.
Proof.
  destruct (train_detail fuel c s) as (o & s' & body & Hrun & Hl & Ht).
  rewrite Hrun. simpl. eexists. split; [exact Hl|].
  apply (traced_with_ends c (epoch s) (iteration s) NaN body o Ht).
Qed.

(** X6. In the log of any run, the [val_loss] column of a row is [nan]
    until a validation has returned, and from then on the value returned by
    the latest validation logged before the row. *)
Theorem X6_val_loss_column_is_latest_validation (fuel : nat) (c : setup)
    (s : state) :
  exists evs,
    log (train fuel c s).2 = (log s ++ evs)%list
    /\ val_column NaN evs.
Proof.
  destruct (train_detail fuel c s) as (o & s' & body & Hrun & Hl & Ht).
  rewrite Hrun. simpl. eexists. split; [exact Hl|].
  apply (traced_with_ends c (epoch s) (iteration s) NaN body o Ht).
Qed.

(** X7. Every checkpoint that a run writes is named after the iteration
    current at that point and an epoch not below the starting one, carries
    [count = iteration / len(train dataset)], and is explained by one of
    the two periodic tests: the iteration is a positive multiple step of
    [save_every_iterations], or the epoch counter has just moved to a
    multiple of [save_every_epochs]. *)
Theorem X7_checkpoints_are_periodic (fuel : nat) (c : setup) (s : state) :
  exists evs,
    log (train fuel c s).2 = (log s ++ evs)%list
    /\ saves_explained c (epoch s) (iteration s) evs.
Proof.
  destruct (train_detail fuel c s) as (o & s' & body & Hrun & Hl & Ht).
  rewrite Hrun. simpl. eexists. split; [exact Hl|].
  apply (traced_with_ends c (epoch s) (iteration s) NaN body o Ht).
Qed.

Lemma no_save_when_disabled (c : setup) (lo i : Z) (evs : list event) :
  save_every_iterations c <= 0 -> save_every_epochs c <= 0 -> 0 <= lo ->
  saves_explained c lo i evs -> count is_save evs = O.
Proof.
  intros Hse Hsep Hlo. revert i.
  induction evs as [|ev evs IH]; intros i H; simpl in *; [reflexivity|].
  destruct ev; simpl in *; try (apply (IH _ H)).
  destruct H as [(_ & e & _ & Hwhy) _]. exfalso.
  destruct Hwhy as [[_ Hd] | (He & Hpos & _)].
  - apply due_positive in Hd. lia.
  - nia.
Qed.

(** X8. With both periods at a non-positive value (the defaults are
    [-1]), a run that starts at a non-negative epoch writes no checkpoint
    at all, however long it trains. *)
Theorem X8_no_checkpoint_when_disabled (fuel : nat) (c : setup) (s : state) :
  save_every_iterations c <= 0 -> save_every_epochs c <= 0 ->
  0 <= epoch s ->
  exists evs,
    log (train fuel c s).2 = (log s ++ evs)%list
    /\ count is_save evs = O.
Proof.
  intros Hse Hsep He.
  destruct (train_detail fuel c s) as (o & s' & body & Hrun & Hl & Ht).
  rewrite Hrun. simpl. eexists. split; [exact Hl|].
  destruct (traced_with_ends c (epoch s) (iteration s) NaN body o Ht)
    as (_ & H2 & _).
  exact (no_save_when_disabled c _ _ _ Hse Hsep He H2).
Qed.

Definition nan_rows (evs : list event) : Prop :=
  Forall (fun ev => match ev with
                    | Metric _ vals => nan_row vals
                    | _ => True
                    end) evs.

Lemma val_column_without_validation (v : val_loss) (evs : list event) :
  val_column v evs -> count is_validation evs = O ->
  Forall (fun ev => match ev with
                    | Metric _ vals => vals !! 3%nat = Some (CValLoss v)
                    | _ => True
                    end) evs.
Proof.
  induction evs as [|ev evs IH]; intros H Hc; [constructor|].
  destruct ev; simpl in *; try (constructor; [exact I | apply IH; assumption]).
  - destruct H as [H1 H]. constructor; [exact H1 | apply IH; assumption].
  - discriminate.
Qed.

(** X9. When [validate_every_iterations] is not positive, or the
    validation loader is empty, no validation ever returns during a run,
    and every metric row carries [val_loss = nan]. *)
Theorem X9_no_validation_all_nan (fuel : nat) (c : setup) (s : state) :
  validate_every_iterations c <= 0 \/ val_loader c = [] ->
  exists evs,
    log (train fuel c s).2 = (log s ++ evs)%list
    /\ count is_validation evs = O
    /\ nan_rows evs.
Proof.
  intros Hoff.
  destruct (train_detail fuel c s) as (o & s' & body & Hrun & Hl & Ht).
  rewrite Hrun. simpl. eexists. split; [exact Hl|].
  destruct (traced_with_ends c (epoch s) (iteration s) NaN body o Ht)
    as (_ & _ & H3 & _ & H5).
  destruct Ht as (_ & _ & _ & _ & Hnv).
  assert (Hc : count is_validation
                 (body ++ match o with Ret _ => [LogWrite; LogClose] | _ => [] end)
               = O) by (rewrite H5; apply Hnv; exact Hoff).
  split; [exact Hc|].
  exact (val_column_without_validation NaN _ H3 Hc).
Qed.

(** X10. The logger is written and closed exactly once, as the last two
    calls of a run that leaves the loop normally; a run that raises (a
    failed validation or save) never reaches [logger.write()] or
    [logger.close()]. *)
Theorem X10_log_is_closed_only_on_normal_exit (fuel : nat) (c : setup)
    (s : state) :
  exists body,
    count is_log_end body = O
    /\ log (train fuel c s).2
       = (log s ++ body
          ++ match (train fuel c s).1 with
             | Ret _ => [LogWrite; LogClose]
             | _ => []
             end)%list.
Proof.
  destruct (train_detail fuel c s) as (o & s' & body & Hrun & Hl & Ht).
  rewrite Hrun. simpl. exists body. split; [apply Ht | exact Hl].
Qed.

(** The number of multiples of [every] in [(i, j]], none when [every] is
    not positive. *)
Definition multiples (every i j : Z) : Z :=
  if 0 <? every then j / every - i / every else 0.

Lemma multiples_one (every i : Z) :
  multiples every i (i + 1) = if due every (i + 1) then 1 else 0.
Proof.
  unfold multiples, due. destruct (0 <? every) eqn:H; [|reflexivity].
  apply Z.ltb_lt in H. simpl. apply multiples_step. exact H.
Qed.

Lemma multiples_split (every i j k : Z) :
  multiples every i k = multiples every i j + multiples every j k.
Proof. unfold multiples. destruct (0 <? every); lia. Qed.

(** A pass that runs into the iteration limit, when nothing can fail. *)
Lemma batch_loop_counts (c : setup) (batches : list batch) (loc : locals)
    (s : state) :
  (0 < validate_every_iterations c -> val_loader c <> []) ->
  (0 < save_every_iterations c ->
   train_dataset c <> [] /\ has_char "%" (dir_prefix (logdir c)) = false) ->
  iteration s < iteration_max c ->
  iteration_max c - iteration s <= Z.of_nat (length batches) ->
  exists loc' s' evs,
    batch_loop c batches loc s = (Ret (loc', true), s')
    /\ iteration s' = iteration_max c /\ epoch s' = epoch s
    /\ log s' = (log s ++ evs)%list
    /\ Z.of_nat (count is_opt_step evs) = iteration_max c - iteration s
    /\ Z.of_nat (count is_validation evs)
       = multiples (validate_every_iterations c) (iteration s) (iteration_max c)
    /\ Z.of_nat (count is_save evs)
       = multiples (save_every_iterations c) (iteration s) (iteration_max c).
Proof.
  intros Hval Hsave. revert loc s.
  induction batches as [|b bs IH]; intros loc s Hlt Hlen; simpl in Hlen; [lia|].
  simpl. unfold_M.
  destruct (batch_body_detail c b loc s)
    as (o1 & s1 & evs1 & Hb & Hi1 & He1 & Hl1 & Hc1 & _ & _ & Hret1 & Hok & _).
  destruct Hok as [loc1 ->].
  { intros Hd. apply Hval. apply (due_positive _ _ Hd). }
  { intros Hd. apply Hsave. apply (due_positive _ _ Hd). }
  rewrite Hb.
  destruct (Hret1 _ _ eq_refl) as (_ & _ & Hcv & Hcs).
  assert (Hcv' : Z.of_nat (count is_validation evs1)
                 = multiples (validate_every_iterations c) (iteration s) (iteration s + 1)).
  { rewrite multiples_one, Hcv.
    destruct (due (validate_every_iterations c) _); reflexivity. }
  assert (Hcs' : Z.of_nat (count is_save evs1)
                 = multiples (save_every_iterations c) (iteration s) (iteration s + 1)).
  { rewrite multiples_one, Hcs.
    destruct (due (save_every_iterations c) _); reflexivity. }
  destruct (iteration_max c <=? iteration s + 1) eqn:Hbrk.
  - apply Z.leb_le in Hbrk.
    assert (Heq : iteration s + 1 = iteration_max c) by lia.
    exists loc1, s1, evs1. split; [reflexivity|].
    split; [lia|]. split; [assumption|]. split; [assumption|].
    split; [lia|]. rewrite Hcv', Hcs', Heq. auto.
  - apply Z.leb_gt in Hbrk.
    destruct (IH loc1 s1)
      as (loc2 & s2 & evs2 & Hrun & Hi2 & He2 & Hl2 & Ho2 & Hv2 & Hs2);
      [lia | lia |].
    exists loc2, s2, (evs1 ++ evs2)%list. split; [exact Hrun|].
    split; [assumption|]. split; [congruence|].
    split; [rewrite Hl2, Hl1, <- app_assoc; reflexivity|].
    rewrite !count_app, !Nat2Z.inj_add, Hcv', Hcs', Hv2, Hs2, Ho2, Hc1, Hi1.
    rewrite (multiples_split (validate_every_iterations c) (iteration s)
               (iteration s + 1) (iteration_max c)).
    rewrite (multiples_split (save_every_iterations c) (iteration s)
               (iteration s + 1) (iteration_max c)).
    repeat split; lia.
Qed.

(** X11. In a pass that runs into the iteration limit, with a validation
    loader and a training subset that are not empty and a logger directory
    without [%], the loop breaks exactly at [iteration_max], having
    validated once per multiple of [validate_every_iterations] and written
    one checkpoint per multiple of [save_every_iterations] among the
    iterations it went through. *)
Theorem X11_periodic_calls_are_counted (c : setup) (batches : list batch)
    (loc : locals) (s : state) :
  val_loader c <> [] -> train_dataset c <> [] ->
  has_char "%" (dir_prefix (logdir c)) = false ->
  iteration s < iteration_max c ->
  iteration_max c - iteration s <= Z.of_nat (length batches) ->
  exists loc' s' evs,
    batch_loop c batches loc s = (Ret (loc', true), s')
    /\ iteration s' = iteration_max c /\ epoch s' = epoch s
    /\ log s' = (log s ++ evs)%list
    /\ Z.of_nat (count is_opt_step evs) = iteration_max c - iteration s
    /\ Z.of_nat (count is_validation evs)
       = multiples (validate_every_iterations c) (iteration s) (iteration_max c)
    /\ Z.of_nat (count is_save evs)
       = multiples (save_every_iterations c) (iteration s) (iteration_max c).
Proof.
  intros Hv Hd Hp Hlt Hlen. apply batch_loop_counts; auto.
Qed.

(** X12. Calling [train] on a trainer whose limits are already reached
    (a finished run that is resumed, say) trains on nothing: it reads the
    clock once, writes and closes the logger, and leaves the counters, the
    parameters and the optimizer as they were, with no fuel needed. *)
Theorem X12_train_when_already_stopped (fuel : nat) (c : setup) (s : state) :
  stopped c s = true ->
  train fuel c s = (Ret tt, add_event LogClose (add_event LogWrite (tick s))).
Proof.
  intros Hst. unfold train. unfold_M.
  assert (Hgo : (iteration (tick s) <? iteration_max c)
                && (epoch (tick s) <? epoch_max c) = false).
  { unfold stopped in Hst. simpl.
    apply orb_true_iff in Hst. apply andb_false_iff.
    destruct Hst as [H | H]; apply Z.leb_le in H; [left | right];
      apply Z.ltb_ge; exact H. }
  destruct fuel; simpl; unfold_M; rewrite Hgo; reflexivity.
Qed.

(** X13. At the end of a pass that did not break, from a non-negative
    epoch: the epoch counter moves by one, the iteration counter stays, and
    a checkpoint is written exactly when [save_every_epochs] is positive
    and divides the new epoch (given a training subset that is not empty
    and a logger directory without [%], so that the save cannot fail). *)
Theorem X13_end_of_epoch_save (c : setup) (s : state) :
  0 <= epoch s ->
  train_dataset c <> [] -> has_char "%" (dir_prefix (logdir c)) = false ->
  exists s' evs,
    end_of_epoch c s = (Ret tt, s')
    /\ epoch s' = epoch s + 1 /\ iteration s' = iteration s
    /\ log s' = (log s ++ evs)%list
    /\ count is_save evs
       = (if due (save_every_epochs c) (epoch s + 1) then 1%nat else O)
    /\ count is_opt_step evs = O.
Proof.
  intros He Hd Hp.
  destruct (end_of_epoch_detail c s)
    as (o & s' & evs & Hrun & Hi & Hep & Hl & Hc & _ & _ & _ & Hex & Hok).
  assert (Ho : o = Ret tt) by (apply Hok; auto).
  subst o. exists s', evs. rewrite Hrun. auto 10.
Qed.

(** X14. With an empty validation loader, the first batch whose
    iteration is a multiple of [validate_every_iterations] fails with
    [ZeroDivisionError], after the optimizer update has been applied and
    the batch's row and snapshot have been logged. *)
Theorem X14_empty_validation_loader_raises (c : setup) (b : batch)
    (loc : locals) (s : state) :
  val_loader c = [] ->
  due (validate_every_iterations c) (iteration s + 1) = true ->
  exists s' vals t p,
    batch_body c b loc s = (Raise ZeroDivisionError, s')
    /\ iteration s' = iteration s + 1
    /\ params s' = (backprop (opt s) (params s) b).2
    /\ log s'
       = (log s ++ [OptStep; Metric columns vals;
                    Snapshot (iteration s + 1) t p])%list.
Proof.
  intros Hnil Hdue.
  unfold batch_body, maybe_validate. unfold_M. unfold step. unfold_M. simpl.
  unfold due in Hdue. rewrite Hdue. rewrite validate_run, Hnil. simpl.
  eexists _, _, _, _. split; [reflexivity|]. simpl.
  split; [reflexivity|]. split; [reflexivity|].
  rewrite <- !app_assoc. reflexivity.
Qed.

(** X15. Whatever the limits and the starting counters, a run never
    decreases the iteration or the epoch counter, and never moves one past
    its limit: each ends between its starting value and the larger of that
    value and the limit. *)
Theorem X15_counters_only_grow_up_to_the_limits (fuel : nat) (c : setup)
    (s : state) :
  iteration s <= iteration (train fuel c s).2
  /\ iteration (train fuel c s).2 <= Z.max (iteration s) (iteration_max c)
  /\ epoch s <= epoch (train fuel c s).2
  /\ epoch (train fuel c s).2 <= Z.max (epoch s) (epoch_max c).
Proof.
  destruct (train_run fuel c s)
    as (o & s' & evs & Hrun & _ & Hit & _ & Hep & Hmx & _).
  rewrite Hrun. simpl. repeat split; lia.
Qed.

(** ** The [KeyError]s of the construction *)

Lemma parse_ckpt_name_no_key_error (path k : string) :
  parse_ckpt_name path <> Err (KeyError k).
Proof.
  unfold parse_ckpt_name.
  destruct (PyRe.findall resume_pattern path) as [|g gs]; [discriminate|].
  destruct g as [|it [|ep [|x l]]]; try discriminate.
  unfold py_int, rbind.
  destruct it; [discriminate|].
  destruct (forallb is_digit (_ :: it)); [|discriminate].
  destruct ep; [discriminate|].
  destruct (forallb is_digit (_ :: ep)); discriminate.
Qed.

Lemma resume_counters_key_error (cfg : config) (k : string) :
  resume_counters cfg = Err (KeyError k) ->
  (k = "train"%string /\ cfg_train cfg = None)
  \/ (k = "model"%string /\ cfg_model cfg = None)
  \/ (k = "ckpt_file"%string
      /\ exists m, cfg_model cfg = Some m /\ m !! "ckpt_file" = None).
Proof.
  unfold resume_counters. unfold mbind, result_bind, rbind.
  destruct (cfg_train cfg) as [tc|]; simpl;
    [|intros H; injection H as <-; auto].
  destruct (truthy _); [|discriminate].
  destruct (cfg_model cfg) as [m|]; simpl;
    [|intros H; injection H as <-; auto].
  unfold dict_item. destruct (m !! "ckpt_file") as [v|] eqn:Hm;
    [|intros H; injection H as <-; right; right; eauto].
  destruct (truthy v); [|discriminate].
  destruct v; try discriminate.
  intros H. exfalso. exact (parse_ckpt_name_no_key_error _ _ H).
Qed.

Lemma configure_scheduler_key_error (tc : train_cfg) (o : Optm) (k : string) :
  configure_scheduler tc o = Err (KeyError k) ->
  k = "Name"%string
  /\ exists lrs, lrs_mapping tc = Some lrs /\ lrs !! "Name" = None.
Proof.
  unfold configure_scheduler, lrs_mapping, dict_get, dict_item.
  unfold mbind, result_bind, rbind.
  destruct (lr_scheduler tc) as [[lrs|v]|]; simpl; try discriminate.
  destruct (lrs !! "name") as [v|]; simpl; [|discriminate].
  destruct (truthy v); [|discriminate].
  destruct v as [| | |nm]; try discriminate.
  destruct (has_scheduler nm); [discriminate|].
  destruct (lrs !! "Name") eqn:Hn; [discriminate|].
  intros H. injection H as <-. eauto.
Qed.

(** Which key a [KeyError] of [__init__] names, and why. *)
Lemma init_key_error (cfg : config) (n : nat) (rng : Gen) (dir : string)
    (k : string) :
  init cfg n rng dir = Err (KeyError k) ->
  (k = "train"%string /\ cfg_train cfg = None)
  \/ (k = "model"%string /\ cfg_model cfg = None)
  \/ (k = "ckpt_file"%string
      /\ exists m, cfg_model cfg = Some m /\ m !! "ckpt_file" = None)
  \/ (k = "Name"%string
      /\ exists tc lrs, cfg_train cfg = Some tc
                        /\ lrs_mapping tc = Some lrs
                        /\ lrs !! "Name" = None).
Proof.
  unfold init. unfold mbind, result_bind, rbind.
  destruct (cfg_train cfg) as [tc|] eqn:Htc; simpl;
    [|intros H; injection H as <-; auto].
  unfold random_split, split_lengths. unfold mbind, result_bind, rbind.
  destruct (Qeq_bool _ _); [|discriminate].
  destruct (forallb _ _); [|discriminate].
  destruct (randperm _ _) as [indices g'].
  destruct (slices _ indices) as [|tr [|va [|x l]]]; try discriminate.
  unfold data_loader.
  destruct (default 1 (batch_size (cfg_loader cfg)) <=? 0); [discriminate|].
  destruct (resume_counters cfg) as [[it ep]|e] eqn:Hrc.
  - destruct (configure_scheduler tc _) as [sc|e] eqn:Hcs; [discriminate|].
    intros H. injection H as ->.
    destruct (configure_scheduler_key_error _ _ _ Hcs)
      as (-> & lrs & Hmap & Hn).
    right. right. right. eauto 6.
  - intros H. injection H as ->.
    destruct (resume_counters_key_error _ _ Hrc) as [[_ H] | [H | H]];
      [congruence | auto | auto].
Qed.

(** A [KeyError] on [ckpt_file] comes from the resume branch. *)
Lemma init_counters_error (cfg : config) (tc : train_cfg) (n : nat)
    (rng : Gen) (dir : string) (e : exn) :
  init cfg n rng dir = Err e ->
  cfg_train cfg = Some tc ->
  e = KeyError "ckpt_file" ->
  truthy (default PNone (resume tc)) = true.
Proof.
  intros H Htc ->. revert H.
  unfold init. unfold mbind, result_bind, rbind. rewrite Htc. simpl.
  unfold random_split, split_lengths. unfold mbind, result_bind, rbind.
  destruct (Qeq_bool _ _); [|discriminate].
  destruct (forallb _ _); [|discriminate].
  destruct (randperm _ _) as [indices g'].
  destruct (slices _ indices) as [|tr [|va [|x l]]]; try discriminate.
  unfold data_loader.
  destruct (default 1 (batch_size (cfg_loader cfg)) <=? 0); [discriminate|].
  destruct (resume_counters cfg) as [[it ep]|e] eqn:Hrc.
  - destruct (configure_scheduler tc _) as [sc|e] eqn:Hcs; [discriminate|].
    intros H. injection H as ->.
    destruct (configure_scheduler_key_error _ _ _ Hcs) as [H _].
    discriminate H.
  - intros _. revert Hrc. unfold resume_counters. rewrite Htc. simpl.
    destruct (truthy (default PNone (resume tc))); [reflexivity | discriminate].
Qed.

(** X16. Given a device selection and collaborators that succeed, the
    construction fails with [KeyError: 'train'] exactly when the
    configuration has no [train] section: no other failure is reported
    under that key, and the default of [cfg.get('train', dict())] on
    line 85 is never used. *)
Theorem X16_missing_train_section (cfg : config) (n : nat) (rng : Gen)
    (dir : string) :
  init cfg n rng dir = Err (KeyError "train") <-> cfg_train cfg = None.
Proof.
  split.
  - intros H. apply init_key_error in H.
    destruct H as [[_ H] | [[H _] | [[H _] | [H _]]]];
      [exact H | discriminate H | discriminate H | discriminate H].
  - intros H. unfold init. rewrite H. reflexivity.
Qed.

(** ** The learning-rate scheduler *)

Definition has_sched (s : state) : bool :=
  match scheduler s with Some _ => true | None => false end.

(** With a scheduler, every [validate()] that returns is followed at once
    by [scheduler.step] on the value it returned, and the scheduler is
    stepped nowhere else; without one it is never stepped. *)
Fixpoint sched_steps (on : bool) (evs : list event) : Prop :=
  match evs with
  | [] => True
  | Validation v :: rest =>
    if on then
      match rest with
      | SchedulerStep v' :: rest' => v' = v /\ sched_steps on rest'
      | _ => False
      end
    else sched_steps on rest
  | SchedulerStep _ :: _ => False
  | _ :: rest => sched_steps on rest
  end.

Lemma sched_steps_app_cons (on : bool) (b : list event) :
  sched_steps on b ->
  forall a,
    (sched_steps on a -> sched_steps on (a ++ b))
    /\ (forall ev, sched_steps on (ev :: a) -> sched_steps on (ev :: a ++ b)).
Proof.
  intros Hb. induction a as [|x a [IH1 IH2]].
  - split; [intros _; exact Hb|].
    intros ev H. destruct ev; simpl in *; try exact Hb; try contradiction.
    destruct on; [contradiction | exact Hb].
  - split; [intros H; apply (IH2 x H)|].
    intros ev H. destruct ev; try (apply (IH2 x H)); try contradiction.
    destruct on; [|apply (IH2 x H)].
    destruct x; try contradiction.
    destruct H as [Hv H]. split; [exact Hv | apply IH1; exact H].
Qed.

Lemma sched_steps_app (on : bool) (a b : list event) :
  sched_steps on a -> sched_steps on b -> sched_steps on (a ++ b).
Proof. intros Ha Hb. apply (sched_steps_app_cons on b Hb a). exact Ha. Qed.

Lemma maybe_validate_sched (c : setup) (loc : locals) (s : state) :
  exists o s' evs,
    maybe_validate c loc s = (o, s')
    /\ log s' = (log s ++ evs)%list
    /\ has_sched s' = has_sched s
    /\ sched_steps (has_sched s) evs.
Proof.
  unfold maybe_validate. unfold_M.
  destruct ((0 <? validate_every_iterations c)
            && (iteration s mod validate_every_iterations c =? 0)).
  - rewrite validate_run. destruct (val_loader c) as [|vb vbs].
    + eexists _, s, []. rewrite app_nil_r. simpl. auto.
    + simpl. unfold has_sched. destruct (scheduler s) as [sc|] eqn:Hsc.
      * eexists _, _, [Validation _; SchedulerStep _].
        split; [reflexivity|]. simpl. rewrite <- app_assoc. auto.
      * eexists _, _, [Validation _].
        split; [reflexivity|]. simpl. rewrite Hsc. auto.
  - eexists _, s, []. rewrite app_nil_r. simpl. auto.
Qed.

Lemma maybe_save_sched (c : setup) (s : state) :
  exists o s' evs,
    maybe_save c s = (o, s')
    /\ log s' = (log s ++ evs)%list
    /\ has_sched s' = has_sched s
    /\ sched_steps (has_sched s) evs.
Proof.
  destruct (maybe_save_detail c s)
    as [[_ Hrun] | [(_ & e & Hrun & _) | (_ & f & _ & _ & Hrun)]];
    rewrite Hrun.
  - eexists _, s, []. rewrite app_nil_r. simpl. auto.
  - eexists _, s, []. rewrite app_nil_r. simpl. auto.
  - eexists _, _, [SaveState _ _]. split; [reflexivity|]. simpl. auto.
Qed.

Lemma batch_body_sched (c : setup) (b : batch) (loc : locals) (s : state) :
  exists o s' evs,
    batch_body c b loc s = (o, s')
    /\ log s' = (log s ++ evs)%list
    /\ has_sched s' = has_sched s
    /\ sched_steps (has_sched s) evs.
Proof.
  unfold batch_body. unfold_M. unfold step. unfold_M. simpl.
  match goal with
  | |- context [maybe_validate c loc ?s1] => set (s1' := s1)
  end.
  assert (Hl1 : exists vals t p,
            log s1' = (log s ++ [OptStep; Metric columns vals;
                                 Snapshot (iteration s + 1) t p])%list).
  { eexists _, _, _. subst s1'. simpl. rewrite <- !app_assoc. reflexivity. }
  destruct Hl1 as (vals & t & p & Hl1).
  assert (Hs1 : has_sched s1' = has_sched s) by reflexivity.
  clearbody s1'.
  destruct (maybe_validate_sched c loc s1')
    as (o2 & s2 & evs2 & Hrun2 & Hl2 & Hs2 & Hp2).
  rewrite Hrun2.
  assert (H12 : sched_steps (has_sched s)
                  ([OptStep; Metric columns vals;
                    Snapshot (iteration s + 1) t p] ++ evs2)).
  { apply sched_steps_app; [exact I | rewrite <- Hs1; exact Hp2]. }
  destruct o2 as [vl|e|].
  - destruct (maybe_save_sched c s2)
      as (o3 & s3 & evs3 & Hrun3 & Hl3 & Hs3 & Hp3).
    rewrite Hrun3.
    assert (H123 : log s3 = (log s ++ ([OptStep; Metric columns vals;
                      Snapshot (iteration s + 1) t p] ++ evs2) ++ evs3)%list
                   /\ has_sched s3 = has_sched s
                   /\ sched_steps (has_sched s)
                        (([OptStep; Metric columns vals;
                           Snapshot (iteration s + 1) t p] ++ evs2) ++ evs3)).
    { split; [rewrite Hl3, Hl2, Hl1, <- !app_assoc; reflexivity|].
      split; [congruence|].
      apply sched_steps_app; [exact H12|].
      rewrite <- Hs1, <- Hs2. exact Hp3. }
    destruct o3 as [[]|e|]; eexists _, s3, _; (split; [reflexivity | exact H123]).
  - eexists _, s2, _. split; [reflexivity|].
    split; [rewrite Hl2, Hl1, <- !app_assoc; reflexivity|].
    split; [congruence | exact H12].
  - eexists _, s2, _. split; [reflexivity|].
    split; [rewrite Hl2, Hl1, <- !app_assoc; reflexivity|].
    split; [congruence | exact H12].
Qed.

Lemma batch_loop_sched (c : setup) (batches : list batch) (loc : locals)
    (s : state) :
  exists o s' evs,
    batch_loop c batches loc s = (o, s')
    /\ log s' = (log s ++ evs)%list
    /\ has_sched s' = has_sched s
    /\ sched_steps (has_sched s) evs.
Proof.
  revert loc s. induction batches as [|b bs IH]; intros loc s; simpl; unfold_M.
  - eexists _, s, []. rewrite app_nil_r. simpl. auto.
  - destruct (batch_body_sched c b loc s)
      as (o1 & s1 & evs1 & Hrun1 & Hl1 & Hs1 & Hp1).
    rewrite Hrun1.
    destruct o1 as [[loc1 [|]]|e|]; try (eexists _, s1, evs1; auto; fail).
    destruct (IH loc1 s1) as (o2 & s2 & evs2 & Hrun2 & Hl2 & Hs2 & Hp2).
    exists o2, s2, (evs1 ++ evs2)%list.
    split; [exact Hrun2|].
    split; [rewrite Hl2, Hl1, <- app_assoc; reflexivity|].
    split; [congruence|].
    apply sched_steps_app; [exact Hp1 | rewrite <- Hs1; exact Hp2].
Qed.

Lemma end_of_epoch_sched (c : setup) (s : state) :
  exists o s' evs,
    end_of_epoch c s = (o, s')
    /\ log s' = (log s ++ evs)%list
    /\ has_sched s' = has_sched s
    /\ sched_steps (has_sched s) evs.
Proof.
  unfold end_of_epoch, save, epoch_count. unfold_M. simpl.
  destruct ((0 <? save_every_epochs c * (epoch s + 1))
            && ((epoch s + 1) mod save_every_epochs c =? 0)).
  - destruct (train_dataset c) as [|x l].
    + eexists _, _, []. split; [reflexivity|]. simpl. rewrite app_nil_r. auto.
    + simpl.
      destruct (ckpt_path (logdir c) (iteration s) (epoch s + 1)) as [f|e].
      * eexists _, _, [SaveState f _]. split; [reflexivity|]. simpl. auto.
      * eexists _, _, []. split; [reflexivity|]. simpl.
        rewrite app_nil_r. auto.
  - eexists _, _, []. split; [reflexivity|]. simpl. rewrite app_nil_r. auto.
Qed.

Lemma epoch_loop_sched (fuel : nat) (c : setup) (loc : locals) (s : state) :
  exists o s' evs,
    epoch_loop fuel c loc s = (o, s')
    /\ log s' = (log s ++ evs)%list
    /\ has_sched s' = has_sched s
    /\ sched_steps (has_sched s) evs.
Proof.
  revert loc s. induction fuel as [|fuel IH]; intros loc s; simpl; unfold_M.
  - destruct ((iteration s <? iteration_max c) && (epoch s <? epoch_max c));
      eexists _, s, []; rewrite app_nil_r; simpl; auto.
  - destruct ((iteration s <? iteration_max c) && (epoch s <? epoch_max c));
      [|eexists _, s, []; rewrite app_nil_r; simpl; auto].
    destruct (batch_loop_sched c (train_loader c) loc s)
      as (o1 & s1 & evs1 & Hrun1 & Hl1 & Hs1 & Hp1).
    rewrite Hrun1.
    destruct o1 as [[loc1 [|]]|e|]; try (eexists _, s1, evs1; auto; fail).
    destruct (end_of_epoch_sched c s1)
      as (o2 & s2 & evs2 & Hrun2 & Hl2 & Hs2 & Hp2).
    rewrite Hrun2.
    assert (H12 : log s2 = (log s ++ evs1 ++ evs2)%list
                  /\ has_sched s2 = has_sched s
                  /\ sched_steps (has_sched s) (evs1 ++ evs2)).
    { split; [rewrite Hl2, Hl1, <- app_assoc; reflexivity|].
      split; [congruence|].
      apply sched_steps_app; [exact Hp1 | rewrite <- Hs1; exact Hp2]. }
    destruct H12 as (Hl12 & Hs12 & Hp12).
    destruct o2 as [[]|e|]; try (eexists _, s2, (evs1 ++ evs2)%list; auto; fail).
    destruct (IH loc1 s2) as (o3 & s3 & evs3 & Hrun3 & Hl3 & Hs3 & Hp3).
    exists o3, s3, ((evs1 ++ evs2) ++ evs3)%list.
    split; [exact Hrun3|].
    split; [rewrite Hl3, Hl12, <- !app_assoc; reflexivity|].
    split; [congruence|].
    apply sched_steps_app; [exact Hp12 | rewrite <- Hs12; exact Hp3].
Qed.

(** X17. In the log of any run with a learning-rate scheduler, every
    validation that returns is followed at once by one [scheduler.step]
    on the loss it returned, and the scheduler is stepped at no other
    point; in a run without a scheduler it is never stepped. *)
Theorem X17_scheduler_steps_follow_validations (fuel : nat) (c : setup)
    (s : state) :
  exists evs,
    log (train fuel c s).2 = (log s ++ evs)%list
    /\ sched_steps (has_sched s) evs.
Proof.
  unfold train. unfold_M.
  destruct (epoch_loop_sched fuel c
              {| twait := now (clock s); cur_val_loss := NaN |} (tick s))
    as (o & s1 & evs & Hrun & Hl & Hs & Hp).
  rewrite Hrun. simpl in Hl, Hp.
  destruct o as [[]|e|]; simpl.
  - exists (evs ++ [LogWrite; LogClose])%list.
    split; [rewrite Hl, <- !app_assoc; reflexivity|].
    apply sched_steps_app; [exact Hp | exact I].
  - exists evs. auto.
  - exists evs. auto.
Qed.

(** ** The train/validation split *)






(** ** What a constructed trainer starts from *)

Lemma int_digits_nonneg (l : list ascii) :
  forallb is_digit l = true -> 0 <= int_digits l.
Proof.
  unfold int_digits.
  assert (H : forall acc, 0 <= acc -> forallb is_digit l = true ->
                0 <= fold_left (fun a c => 10 * a + digit_val c) l acc).
  { induction l as [|c l IH]; intros acc Hacc Hd; simpl in *; [exact Hacc|].
    apply andb_true_iff in Hd. destruct Hd as [Hc Hd].
    apply IH; [|exact Hd].
    unfold is_digit in Hc. apply andb_true_iff in Hc. destruct Hc as [Hc _].
    apply Z.leb_le in Hc. unfold digit_val. lia. }
  apply H. lia.
Qed.

Lemma py_int_nonneg (s : list ascii) (z : Z) : py_int s = Ok z -> 0 <= z.
Proof.
  unfold py_int. destruct s as [|c s]; [discriminate|].
  destruct (forallb is_digit (c :: s)) eqn:Hd; [|discriminate].
  intros H. injection H as <-. apply int_digits_nonneg. exact Hd.
Qed.

Lemma parse_ckpt_name_nonneg (path : string) (i e : Z) :
  parse_ckpt_name path = Ok (i, e) -> 0 <= i /\ 0 <= e.
Proof.
  unfold parse_ckpt_name.
  destruct (PyRe.findall resume_pattern path) as [|g gs]; [discriminate|].
  destruct g as [|it [|ep [|x l]]]; try discriminate.
  unfold rbind.
  destruct (py_int it) as [zi|] eqn:Hi; [|discriminate].
  destruct (py_int ep) as [ze|] eqn:He; [|discriminate].
  intros H. injection H as <- <-.
  split; [exact (py_int_nonneg _ _ Hi) | exact (py_int_nonneg _ _ He)].
Qed.

Lemma resume_counters_nonneg (cfg : config) (i e : Z) :
  resume_counters cfg = Ok (i, e) -> 0 <= i /\ 0 <= e.
Proof.
  unfold resume_counters. unfold mbind, result_bind, rbind.
  destruct (namespace "train" (cfg_train cfg)) as [tc|]; [|discriminate].
  destruct (truthy _); [|intros H; injection H as <- <-; lia].
  destruct (namespace "model" (cfg_model cfg)) as [m|]; [|discriminate].
  destruct (dict_item m "ckpt_file") as [v|]; [|discriminate].
  destruct (truthy v); [|intros H; injection H as <- <-; lia].
  destruct v; try discriminate. apply parse_ckpt_name_nonneg.
Qed.

(** X19. Every trainer that the construction returns starts from
    non-negative counters, resumed or not: [(\d+)] captures no sign. *)
Theorem X19_constructed_counters_are_not_negative (cfg : config) (n : nat)
    (rng : Gen) (dir : string) (t : trainer) :
  init cfg n rng dir = Ok t ->
  0 <= iteration (self_state t) /\ 0 <= epoch (self_state t).
Proof.
  intros H. apply init_counters in H. apply (resume_counters_nonneg cfg). exact H.
Qed.

Lemma init_limits (cfg : config) (tc : train_cfg) (n : nat) (rng : Gen)
    (dir : string) (t : trainer) :
  cfg_train cfg = Some tc ->
  init cfg n rng dir = Ok t ->
  epoch_max (self_setup t) = default (10 ^ 20) (max_epochs tc)
  /\ iteration_max (self_setup t) = default (10 ^ 20) (max_iterations tc)
  /\ validate_every_iterations (self_setup t)
     = default (Z.of_nat (length (train_loader (self_setup t))))
               (cfg_validate_every_iterations tc)
  /\ save_every_iterations (self_setup t)
     = default (-1) (cfg_save_every_iterations tc)
  /\ save_every_epochs (self_setup t) = default (-1) (cfg_save_every_epochs tc)
  /\ logdir (self_setup t) = dir
  /\ log (self_state t) = [].
Proof.
  intros Htc. unfold init. unfold mbind, result_bind, rbind.
  rewrite Htc. simpl.
  destruct (random_split _ _ _) as [[parts g']|]; [|discriminate].
  destruct parts as [|tr [|va [|x parts]]]; try discriminate.
  destruct (data_loader (cfg_loader cfg) tr); [|discriminate].
  destruct (data_loader (cfg_loader cfg) va); [|discriminate].
  destruct (resume_counters cfg) as [[it ep]|]; [|discriminate].
  destruct (configure_scheduler tc _); [|discriminate].
  intros H. injection H as <-. simpl. auto 10.
Qed.

(** X20. A trainer constructed from a configuration whose two save
    periods are absent (the default, [-1]) or not positive never writes a
    checkpoint, resumed or not and however long it trains: such a run
    leaves nothing to resume from. *)
Theorem X20_default_periods_write_no_checkpoint (cfg : config)
    (tc : train_cfg) (n : nat) (rng : Gen) (dir : string) (t : trainer)
    (fuel : nat) :
  cfg_train cfg = Some tc ->
  default (-1) (cfg_save_every_iterations tc) <= 0 ->
  default (-1) (cfg_save_every_epochs tc) <= 0 ->
  init cfg n rng dir = Ok t ->
  count is_save (log (train fuel (self_setup t) (self_state t)).2) = O.
Proof.
  intros Htc Hse Hsep Hinit.
  destruct (init_limits cfg tc n rng dir t Htc Hinit)
    as (_ & _ & _ & Hs1 & Hs2 & _ & Hlog).
  pose proof (init_counters _ _ _ _ _ Hinit) as Hc.
  apply resume_counters_nonneg in Hc. destruct Hc as [_ He].
  destruct (train_detail fuel (self_setup t) (self_state t))
    as (o & s' & body & Hrun & Hl & Ht).
  rewrite Hrun. simpl. rewrite Hl, Hlog. simpl.
  destruct (traced_with_ends _ _ _ _ _ o Ht) as (_ & H2 & _).
  apply (no_save_when_disabled (self_setup t) (epoch (self_state t))
           (iteration (self_state t))); [lia | lia | exact He | exact H2].
Qed.

(** ** An empty training loader *)

Lemma epoch_loop_empty (fuel : nat) (c : setup) (loc : locals) (s : state) :
  train_loader c = [] -> save_every_epochs c <= 0 ->
  iteration s < iteration_max c -> 0 <= epoch s ->
  exists o s',
    epoch_loop fuel c loc s = (o, s')
    /\ iteration s' = iteration s /\ log s' = log s
    /\ params s' = params s /\ opt s' = opt s
    /\ ((Z.to_nat (epoch_max c - epoch s) <= fuel)%nat ->
        o = Ret tt /\ epoch s' = Z.max (epoch s) (epoch_max c))
    /\ ((fuel < Z.to_nat (epoch_max c - epoch s))%nat ->
        o = OutOfFuel /\ epoch s' = epoch s + Z.of_nat fuel).
Proof.
  intros Hnil Hsep. revert loc s.
  induction fuel as [|fuel IH]; intros loc s Hit He; simpl; unfold_M.
  - assert (Hgo : (iteration s <? iteration_max c) = true)
      by (apply Z.ltb_lt; exact Hit).
    rewrite Hgo. cbn [andb].
    destruct (epoch s <? epoch_max c) eqn:Hep.
    + apply Z.ltb_lt in Hep. exists OutOfFuel, s.
      repeat (split; [reflexivity|]). split; [lia|].
      intros _. split; [reflexivity | lia].
    + apply Z.ltb_ge in Hep. exists (Ret tt), s.
      repeat (split; [reflexivity|]). split; [|lia].
      intros _. split; [reflexivity | lia].
  - assert (Hgo : (iteration s <? iteration_max c) = true)
      by (apply Z.ltb_lt; exact Hit).
    rewrite Hgo. cbn [andb].
    destruct (epoch s <? epoch_max c) eqn:Hep.
    + apply Z.ltb_lt in Hep. rewrite Hnil. simpl. unfold_M.
      unfold end_of_epoch. unfold_M. simpl.
      assert (Hno : (0 <? save_every_epochs c * (epoch s + 1)) = false)
        by (apply Z.ltb_ge; nia).
      rewrite Hno. cbn [andb].
      destruct (IH loc (set_epoch (epoch s + 1) s))
        as (o & s' & Hrun & Hi & Hl & Hp & Ho & Hret & Hout);
        [exact Hit | simpl; lia |].
      exists o, s'. split; [exact Hrun|].
      simpl in Hi, Hl, Hp, Ho, Hret, Hout.
      repeat (split; [assumption|]). split.
      * intros Hf. destruct Hret as [-> Hs']; [lia|]. split; [reflexivity | lia].
      * intros Hf. destruct Hout as [-> Hs']; [lia|]. split; [reflexivity | lia].
    + apply Z.ltb_ge in Hep. exists (Ret tt), s.
      repeat (split; [reflexivity|]). split; [|lia].
      intros _. split; [reflexivity | lia].
Qed.

(** X28. With an empty training loader (a training subset smaller than
    one batch under [drop_last], say), periodic epoch saves off and the
    iteration limit not reached, [train] makes no optimizer update and logs
    no row: the [while] loop only counts the epochs up to [epoch_max],
    one round each, so it takes exactly [epoch_max - epoch] rounds to
    finish ([10^20] with the default limit) and does not finish in
    fewer. *)
Theorem X28_empty_training_loader_spins (fuel : nat) (c : setup) (s : state) :
  train_loader c = [] -> save_every_epochs c <= 0 ->
  iteration s < iteration_max c -> 0 <= epoch s ->
  iteration (train fuel c s).2 = iteration s
  /\ params (train fuel c s).2 = params s
  /\ ((Z.to_nat (epoch_max c - epoch s) <= fuel)%nat ->
      (train fuel c s).1 = Ret tt
      /\ epoch (train fuel c s).2 = Z.max (epoch s) (epoch_max c)
      /\ log (train fuel c s).2 = (log s ++ [LogWrite; LogClose])%list)
  /\ ((fuel < Z.to_nat (epoch_max c - epoch s))%nat ->
      (train fuel c s).1 = OutOfFuel).
Proof.
  intros Hnil Hsep Hit He. unfold train. unfold_M.
  destruct (epoch_loop_empty fuel c
              {| twait := now (clock s); cur_val_loss := NaN |} (tick s)
              Hnil Hsep Hit He)
    as (o & s' & Hrun & Hi & Hl & Hp & _ & Hret & Hout).
  rewrite Hrun. simpl in Hi, Hl, Hp, Hret, Hout.
  destruct (le_lt_dec (Z.to_nat (epoch_max c - epoch s)) fuel) as [Hf | Hf].
  - destruct (Hret Hf) as [-> Hs']. simpl.
    split; [exact Hi|]. split; [exact Hp|]. split; [|lia].
    intros _. split; [reflexivity|]. split; [exact Hs'|].
    rewrite Hl, <- app_assoc. reflexivity.
  - destruct (Hout Hf) as [-> Hs']. simpl.
    split; [exact Hi|]. split; [exact Hp|]. split; [lia|].
    intros _. reflexivity.
Qed.

(** ** The timing columns *)

(** The log replayed against the clock, from the reading [n] kept in
    [twait]: each batch reads the clock four times; [twait] is the first of
    them minus the reading before it, [ttrain] the third minus the
    second. *)
Fixpoint row_times (n : nat) (evs : list event) : Prop :=
  match evs with
  | [] => True
  | Metric _ vals :: rest =>
    (vals !! 5%nat = Some (CTime (tsub (now (3 + n)) (now (2 + n))))
     /\ vals !! 6%nat = Some (CTime (tsub (now (1 + n)) (now n))))
    /\ row_times (4 + n) rest
  | _ :: rest => row_times n rest
  end.

Lemma row_times_app (n : nat) (a b : list event) :
  row_times n a -> row_times (4 * count is_record a + n) b ->
  row_times n (a ++ b).
Proof.
  revert n. induction a as [|ev a IH]; intros n Ha Hb; [exact Hb|].
  destruct ev; try (apply (IH n Ha Hb)).
  destruct Ha as [H1 Ha]. split; [exact H1|].
  apply IH; [exact Ha|].
  replace (4 * count is_record a + (4 + n))%nat
    with (4 * count is_record (Metric cols vals :: a) + n)%nat
    by (simpl; lia).
  exact Hb.
Qed.

Lemma row_times_quiet (n : nat) (evs : list event) :
  count is_record evs = O -> row_times n evs.
Proof.
  induction evs as [|ev evs IH]; intros H; [exact I|].
  destruct ev; simpl in *; try (apply IH; exact H). discriminate.
Qed.

Lemma maybe_validate_clock (c : setup) (loc : locals) (s : state) :
  exists o s' evs,
    maybe_validate c loc s = (o, s')
    /\ log s' = (log s ++ evs)%list
    /\ clock s' = clock s /\ count is_record evs = O.
Proof.
  unfold maybe_validate. unfold_M.
  destruct ((0 <? validate_every_iterations c)
            && (iteration s mod validate_every_iterations c =? 0)).
  - rewrite validate_run. destruct (val_loader c) as [|vb vbs].
    + eexists _, s, []. rewrite app_nil_r. simpl. auto.
    + simpl. destruct (scheduler s) as [sc|].
      * eexists _, _, [Validation _; SchedulerStep _].
        split; [reflexivity|]. simpl. rewrite <- app_assoc. auto.
      * eexists _, _, [Validation _]. split; [reflexivity|]. simpl. auto.
  - eexists _, s, []. rewrite app_nil_r. simpl. auto.
Qed.

Lemma maybe_save_clock (c : setup) (s : state) :
  exists o s' evs,
    maybe_save c s = (o, s')
    /\ log s' = (log s ++ evs)%list
    /\ clock s' = clock s /\ count is_record evs = O.
Proof.
  destruct (maybe_save_detail c s)
    as [[_ Hrun] | [(_ & e & Hrun & _) | (_ & f & _ & _ & Hrun)]];
    rewrite Hrun.
  - eexists _, s, []. rewrite app_nil_r. simpl. auto.
  - eexists _, s, []. rewrite app_nil_r. simpl. auto.
  - eexists _, _, [SaveState _ _]. split; [reflexivity|]. simpl. auto.
Qed.

Lemma batch_body_times (c : setup) (b : batch) (loc : locals) (s : state)
    (n : nat) :
  twait loc = now n -> clock s = S n ->
  exists o s' evs,
    batch_body c b loc s = (o, s')
    /\ log s' = (log s ++ evs)%list
    /\ row_times n evs /\ count is_record evs = 1%nat
    /\ clock s' = S (4 + n)
    /\ (forall loc' brk, o = Ret (loc', brk) -> twait loc' = now (4 + n)).
Proof.
  intros Htw Hck.
  unfold batch_body. unfold_M. unfold step. unfold_M. simpl.
  rewrite Htw, Hck.
  match goal with
  | |- context [maybe_validate c loc ?s1] => set (s1' := s1)
  end.
  assert (Hl1 : exists cols vals t p,
            log s1' = (log s ++ [OptStep; Metric cols vals; Snapshot (iteration s + 1) t p])%list
            /\ vals !! 5%nat = Some (CTime (tsub (now (3 + n)) (now (2 + n))))
            /\ vals !! 6%nat = Some (CTime (tsub (now (1 + n)) (now n)))).
  { eexists _, _, _, _. subst s1'. simpl. rewrite ?Hck.
    rewrite <- !app_assoc. split; [reflexivity|]. split; reflexivity. }
  destruct Hl1 as (cols & vals & t & p & Hl1 & Hv5 & Hv6).
  assert (Hc1 : clock s1' = S (4 + n)) by (subst s1'; simpl; rewrite ?Hck; reflexivity).
  clearbody s1'.
  assert (H1 : row_times n [OptStep; Metric cols vals; Snapshot (iteration s + 1) t p])
    by (simpl; auto).
  destruct (maybe_validate_clock c loc s1')
    as (o2 & s2 & evs2 & Hrun2 & Hl2 & Hc2 & Hq2).
  rewrite Hrun2.
  assert (H12 : row_times n ([OptStep; Metric cols vals;
                              Snapshot (iteration s + 1) t p] ++ evs2)
                /\ count is_record ([OptStep; Metric cols vals;
                              Snapshot (iteration s + 1) t p] ++ evs2) = 1%nat).
  { split; [apply row_times_app; [exact H1 | apply row_times_quiet; exact Hq2]|].
    rewrite count_app, Hq2. reflexivity. }
  destruct H12 as [H12 Hn12].
  destruct o2 as [vl|e|].
  - destruct (maybe_save_clock c s2)
      as (o3 & s3 & evs3 & Hrun3 & Hl3 & Hc3 & Hq3).
    rewrite Hrun3.
    assert (H123 : log s3 = (log s ++ ([OptStep; Metric cols vals;
                      Snapshot (iteration s + 1) t p] ++ evs2) ++ evs3)%list
                   /\ row_times n (([OptStep; Metric cols vals;
                           Snapshot (iteration s + 1) t p] ++ evs2) ++ evs3)
                   /\ count is_record (([OptStep; Metric cols vals;
                           Snapshot (iteration s + 1) t p] ++ evs2) ++ evs3) = 1%nat
                   /\ clock s3 = S (4 + n)).
    { split; [rewrite Hl3, Hl2, Hl1, <- !app_assoc; reflexivity|].
      split; [apply row_times_app; [exact H12 | apply row_times_quiet; exact Hq3]|].
      split; [rewrite count_app, Hn12, Hq3; reflexivity|].
      rewrite Hc3, Hc2. exact Hc1. }
    destruct H123 as (Ha & Hb & Hc & Hd).
    destruct o3 as [[]|e|]; eexists _, s3, _;
      (split; [reflexivity|]); (split; [exact Ha|]); (split; [exact Hb|]);
      (split; [exact Hc|]); (split; [exact Hd|]);
      intros loc' brk Heq; inversion Heq; reflexivity.
  - eexists _, s2, _. split; [reflexivity|].
    split; [rewrite Hl2, Hl1, <- !app_assoc; reflexivity|].
    split; [exact H12|]. split; [exact Hn12|].
    split; [rewrite Hc2; exact Hc1|].
    intros loc' brk Heq. discriminate Heq.
  - eexists _, s2, _. split; [reflexivity|].
    split; [rewrite Hl2, Hl1, <- !app_assoc; reflexivity|].
    split; [exact H12|]. split; [exact Hn12|].
    split; [rewrite Hc2; exact Hc1|].
    intros loc' brk Heq. discriminate Heq.
Qed.

Lemma batch_loop_times (c : setup) (batches : list batch) (loc : locals)
    (s : state) (n : nat) :
  twait loc = now n -> clock s = S n ->
  exists o s' evs,
    batch_loop c batches loc s = (o, s')
    /\ log s' = (log s ++ evs)%list
    /\ row_times n evs
    /\ clock s' = S (4 * count is_record evs + n)
    /\ (forall loc' stop, o = Ret (loc', stop) ->
          twait loc' = now (4 * count is_record evs + n)).
Proof.
  revert loc s n. induction batches as [|b bs IH]; intros loc s n Htw Hck;
    cbn [batch_loop]; unfold_M.
  - eexists _, s, []. rewrite app_nil_r. split; [reflexivity|].
    split; [reflexivity|]. split; [exact I|]. split; [exact Hck|].
    intros loc' stop Heq. inversion Heq; subst. exact Htw.
  - destruct (batch_body_times c b loc s n Htw Hck)
      as (o1 & s1 & evs1 & Hrun1 & Hl1 & Hr1 & Hn1 & Hc1 & Hret1).
    rewrite Hrun1.
    destruct o1 as [[loc1 brk]|e|].
    + pose proof (Hret1 loc1 brk eq_refl) as Htw1.
      destruct brk.
      * exists (Ret (loc1, true)), s1, evs1. rewrite Hn1.
        split; [reflexivity|]. split; [exact Hl1|]. split; [exact Hr1|].
        split; [exact Hc1|].
        intros loc' stop Heq. inversion Heq; subst. exact Htw1.
      * destruct (IH loc1 s1 (4 + n)%nat Htw1 Hc1)
          as (o2 & s2 & evs2 & Hrun2 & Hl2 & Hr2 & Hc2 & Hret2).
        exists o2, s2, (evs1 ++ evs2)%list.
        assert (Hidx : (4 * count is_record (evs1 ++ evs2) + n
                        = 4 * count is_record evs2 + (4 + n))%nat)
          by (rewrite count_app, Hn1; lia).
        rewrite Hidx.
        split; [exact Hrun2|].
        split; [rewrite Hl2, Hl1, <- app_assoc; reflexivity|].
        split; [apply row_times_app; [exact Hr1 | rewrite Hn1; exact Hr2]|].
        split; [exact Hc2 | exact Hret2].
    + exists (Raise e), s1, evs1. rewrite Hn1.
      split; [reflexivity|]. split; [exact Hl1|]. split; [exact Hr1|].
      split; [exact Hc1|]. intros loc' stop Heq. discriminate Heq.
    + exists OutOfFuel, s1, evs1. rewrite Hn1.
      split; [reflexivity|]. split; [exact Hl1|]. split; [exact Hr1|].
      split; [exact Hc1|]. intros loc' stop Heq. discriminate Heq.
Qed.

Lemma end_of_epoch_clock (c : setup) (s : state) :
  exists o s' evs,
    end_of_epoch c s = (o, s')
    /\ log s' = (log s ++ evs)%list
    /\ clock s' = clock s /\ count is_record evs = O.
Proof.
  unfold end_of_epoch, save, epoch_count. unfold_M. simpl.
  destruct ((0 <? save_every_epochs c * (epoch s + 1))
            && ((epoch s + 1) mod save_every_epochs c =? 0)).
  - destruct (train_dataset c) as [|x l].
    + eexists _, _, []. split; [reflexivity|]. simpl. rewrite app_nil_r. auto.
    + simpl.
      destruct (ckpt_path (logdir c) (iteration s) (epoch s + 1)) as [f|e].
      * eexists _, _, [SaveState f _]. split; [reflexivity|]. simpl. auto.
      * eexists _, _, []. split; [reflexivity|]. simpl.
        rewrite app_nil_r. auto.
  - eexists _, _, []. split; [reflexivity|]. simpl. rewrite app_nil_r. auto.
Qed.

Lemma epoch_loop_times (fuel : nat) (c : setup) (loc : locals) (s : state)
    (n : nat) :
  twait loc = now n -> clock s = S n ->
  exists o s' evs,
    epoch_loop fuel c loc s = (o, s')
    /\ log s' = (log s ++ evs)%list
    /\ row_times n evs.
Proof.
  revert loc s n. induction fuel as [|fuel IH]; intros loc s n Htw Hck;
    simpl; unfold_M.
  - destruct ((iteration s <? iteration_max c) && (epoch s <? epoch_max c));
      eexists _, s, []; rewrite app_nil_r; simpl; auto.
  - destruct ((iteration s <? iteration_max c) && (epoch s <? epoch_max c));
      [|eexists _, s, []; rewrite app_nil_r; simpl; auto].
    destruct (batch_loop_times c (train_loader c) loc s n Htw Hck)
      as (o1 & s1 & evs1 & Hrun1 & Hl1 & Hr1 & Hc1 & Hret1).
    rewrite Hrun1.
    destruct o1 as [[loc1 [|]]|e|]; try (eexists _, s1, evs1; auto; fail).
    pose proof (Hret1 loc1 false eq_refl) as Htw1.
    destruct (end_of_epoch_clock c s1)
      as (o2 & s2 & evs2 & Hrun2 & Hl2 & Hc2 & Hq2).
    rewrite Hrun2.
    assert (H12 : log s2 = (log s ++ evs1 ++ evs2)%list
                  /\ row_times n (evs1 ++ evs2)
                  /\ count is_record (evs1 ++ evs2) = count is_record evs1).
    { split; [rewrite Hl2, Hl1, <- app_assoc; reflexivity|].
      split; [apply row_times_app;
              [exact Hr1 | apply row_times_quiet; exact Hq2]|].
      rewrite count_app, Hq2. lia. }
    destruct H12 as (Hl12 & Hr12 & Hn12).
    destruct o2 as [[]|e|]; try (eexists _, s2, (evs1 ++ evs2)%list; auto; fail).
    destruct (IH loc1 s2 (4 * count is_record evs1 + n)%nat Htw1)
      as (o3 & s3 & evs3 & Hrun3 & Hl3 & Hr3); [congruence|].
    exists o3, s3, ((evs1 ++ evs2) ++ evs3)%list.
    split; [exact Hrun3|].
    split; [rewrite Hl3, Hl12, <- !app_assoc; reflexivity|].
    apply row_times_app; [exact Hr12 | rewrite Hn12; exact Hr3].
Qed.

(** X29. The timing columns of every row of a run are differences of
    consecutive clock readings: with the readings numbered from the one
    taken when [train] starts, the k-th batch (from 0) takes readings
    [4k+1 .. 4k+4]; its [twait] is reading [4k+1] minus reading [4k] (the
    start of [train], or the reading taken right after the previous row was
    recorded, before that batch's validation and checkpoint), and its
    [ttrain] is reading [4k+3] minus reading [4k+2]. Validation and
    checkpoints read no clock of their own, so their time is counted in
    the next row's [twait]. *)
Theorem X29_timing_columns (fuel : nat) (c : setup) (s : state) :
  exists evs,
    log (train fuel c s).2 = (log s ++ evs)%list
    /\ row_times (clock s) evs.
Proof.
  unfold train. unfold_M.
  destruct (epoch_loop_times fuel c
              {| twait := now (clock s); cur_val_loss := NaN |} (tick s)
              (clock s) eq_refl eq_refl)
    as (o & s1 & evs & Hrun & Hl & Hr).
  rewrite Hrun. simpl in Hl.
  destruct o as [[]|e|]; simpl.
  - exists (evs ++ [LogWrite; LogClose])%list.
    split; [rewrite Hl, <- !app_assoc; reflexivity|].
    apply row_times_app; [exact Hr | exact I].
  - exists evs. auto.
  - exists evs. auto.
Qed.

(** ** A full pass over the training loader *)

Lemma batch_loop_pass (c : setup) (batches : list batch) (loc : locals)
    (s : state) :
  (0 < validate_every_iterations c -> val_loader c <> []) ->
  (0 < save_every_iterations c ->
   train_dataset c <> [] /\ has_char "%" (dir_prefix (logdir c)) = false) ->
  iteration s + Z.of_nat (length batches) < iteration_max c ->
  exists loc' s' evs,
    batch_loop c batches loc s = (Ret (loc', false), s')
    /\ iteration s' = iteration s + Z.of_nat (length batches)
    /\ epoch s' = epoch s
    /\ log s' = (log s ++ evs)%list
    /\ count is_opt_step evs = length batches
    /\ Z.of_nat (count is_validation evs)
       = multiples (validate_every_iterations c) (iteration s)
                   (iteration s + Z.of_nat (length batches))
    /\ Z.of_nat (count is_save evs)
       = multiples (save_every_iterations c) (iteration s)
                   (iteration s + Z.of_nat (length batches)).
Proof.
  intros Hval Hsave. revert loc s.
  induction batches as [|b bs IH]; intros loc s Hlt.
  - exists loc, s, []. simpl. unfold_M. rewrite app_nil_r, Z.add_0_r.
    unfold multiples. repeat (split; [reflexivity|]).
    split; destruct (0 <? _); lia.
  - cbn [batch_loop]. unfold_M.
    destruct (batch_body_detail c b loc s)
      as (o1 & s1 & evs1 & Hb & Hi1 & He1 & Hl1 & Hc1 & _ & _ & Hret1 & Hok & _).
    destruct Hok as [loc1 ->].
    { intros Hd. apply Hval. apply (due_positive _ _ Hd). }
    { intros Hd. apply Hsave. apply (due_positive _ _ Hd). }
    rewrite Hb.
    destruct (Hret1 _ _ eq_refl) as (_ & _ & Hcv & Hcs).
    assert (Hcv' : Z.of_nat (count is_validation evs1)
                   = multiples (validate_every_iterations c) (iteration s)
                               (iteration s + 1)).
    { rewrite multiples_one, Hcv.
      destruct (due (validate_every_iterations c) _); reflexivity. }
    assert (Hcs' : Z.of_nat (count is_save evs1)
                   = multiples (save_every_iterations c) (iteration s)
                               (iteration s + 1)).
    { rewrite multiples_one, Hcs.
      destruct (due (save_every_iterations c) _); reflexivity. }
    cbn [length] in Hlt. rewrite Nat2Z.inj_succ in Hlt.
    assert (Hbrk : (iteration_max c <=? iteration s + 1) = false)
      by (apply Z.leb_gt; lia).
    rewrite Hbrk.
    destruct (IH loc1 s1)
      as (loc2 & s2 & evs2 & Hrun & Hi2 & He2 & Hl2 & Ho2 & Hv2 & Hs2); [lia|].
    exists loc2, s2, (evs1 ++ evs2)%list. split; [exact Hrun|].
    cbn [length]. rewrite Nat2Z.inj_succ.
    split; [lia|]. split; [congruence|].
    split; [rewrite Hl2, Hl1, <- app_assoc; reflexivity|].
    rewrite !count_app, !Nat2Z.inj_add, Hcv', Hcs', Hv2, Hs2, Ho2, Hc1, Hi1.
    rewrite (multiples_split (validate_every_iterations c) (iteration s)
               (iteration s + 1) (iteration s + Z.succ (Z.of_nat (length bs)))).
    rewrite (multiples_split (save_every_iterations c) (iteration s)
               (iteration s + 1) (iteration s + Z.succ (Z.of_nat (length bs)))).
    replace (iteration s + 1 + Z.of_nat (length bs))
      with (iteration s + Z.succ (Z.of_nat (length bs))) by lia.
    repeat split; lia.
Qed.

(** X30. With the default validation period, [len(train loader)], a
    full pass that starts at a multiple of that length (iteration 0 of a
    fresh trainer, or any later pass of the same run) and does not reach
    the iteration limit makes one optimizer update per batch, validates
    exactly once, and leaves the batch loop without [break] (checkpoints
    per iteration being off). *)
Theorem X30_default_validation_once_per_pass (c : setup) (loc : locals)
    (s : state) (k : Z) :
  validate_every_iterations c = Z.of_nat (length (train_loader c)) ->
  train_loader c <> [] -> val_loader c <> [] ->
  save_every_iterations c <= 0 ->
  0 <= k -> iteration s = k * Z.of_nat (length (train_loader c)) ->
  iteration s + Z.of_nat (length (train_loader c)) < iteration_max c ->
  exists loc' s' evs,
    batch_loop c (train_loader c) loc s = (Ret (loc', false), s')
    /\ iteration s' = (k + 1) * Z.of_nat (length (train_loader c))
    /\ log s' = (log s ++ evs)%list
    /\ count is_opt_step evs = length (train_loader c)
    /\ count is_validation evs = 1%nat
    /\ count is_save evs = O.
Proof.
  intros Hve Htl Hvl Hse Hk Hit Hlt.
  destruct (batch_loop_pass c (train_loader c) loc s)
    as (loc' & s' & evs & Hrun & Hi & _ & Hl & Ho & Hv & Hs);
    [auto | intros H; lia | exact Hlt |].
  exists loc', s', evs. split; [exact Hrun|].
  assert (Hpos : 0 < Z.of_nat (length (train_loader c)))
    by (destruct (train_loader c); [contradiction | simpl; lia]).
  split; [lia|]. split; [exact Hl|]. split; [exact Ho|].
  split.
  - apply Nat2Z.inj. rewrite Hv, Hve, Hit. unfold multiples.
    assert (H0 : (0 <? Z.of_nat (length (train_loader c))) = true)
      by (apply Z.ltb_lt; exact Hpos).
    rewrite H0.
    replace (k * Z.of_nat (length (train_loader c))
             + Z.of_nat (length (train_loader c)))
      with ((k + 1) * Z.of_nat (length (train_loader c))) by lia.
    rewrite !Z.div_mul by lia. simpl. lia.
  - apply Nat2Z.inj. rewrite Hs. unfold multiples.
    assert (H0 : (0 <? save_every_iterations c) = false)
      by (apply Z.ltb_ge; exact Hse).
    rewrite H0. reflexivity.
Qed.
End SOptimizer.

Arguments Ret {A} a.
Arguments Raise {A} e.
Arguments OutOfFuel {A}.

(** ** A concrete trainer

    The collaborators at their simplest: no parameters to learn, the loss
    of a batch is its size, the permutation is the identity, and
    [torch.optim.lr_scheduler] has two schedulers. *)

Definition toy_forward (p : unit) (b : batch) : unit * unit * Z :=
  (tt, tt, Z.of_nat (length b)).

Definition toy_has_scheduler (name : string) : bool :=
  String.eqb name "ReduceLROnPlateau" || String.eqb name "StepLR".

Definition toy_init (cfg : config) (dataset_len : nat) (logger_dir : string)
    : result (@trainer unit unit unit unit Z unit unit nat) :=
  init (fun _ => tt) (fun _ => tt) (fun _ => tt) (fun n g => (seq 0 n, g))
       toy_has_scheduler (fun _ _ _ => tt) cfg dataset_len tt logger_dir.

Definition toy_backprop (o p : unit) (b : batch) : unit * unit := (o, p).
Definition toy_scheduler_step (sc : unit) (v : Z) (o : unit) : unit * unit := (sc, o).
Definition toy_clock (n : nat) : nat := n.

Definition toy_train (fuel : nat) (c : setup)
    : @M unit unit unit Z unit unit nat unit :=
  train toy_forward toy_backprop (fun _ => tt) toy_scheduler_step
        0 Z.add Z.div toy_clock Nat.sub fuel c.

Definition toy_validate (c : setup)
    : @M unit unit unit Z unit unit nat Z :=
  validate toy_forward 0 Z.add Z.div c.

Definition no_train_cfg : train_cfg :=
  {| validation_split := None; seed := None; resume := None;
     lr_scheduler := None; max_epochs := None; max_iterations := None;
     cfg_validate_every_iterations := None;
     cfg_save_every_iterations := None; cfg_save_every_epochs := None |}.

(** The scenario of the spec: batches of 10, validation every 10
    iterations, at most 10 iterations, no checkpoint per iteration. *)
Definition scenario_cfg (split : option Q) : config :=
  {| cfg_train :=
       Some {| validation_split := split; seed := None; resume := None;
               lr_scheduler := None; max_epochs := None;
               max_iterations := Some 10;
               cfg_validate_every_iterations := Some 10;
               cfg_save_every_iterations := Some (-1);
               cfg_save_every_epochs := None |};
     cfg_model := Some ∅;
     cfg_loader := {| batch_size := Some 10; drop_last := None |} |}.

(** A configuration that asks to resume from [path]. *)
Definition resume_cfg (model : gmap string pyval) : config :=
  {| cfg_train :=
       Some {| validation_split := None; seed := None;
               resume := Some (PBool true);
               lr_scheduler := None; max_epochs := None; max_iterations := None;
               cfg_validate_every_iterations := None;
               cfg_save_every_iterations := None;
               cfg_save_every_epochs := None |};
     cfg_model := Some model;
     cfg_loader := {| batch_size := None; drop_last := None |} |}.

(** A configuration with the given [lr_scheduler] mapping. *)
Definition scheduler_cfg (lrs : gmap string pyval) : config :=
  {| cfg_train :=
       Some {| validation_split := None; seed := None; resume := None;
               lr_scheduler := Some (LrsMapping lrs); max_epochs := None;
               max_iterations := None;
               cfg_validate_every_iterations := None;
               cfg_save_every_iterations := None;
               cfg_save_every_epochs := None |};
     cfg_model := Some ∅;
     cfg_loader := {| batch_size := None; drop_last := None |} |}.

Definition toy_setup (train_batches val_batches : list batch) : setup :=
  {| train_loader := train_batches; val_loader := val_batches;
     train_dataset := concat train_batches; val_dataset := concat val_batches;
     logdir := "logs";
     epoch_max := 2; iteration_max := 5;
     validate_every_iterations := 2; save_every_iterations := 3;
     save_every_epochs := 1 |}.

Definition toy_state : @state unit unit unit Z unit unit nat :=
  {| iteration := 0; epoch := 0; params := tt; opt := tt; scheduler := None;
     clock := O; log := [] |}.

(** ** The spec's pattern, as the spec words it

    A path conforms when it contains [iteration-<digits>-epoch-<digits>.ckpt]
    with a literal dot. *)
Definition spec_conforming (path : string) : Prop :=
  exists pre d1 d2 post,
    chars path
    = (pre ++ chars "iteration-" ++ d1 ++ chars "-epoch-" ++ d2
       ++ chars ".ckpt" ++ post)%list
    /\ d1 <> [] /\ d2 <> []
    /\ forallb is_digit d1 = true /\ forallb is_digit d2 = true.

(** ** Resume parsing *)

Lemma resume_counters_of_path (cfg : config) (tc : train_cfg)
    (m : gmap string pyval) (path : string) :
  cfg_train cfg = Some tc -> truthy (default PNone (resume tc)) = true ->
  cfg_model cfg = Some m -> m !! "ckpt_file" = Some (PStr path) ->
  path <> ""%string ->
  resume_counters cfg = parse_ckpt_name path.
Proof.
  intros Htc Hres Hm Hp Hne. unfold resume_counters.
  rewrite Htc, Hm. simpl. rewrite Hres.
  unfold mbind, result_bind, rbind, dict_item. rewrite Hp. simpl.
  destruct (String.eqb path "") eqn:He; [|reflexivity].
  apply String.eqb_eq in He. contradiction.
Qed.

(** C1. With [train.resume] set and [ckpt_file] the conforming name
    [iteration-000123-epoch-0004.ckpt], the counters read are
    [(123, 4)]. But [iteration-000005-epoch-0012ckpt], which has no dot and
    so does not conform to [iteration-<digits>-epoch-<digits>.ckpt], is
    accepted as well: the unescaped [.] of the pattern takes the digit [2],
    and the counters read are [(5, 1)] instead of a failure. *)
Theorem C1_resume_parse_unescaped_dot :
  (forall cfg tc m,
     cfg_train cfg = Some tc -> truthy (default PNone (resume tc)) = true ->
     cfg_model cfg = Some m ->
     m !! "ckpt_file" = Some (PStr "iteration-000123-epoch-0004.ckpt") ->
     resume_counters cfg = Ok (123, 4))
  /\ spec_conforming "iteration-000123-epoch-0004.ckpt"
  /\ ~ spec_conforming "iteration-000005-epoch-0012ckpt"
  /\ (forall cfg tc m,
        cfg_train cfg = Some tc -> truthy (default PNone (resume tc)) = true ->
        cfg_model cfg = Some m ->
        m !! "ckpt_file" = Some (PStr "iteration-000005-epoch-0012ckpt") ->
        resume_counters cfg = Ok (5, 1)).
Proof.
  split; [|split; [|split]].
  - intros cfg tc m Htc Hres Hm Hp.
    rewrite (resume_counters_of_path cfg tc m _ Htc Hres Hm Hp) by discriminate.
    vm_compute. reflexivity.
  - exists [], (chars "000123"), (chars "0004"), [].
    repeat split; try discriminate; reflexivity.
  - intros (pre & d1 & d2 & post & Heq & _).
    assert (Hin : In "."%char (chars "iteration-000005-epoch-0012ckpt")).
    { rewrite Heq. rewrite !in_app_iff. do 5 right. left. simpl. auto. }
    simpl in Hin.
    repeat (destruct Hin as [Hin | Hin]; [discriminate Hin|]). contradiction.
  - intros cfg tc m Htc Hres Hm Hp.
    rewrite (resume_counters_of_path cfg tc m _ Htc Hres Hm Hp) by discriminate.
    vm_compute. reflexivity.
Qed.

(** ** The checkpoint name round trip *)

Lemma chars_of_list (l : list ascii) : chars (string_of_list_ascii l) = l.
Proof. apply list_ascii_of_string_of_list_ascii. Qed.

Lemma first_match_hit (r : PyRe.regex) (s : list ascii)
    (m : list (list ascii) * list ascii) :
  PyRe.match_here r s [] [] = Some m -> PyReFacts.first_match r s = Some m.
Proof. intros H. destruct s; simpl; rewrite H; reflexivity. Qed.

(** ** The claims at concrete inputs *)

Lemma C2_witness :
  let c := toy_setup [[0; 1]; [2; 3]; [4]]%nat [[5]]%nat in
  0 < iteration_max c /\ 0 < epoch_max c
  /\ 0 <= iteration toy_state /\ 0 <= epoch toy_state
  /\ exists evs,
       log (toy_train 3 c toy_state).2 = (log toy_state ++ evs)%list
       /\ Z.of_nat (count is_opt_step evs) <= iteration_max c.
Proof.
  intros c.
  assert (H1 : 0 < iteration_max c) by (simpl; lia).
  assert (H2 : 0 < epoch_max c) by (simpl; lia).
  assert (H3 : 0 <= iteration toy_state) by (simpl; lia).
  assert (H4 : 0 <= epoch toy_state) by (simpl; lia).
  repeat (split; [assumption|]).
  destruct (C2_train_respects_limits toy_forward toy_backprop (fun _ => tt)
              toy_scheduler_step 0 Z.add Z.div toy_clock Nat.sub
              3%nat c toy_state H1 H2 H3 H4) as (evs & Hl & Hu & _).
  exists evs. split; assumption.
Defined.

(** The scenario with a validation split of 5%: 95 training samples in
    10 batches, 5 validation samples in one. *)
Definition scenario_setup : setup :=
  Eval vm_compute in
    match toy_init (scenario_cfg (Some (1 # 20)%Q)) 100 "logs" with
    | Ok t => self_setup t
    | Err _ => toy_setup [] []
    end.

Lemma C3_witness :
  iteration toy_state = 0 /\ epoch toy_state = 0
  /\ (10 <= length (train_loader scenario_setup))%nat
  /\ val_loader scenario_setup <> []
  /\ validate_every_iterations scenario_setup = 10
  /\ iteration_max scenario_setup = 10
  /\ save_every_iterations scenario_setup = -1
  /\ 0 < epoch_max scenario_setup
  /\ exists evs,
       log (toy_train 1 scenario_setup toy_state).2 = (log toy_state ++ evs)%list
       /\ epoch (toy_train 1 scenario_setup toy_state).2 = 0
       /\ count is_validation evs = 1%nat.
Proof.
  assert (H3 : (10 <= length (train_loader scenario_setup))%nat)
    by (vm_compute; lia).
  assert (H4 : val_loader scenario_setup <> []) by discriminate.
  assert (H8 : 0 < epoch_max scenario_setup) by reflexivity.
  repeat (split; [first [reflexivity | assumption]|]).
  destruct (C3_scenario toy_forward toy_backprop (fun _ => tt)
              toy_scheduler_step 0 Z.add Z.div toy_clock Nat.sub
              O scenario_setup toy_state eq_refl eq_refl H3 H4 eq_refl eq_refl
              eq_refl H8) as (evs & Hl & _ & _ & He & _ & Hv & _).
  exists evs. repeat split; assumption.
Defined.

(** C3, as stated, fails: a dataset of 100 samples is split 90/10 by the
    default [validation_split], so the training loader has 9 batches of 10;
    iteration 10 is the first batch of the second epoch and training halts
    there with the epoch counter at 1. *)
Lemma C3_default_split_counterexample :
  exists t,
    toy_init (scenario_cfg None) 100 "logs" = Ok t
    /\ length (train_dataset (self_setup t)) = 90%nat
    /\ length (train_loader (self_setup t)) = 9%nat
    /\ (toy_train 2 (self_setup t) (self_state t)).1 = Ret tt
    /\ iteration (toy_train 2 (self_setup t) (self_state t)).2 = 10
    /\ epoch (toy_train 2 (self_setup t) (self_state t)).2 = 1
    /\ epoch (toy_train 2 (self_setup t) (self_state t)).2 <> 0
    /\ count is_validation (log (toy_train 2 (self_setup t) (self_state t)).2) = 1%nat
    /\ count is_save (log (toy_train 2 (self_setup t) (self_state t)).2) = O.
Proof.
  eexists. split; [vm_compute; reflexivity|].
  vm_compute. repeat split; discriminate.
Qed.

Lemma C6_witness :
  let c := toy_setup [] [[0; 1]; [2]]%nat in
  (toy_validate c toy_state).2 = toy_state
  /\ (toy_validate c toy_state).1 = Ret 1.
Proof.
  intros c.
  assert (H : val_loader c <> []) by discriminate.
  destruct (C6_validate_mean_and_frame toy_forward 0 Z.add Z.div c toy_state)
    as (Hframe & Hmean).
  split; [exact Hframe | exact (Hmean H)].
Defined.

(** C6, as stated for every state, fails: with an empty validation
    loader [validate] returns nothing, it raises [ZeroDivisionError]. *)
Lemma C6_empty_loader_counterexample :
  val_loader (toy_setup [[0]]%nat []) = []
  /\ toy_validate (toy_setup [[0]]%nat []) toy_state
     = (Raise ZeroDivisionError, toy_state)
  /\ ~ (forall c s, exists v, toy_validate c s = (Ret v, s)).
Proof.
  split; [reflexivity|]. split; [reflexivity|].
  intros H. destruct (H (toy_setup [[0]]%nat []) toy_state) as [v Hv].
  discriminate Hv.
Qed.

Lemma C7_witness :
  let lrs : gmap string pyval :=
    {["name" := PStr "CosineWarmup"; "Name" := PStr "CosineWarmup"]} in
  lrs !! "name" = Some (PStr "CosineWarmup")
  /\ toy_has_scheduler "CosineWarmup" = false
  /\ toy_init (scheduler_cfg lrs) 10 "logs"
     = Err (RuntimeError "Learning rate scheduler not available: CosineWarmup").
Proof.
  intros lrs. split; [reflexivity|]. split; [reflexivity|].
  destruct (C7_scheduler_lookup (fun _ : unit => tt) (fun _ : unit => tt)
              (fun _ => tt) (fun n (g : unit) => (seq 0 n, g))
              toy_has_scheduler (fun _ _ _ => tt)
              (Loss := Z) (Rate := unit) (Spec := unit) (Tm := nat)
              (scheduler_cfg lrs) _ lrs tt eq_refl eq_refl) as [Hbad _].
  assert (Hne : "CosineWarmup"%string <> ""%string) by discriminate.
  destruct (Hbad "CosineWarmup"%string (PStr "CosineWarmup")
              eq_refl Hne eq_refl eq_refl) as (_ & _ & Hinit).
  exact (Hinit 10%nat tt "logs"%string (seq 0 9) [9%nat] tt
           (map (fun i => [i]) (seq 0 9)) [[9%nat]] 0 0
           eq_refl eq_refl eq_refl eq_refl).
Defined.

(** C7, as stated, fails: a name that is present but empty names no
    scheduler, and the construction goes through without one. *)
Lemma C7_empty_name_counterexample :
  let lrs : gmap string pyval := {["name" := PStr ""]} in
  lrs !! "name" = Some (PStr "")
  /\ toy_has_scheduler "" = false
  /\ exists t, toy_init (scheduler_cfg lrs) 10 "logs" = Ok t
               /\ scheduler (self_state t) = None.
Proof.
  intros lrs. split; [reflexivity|]. split; [reflexivity|].
  eexists. split; [vm_compute; reflexivity | reflexivity].
Qed.

Lemma C8_witness :
  let cfg := resume_cfg {["ckpt_file" := PNone]} in
  resume_counters cfg = Ok (0, 0)
  /\ resume_counters (resume_cfg ∅) = Err (KeyError "ckpt_file").
Proof.
  intros cfg. split.
  - refine (proj1 (proj1 (C8_fresh_counters (fun _ : unit => tt)
              (fun _ : unit => tt)
              (fun _ => tt) (fun n (g : unit) => (seq 0 n, g))
              toy_has_scheduler (fun _ _ _ => tt)
              (Loss := Z) (Rate := unit) (Spec := unit) (Tm := nat)
              cfg _ eq_refl) _)).
    right. exists {["ckpt_file" := PNone]}, PNone.
    split; [reflexivity|]. split; reflexivity.
  - refine (proj1 (proj2 (C8_fresh_counters (fun _ : unit => tt)
              (fun _ : unit => tt)
              (fun _ => tt) (fun n (g : unit) => (seq 0 n, g))
              toy_has_scheduler (fun _ _ _ => tt)
              (Loss := Z) (Rate := unit) (Spec := unit) (Tm := nat)
              (resume_cfg ∅) _ eq_refl) "ckpt_file"%string eq_refl _)).
    right. split; [reflexivity|]. exists ∅. split; reflexivity.
Defined.

(** C8, as stated, fails: with [resume] set and no [ckpt_file] key in
    [cfg['model']], the construction raises [KeyError]. *)
Lemma C8_missing_key_counterexample :
  (∅ : gmap string pyval) !! "ckpt_file" = None
  /\ resume_counters (resume_cfg ∅) = Err (KeyError "ckpt_file")
  /\ toy_init (resume_cfg ∅) 10 "logs" = Err (KeyError "ckpt_file").
Proof.
  split; [reflexivity|]. split; vm_compute; reflexivity.
Qed.

(** ** More on checkpoint names *)

(** [%0<w>d] of any non-negative number, fitting the width or not: digits
    only, at least one, reading back to the number. *)
Lemma fmt_d_nonneg (w : nat) (n : Z) :
  0 <= n ->
  PyFmt.fmt_d true w n <> []
  /\ forallb is_digit (PyFmt.fmt_d true w n) = true
  /\ int_digits (PyFmt.fmt_d true w n) = n.
Proof.
  intros Hn. unfold PyFmt.fmt_d.
  assert (Hs : (n <? 0) = false) by (apply Z.ltb_ge; lia).
  rewrite Hs, Z.abs_eq by lia. cbn [length app].
  destruct (decimal_spec n Hn) as (Hv & Hd & Hne).
  rewrite forallb_app, int_digits_zeros, Hv, Hd.
  split; [|split; [|reflexivity]].
  - intros Happ. apply app_eq_nil in Happ. destruct Happ as [_ Happ].
    contradiction.
  - rewrite andb_true_r. unfold PyFmt.zeros.
    induction (w - 0 - length (decimal n))%nat as [|k IH]; [reflexivity | exact IH].
Qed.

Lemma starts_with_app (p a x : list ascii) :
  (length p <= length a)%nat ->
  PyReFacts.starts_with p (a ++ x) = PyReFacts.starts_with p a.
Proof.
  revert a. induction p as [|c p IH]; intros a Hlen; [reflexivity|].
  destruct a as [|y a]; [simpl in Hlen; lia|].
  simpl. rewrite IH by (simpl in Hlen; lia). reflexivity.
Qed.

(** Whether [p] starts inside [pre] does not depend on what follows a
    copy of [p]. *)
Lemma free_of_extend (p pre x : list ascii) :
  PyReFacts.free_of p pre p = true -> PyReFacts.free_of p pre (p ++ x) = true.
Proof.
  induction pre as [|c pre IH]; intros H; [reflexivity|].
  cbn [PyReFacts.free_of] in *. apply andb_true_iff in H. destruct H as [Hs Hf].
  rewrite (IH Hf), andb_true_r.
  rewrite app_assoc, starts_with_app; [exact Hs|].
  rewrite length_app. lia.
Qed.

Lemma parse_conforming (pre d1 d2 post : list ascii) :
  PyReFacts.free_of (chars "iteration-") pre (chars "iteration-") = true ->
  d1 <> [] -> d2 <> [] ->
  forallb is_digit d1 = true -> forallb is_digit d2 = true ->
  parse_ckpt_name
    (string_of_list_ascii
       (pre ++ chars "iteration-" ++ d1 ++ chars "-epoch-" ++ d2
        ++ chars ".ckpt" ++ post))
  = Ok (int_digits d1, int_digits d2).
Proof.
  intros Hfree H1 H2 Hd1 Hd2.
  rewrite parse_ckpt_name_first_match, chars_of_list.
  rewrite (PyReFacts.first_match_skip pre _ (free_of_extend _ _ _ Hfree)).
  rewrite (first_match_hit _ _ _
             (PyReFacts.match_written_name d1 d2 post H1 H2 Hd1 Hd2)).
  rewrite (py_int_digits d1 H1 Hd1), (py_int_digits d2 H2 Hd2). reflexivity.
Qed.

(** X1. A path that contains a name of the form
    [iteration-<digits>-epoch-<digits>.ckpt], with no [iteration-] starting
    before it, parses to the two numbers whatever the number of digits
    (leading zeros included) and whatever text follows [.ckpt]: the search
    is not anchored and its first match is taken. *)
Theorem X1_first_conforming_name_is_parsed (pre d1 d2 post : list ascii) :
  PyReFacts.free_of (chars "iteration-") pre (chars "iteration-") = true ->
  d1 <> [] -> d2 <> [] ->
  forallb is_digit d1 = true -> forallb is_digit d2 = true ->
  parse_ckpt_name
    (string_of_list_ascii
       (pre ++ chars "iteration-" ++ d1 ++ chars "-epoch-" ++ d2
        ++ chars ".ckpt" ++ post))
  = Ok (int_digits d1, int_digits d2).
Proof. apply parse_conforming. Qed.

Lemma X1_witness :
  PyReFacts.free_of (chars "iteration-") (chars "runs/old-iteration/")
    (chars "iteration-") = true
  /\ chars "0000007" <> [] /\ chars "12" <> []
  /\ forallb is_digit (chars "0000007") = true
  /\ forallb is_digit (chars "12") = true
  /\ parse_ckpt_name "runs/old-iteration/iteration-0000007-epoch-12.ckpt.bak"
     = Ok (7, 12).
Proof.
  assert (H1 : chars "0000007" <> []) by discriminate.
  assert (H2 : chars "12" <> []) by discriminate.
  repeat (split; [first [reflexivity | assumption]|]).
  exact (X1_first_conforming_name_is_parsed
           (chars "runs/old-iteration/") (chars "0000007") (chars "12")
           (chars ".bak") eq_refl H1 H2 eq_refl eq_refl).
Defined.

Lemma ckpt_path_parses (dir : string) (i e : Z) :
  0 <= i -> 0 <= e ->
  has_char "%" (dir_prefix dir) = false ->
  PyReFacts.free_of (chars "iteration-") (dir_prefix dir) (chars "iteration-")
  = true ->
  exists path, ckpt_path dir i e = Ok path /\ parse_ckpt_name path = Ok (i, e).
Proof.
  intros Hi He Hpct Hfree.
  destruct (fmt_d_nonneg 6 i Hi) as (Hn6 & Hd6 & Hv6).
  destruct (fmt_d_nonneg 4 e He) as (Hn4 & Hd4 & Hv4).
  eexists. split; [apply ckpt_path_spec; exact Hpct|].
  unfold ckpt_name.
  pose proof (parse_conforming (dir_prefix dir) _ _ [] Hfree Hn6 Hn4 Hd6 Hd4) as Hp.
  rewrite app_nil_r in Hp. rewrite Hp, Hv6, Hv4. reflexivity.
Qed.

Lemma first_match_none (s : list ascii) :
  PyReFacts.free_of (chars "iteration-") s [] = true ->
  PyReFacts.first_match (PyRe.compile (chars resume_pattern)) s = None.
Proof.
  intros H. pose proof (PyReFacts.first_match_skip s [] H) as Hs.
  rewrite app_nil_r in Hs. rewrite Hs. reflexivity.
Qed.

(** X3. Resuming from a checkpoint path in which the text [iteration-]
    does not occur fails with the [IndexError] of [findall(...)[0]]. *)
Theorem X3_resume_without_iteration_fails (cfg : config) (tc : train_cfg)
    (m : gmap string pyval) (path : string) :
  cfg_train cfg = Some tc -> truthy (default PNone (resume tc)) = true ->
  cfg_model cfg = Some m -> m !! "ckpt_file" = Some (PStr path) ->
  path <> ""%string ->
  PyReFacts.free_of (chars "iteration-") (chars path) [] = true ->
  resume_counters cfg = Err IndexError.
Proof.
  intros Htc Hres Hm Hp Hne Hfree.
  rewrite (resume_counters_of_path cfg tc m path Htc Hres Hm Hp Hne).
  rewrite parse_ckpt_name_first_match, (first_match_none _ Hfree). reflexivity.
Qed.

Lemma X3_witness :
  let cfg := resume_cfg {["ckpt_file" := PStr "weights/final.ckpt"]} in
  cfg_train cfg = Some
    {| validation_split := None; seed := None; resume := Some (PBool true);
       lr_scheduler := None; max_epochs := None; max_iterations := None;
       cfg_validate_every_iterations := None;
       cfg_save_every_iterations := None; cfg_save_every_epochs := None |}
  /\ resume_counters cfg = Err IndexError.
Proof.
  intros cfg. split; [reflexivity|].
  refine (X3_resume_without_iteration_fails cfg _
            {["ckpt_file" := PStr "weights/final.ckpt"]} "weights/final.ckpt"
            eq_refl eq_refl eq_refl eq_refl _ eq_refl).
  discriminate.
Defined.

(** The template is formatted after it is joined to the logger
    directory, so a [%d] in the directory name takes the iteration for
    itself and the formatting runs out of arguments. *)
Lemma ckpt_path_percent_d (dir : string) (a b : list ascii) (i e : Z) :
  dir_prefix dir = (a ++ chars "%d" ++ b)%list ->
  has_char "%" a = false -> has_char "%" b = false ->
  ckpt_path dir i e = Err TypeError.
Proof.
  intros Hdir Ha Hb. unfold ckpt_path.
  rewrite path_join_template, Hdir, <- !app_assoc.
  rewrite (format_plain_prefix a _ _ Ha).
  change (chars "%d" ++ b ++ chars ckpt_template)%list
    with ("%"%char :: "d"%char :: (b ++ chars ckpt_template))%list.
  cbn [PyFmt.format Ascii.eqb Bool.eqb andb negb].
  rewrite (format_plain_prefix b _ _ Hb).
  reflexivity.
Qed.

(** ** The run-level properties at concrete inputs *)

Definition plain_setup (validate_every save_every save_epochs : Z)
    (train_batches val_batches : list batch) : setup :=
  {| train_loader := train_batches; val_loader := val_batches;
     train_dataset := concat train_batches; val_dataset := concat val_batches;
     logdir := "logs";
     epoch_max := 2; iteration_max := 5;
     validate_every_iterations := validate_every;
     save_every_iterations := save_every;
     save_every_epochs := save_epochs |}.

Definition toy_state_at (i e : Z) : @state unit unit unit Z unit unit nat :=
  {| iteration := i; epoch := e; params := tt; opt := tt; scheduler := None;
     clock := O; log := [] |}.

Definition toy_locals : @locals Z nat :=
  {| twait := O; cur_val_loss := NaN |}.

Definition toy_batch_loop (c : setup) (batches : list batch)
    : @locals Z nat -> @M unit unit unit Z unit unit nat (@locals Z nat * bool) :=
  batch_loop toy_forward toy_backprop (fun _ => tt) toy_scheduler_step
             0 Z.add Z.div toy_clock Nat.sub c batches.

Definition toy_batch_body (c : setup) (b : batch)
    : @locals Z nat -> @M unit unit unit Z unit unit nat (@locals Z nat * bool) :=
  batch_body toy_forward toy_backprop (fun _ => tt) toy_scheduler_step
             0 Z.add Z.div toy_clock Nat.sub c b.

Definition toy_save (c : setup) (cnt : option Q)
    : @M unit unit unit Z unit unit nat unit :=
  save c cnt.

Lemma X8_witness :
  let c := plain_setup 2 (-1) 0 [[0; 1]; [2]]%nat [[3]]%nat in
  exists evs,
    log (toy_train 3 c toy_state).2 = (log toy_state ++ evs)%list
    /\ count is_save evs = O.
Proof.
  intros c.
  assert (H1 : save_every_iterations c <= 0) by (simpl; lia).
  assert (H2 : save_every_epochs c <= 0) by (simpl; lia).
  assert (H3 : 0 <= epoch toy_state) by (simpl; lia).
  exact (X8_no_checkpoint_when_disabled toy_forward toy_backprop (fun _ => tt)
           toy_scheduler_step 0 Z.add Z.div toy_clock Nat.sub
           3%nat c toy_state H1 H2 H3).
Defined.

Lemma X9_witness :
  let c := plain_setup 2 3 1 [[0; 1]; [2]]%nat [] in
  exists evs,
    log (toy_train 3 c toy_state).2 = (log toy_state ++ evs)%list
    /\ count is_validation evs = O /\ nan_rows evs.
Proof.
  intros c.
  assert (H : validate_every_iterations c <= 0 \/ val_loader c = [])
    by (right; reflexivity).
  exact (X9_no_validation_all_nan toy_forward toy_backprop (fun _ => tt)
           toy_scheduler_step 0 Z.add Z.div toy_clock Nat.sub
           3%nat c toy_state H).
Defined.

Lemma X11_witness :
  let c := toy_setup [[0]; [1]; [2]; [3]; [4]; [5]]%nat [[6]]%nat in
  exists loc' s' evs,
    toy_batch_loop c (train_loader c) toy_locals toy_state
    = (Ret (loc', true), s')
    /\ iteration s' = 5 /\ log s' = (log toy_state ++ evs)%list
    /\ count is_validation evs = 2%nat /\ count is_save evs = 1%nat.
Proof.
  intros c.
  assert (H1 : val_loader c <> []) by discriminate.
  assert (H2 : train_dataset c <> []) by discriminate.
  assert (H4 : iteration toy_state < iteration_max c) by (simpl; lia).
  assert (H5 : iteration_max c - iteration toy_state
               <= Z.of_nat (length (train_loader c))) by (simpl; lia).
  destruct (X11_periodic_calls_are_counted toy_forward toy_backprop
              (fun _ => tt) toy_scheduler_step 0 Z.add Z.div toy_clock Nat.sub
              c (train_loader c) toy_locals toy_state H1 H2 eq_refl H4 H5)
    as (loc' & s' & evs & Hrun & Hi & _ & Hl & _ & Hv & Hs).
  exists loc', s', evs. split; [exact Hrun|]. split; [exact Hi|].
  split; [exact Hl|].
  split; [apply Nat2Z.inj; rewrite Hv | apply Nat2Z.inj; rewrite Hs];
    reflexivity.
Defined.

Lemma X12_witness :
  let c := toy_setup [[0; 1]; [2]]%nat [[3]]%nat in
  toy_train 0 c (toy_state_at 5 1)
  = (Ret tt, add_event LogClose (add_event LogWrite (tick (toy_state_at 5 1)))).
Proof.
  intros c.
  exact (X12_train_when_already_stopped toy_forward toy_backprop (fun _ => tt)
           toy_scheduler_step 0 Z.add Z.div toy_clock Nat.sub
           O c (toy_state_at 5 1) eq_refl).
Defined.

Lemma X13_witness :
  let c := toy_setup [[0; 1]; [2]]%nat [[3]]%nat in
  exists s' evs,
    end_of_epoch c (toy_state_at 3 0) = (Ret tt, s')
    /\ epoch s' = 1 /\ log s' = evs /\ count is_save evs = 1%nat.
Proof.
  intros c.
  assert (H1 : 0 <= epoch (toy_state_at 3 0)) by (simpl; lia).
  assert (H2 : train_dataset c <> []) by discriminate.
  destruct (X13_end_of_epoch_save c (toy_state_at 3 0) H1 H2 eq_refl)
    as (s' & evs & Hrun & He & _ & Hl & Hc & _).
  exists s', evs. auto.
Defined.

Lemma X14_witness :
  let c := toy_setup [[0; 1]; [2]]%nat [] in
  exists s',
    toy_batch_body c [2]%nat toy_locals (toy_state_at 1 0)
    = (Raise ZeroDivisionError, s')
    /\ iteration s' = 2.
Proof.
  intros c.
  destruct (X14_empty_validation_loader_raises toy_forward toy_backprop
              (fun _ => tt) toy_scheduler_step 0 Z.add Z.div toy_clock Nat.sub
              c [2]%nat toy_locals (toy_state_at 1 0) eq_refl eq_refl)
    as (s' & _ & _ & _ & Hrun & Hi & _).
  exists s'. auto.
Defined.


Definition empty_cfg : config :=
  {| cfg_train := None; cfg_model := None;
     cfg_loader := {| batch_size := None; drop_last := None |} |}.

Lemma X16_witness : toy_init empty_cfg 10 "logs" = Err (KeyError "train").
Proof.
  exact (proj2 (X16_missing_train_section (fun _ => tt) (fun _ => tt)
                  (fun _ => tt) (fun n g => (seq 0 n, g)) toy_has_scheduler
                  (fun _ _ _ => tt) empty_cfg 10%nat tt "logs") eq_refl).
Defined.

Lemma X28_witness :
  let c := plain_setup 2 3 0 [] [[3]]%nat in
  (toy_train 2 c toy_state).1 = Ret tt
  /\ epoch (toy_train 2 c toy_state).2 = 2
  /\ log (toy_train 2 c toy_state).2 = [LogWrite; LogClose].
Proof.
  intros c.
  assert (H2 : save_every_epochs c <= 0) by (simpl; lia).
  assert (H3 : iteration toy_state < iteration_max c) by (simpl; lia).
  assert (H4 : 0 <= epoch toy_state) by (simpl; lia).
  destruct (X28_empty_training_loader_spins toy_forward toy_backprop
              (fun _ => tt) toy_scheduler_step 0 Z.add Z.div toy_clock Nat.sub
              2%nat c toy_state eq_refl H2 H3 H4) as (_ & _ & Hret & _).
  apply Hret. simpl. lia.
Defined.

Lemma X30_witness :
  let c := plain_setup 2 (-1) 0 [[0]; [1]]%nat [[2]]%nat in
  exists loc' s' evs,
    toy_batch_loop c (train_loader c) toy_locals toy_state
    = (Ret (loc', false), s')
    /\ iteration s' = 2 /\ log s' = (log toy_state ++ evs)%list
    /\ count is_validation evs = 1%nat.
Proof.
  intros c.
  assert (H2 : train_loader c <> []) by discriminate.
  assert (H3 : val_loader c <> []) by discriminate.
  assert (H4 : save_every_iterations c <= 0) by (simpl; lia).
  assert (H5 : 0 <= 0) by lia.
  assert (H7 : iteration toy_state + Z.of_nat (length (train_loader c))
               < iteration_max c) by (simpl; lia).
  destruct (X30_default_validation_once_per_pass toy_forward toy_backprop
              (fun _ => tt) toy_scheduler_step 0 Z.add Z.div toy_clock Nat.sub
              c toy_locals toy_state 0 eq_refl H2 H3 H4 H5 eq_refl H7)
    as (loc' & s' & evs & Hrun & Hi & Hl & _ & Hv & _).
  exists loc', s', evs. auto.
Defined.

(** ** What [save] writes *)

Definition setup_in (dir : string) (train_batches : list batch) : setup :=
  {| train_loader := train_batches; val_loader := [];
     train_dataset := concat train_batches; val_dataset := [];
     logdir := dir;
     epoch_max := 2; iteration_max := 5;
     validate_every_iterations := 2; save_every_iterations := 3;
     save_every_epochs := 1 |}.

Section SaveNames.

Context {Par Optm Sch Loss Rate Spec Tm : Type}.

(** C4. For a trainer with [0 <= iteration < 10^6] and
    [0 <= epoch < 10^4], [save] hands [model.save_state] the path made of
    the logger directory and the file name [iteration-], 6 digits that read
    as the iteration, [-epoch-], 4 digits that read as the epoch, and
    [.ckpt]; the resume parser of [__init__] applied to that file name
    gives back [(iteration, epoch)], and so it does on the whole path when
    the directory contains no [iteration-]. (The directory is taken to
    contain no [%], which the formatting would read; and with the count
    left out the training subset is taken to be non-empty, or [save] fails
    before it forms the name.) *)
Theorem C4_ckpt_name_round_trip (c : setup)
    (s : @state Par Optm Sch Loss Rate Spec Tm) (cnt : option Q) :
  0 <= iteration s < 10 ^ 6 -> 0 <= epoch s < 10 ^ 4 ->
  has_char "%" (dir_prefix (logdir c)) = false ->
  (cnt = None -> train_dataset c <> []) ->
  exists d6 d4 q,
    let name :=
      (chars "iteration-" ++ d6 ++ chars "-epoch-" ++ d4 ++ chars ".ckpt")%list
    in
    save c cnt s
    = (Ret tt,
       add_event
         (SaveState (string_of_list_ascii (dir_prefix (logdir c) ++ name)) q) s)
    /\ length d6 = 6%nat /\ length d4 = 4%nat
    /\ forallb is_digit d6 = true /\ forallb is_digit d4 = true
    /\ int_digits d6 = iteration s /\ int_digits d4 = epoch s
    /\ parse_ckpt_name (string_of_list_ascii name)
       = Ok (iteration s, epoch s)
    /\ (PyReFacts.free_of (chars "iteration-") (dir_prefix (logdir c))
          (chars "iteration-") = true ->
        parse_ckpt_name (string_of_list_ascii (dir_prefix (logdir c) ++ name))
        = Ok (iteration s, epoch s)).
Proof.
  intros Hi He Hpct Hcnt.
  destruct (fmt_d_spec 5 (iteration s) Hi) as (Hl6 & Hd6 & Hv6).
  destruct (fmt_d_spec 3 (epoch s) He) as (Hl4 & Hd4 & Hv4).
  assert (Hn6 : PyFmt.fmt_d true 6 (iteration s) <> [])
    by (intros Hn; rewrite Hn in Hl6; discriminate).
  assert (Hn4 : PyFmt.fmt_d true 4 (epoch s) <> [])
    by (intros Hn; rewrite Hn in Hl4; discriminate).
  exists (PyFmt.fmt_d true 6 (iteration s)), (PyFmt.fmt_d true 4 (epoch s)).
  eexists. cbv zeta.
  split.
  { apply save_writes; [exact Hcnt|].
    rewrite (ckpt_path_spec _ _ _ Hpct). reflexivity. }
  repeat (split; [assumption|]).
  split.
  - pose proof (parse_conforming [] _ _ [] eq_refl Hn6 Hn4 Hd6 Hd4) as Hp.
    rewrite app_nil_r, app_nil_l in Hp. rewrite Hp, Hv6, Hv4.
    reflexivity.
  - intros Hfree.
    pose proof (parse_conforming (dir_prefix (logdir c)) _ _ [] Hfree Hn6 Hn4
                  Hd6 Hd4) as Hp.
    rewrite app_nil_r in Hp. rewrite Hp, Hv6, Hv4. reflexivity.
Qed.

(** X2. The round trip does not depend on the padding: for all counters
    [0 <= iteration] and [0 <= epoch], however many digits they take,
    [save] under a logger directory with no [%] and no [iteration-] in it
    hands [model.save_state] a path that the resume parser reads back as
    [(iteration, epoch)]. *)
Theorem X2_round_trip_any_counters (c : setup)
    (s : @state Par Optm Sch Loss Rate Spec Tm) (cnt : option Q) :
  0 <= iteration s -> 0 <= epoch s ->
  has_char "%" (dir_prefix (logdir c)) = false ->
  PyReFacts.free_of (chars "iteration-") (dir_prefix (logdir c))
    (chars "iteration-") = true ->
  (cnt = None -> train_dataset c <> []) ->
  exists path q,
    save c cnt s = (Ret tt, add_event (SaveState path q) s)
    /\ parse_ckpt_name path = Ok (iteration s, epoch s).
Proof.
  intros Hi He Hpct Hfree Hcnt.
  destruct (ckpt_path_parses (logdir c) (iteration s) (epoch s)
              Hi He Hpct Hfree) as (path & Hpath & Hparse).
  exists path. eexists. split; [|exact Hparse].
  apply save_writes; assumption.
Qed.

(** X4. [save] formats the template after joining it to the logger
    directory, so when the directory name contains one [%d] (and no other
    [%]) the format string has three conversions for two arguments:
    whenever [save] gets as far as forming the name (a count is passed, or
    the training subset is not empty) it fails with [TypeError], whatever
    the counters, and nothing is written. With the count left out and an
    empty training subset the division by [len(dataset)] fails first. *)
Theorem X4_percent_d_in_logdir (c : setup)
    (s : @state Par Optm Sch Loss Rate Spec Tm) (cnt : option Q)
    (a b : list ascii) :
  dir_prefix (logdir c) = (a ++ chars "%d" ++ b)%list ->
  has_char "%" a = false -> has_char "%" b = false ->
  ((cnt = None -> train_dataset c <> []) ->
   save c cnt s = (Raise TypeError, s))
  /\ (cnt = None -> train_dataset c = [] ->
      save c cnt s = (Raise ZeroDivisionError, s)).
Proof.
  intros Hdir Ha Hb. split.
  - intros Hcnt. apply save_fails; [exact Hcnt|].
    apply (ckpt_path_percent_d _ a b); assumption.
  - intros -> Hd. apply save_empty_dataset. exact Hd.
Qed.

End SaveNames.

Lemma C4_witness :
  let c := toy_setup [[0; 1]; [2]]%nat [[3]]%nat in
  exists d6 d4 q,
    toy_save c None (toy_state_at 123 4)
    = (Ret tt,
       add_event
         (SaveState
            (string_of_list_ascii
               (chars "logs/" ++ chars "iteration-" ++ d6 ++ chars "-epoch-"
                ++ d4 ++ chars ".ckpt")) q)
         (toy_state_at 123 4))
    /\ int_digits d6 = 123 /\ int_digits d4 = 4
    /\ parse_ckpt_name
         (string_of_list_ascii
            (chars "logs/" ++ chars "iteration-" ++ d6 ++ chars "-epoch-"
             ++ d4 ++ chars ".ckpt"))
       = Ok (123, 4).
Proof.
  intros c.
  assert (H1 : 0 <= iteration (toy_state_at 123 4) < 10 ^ 6) by (simpl; lia).
  assert (H2 : 0 <= epoch (toy_state_at 123 4) < 10 ^ 4) by (simpl; lia).
  assert (H5 : @None Q = None -> train_dataset c <> [])
    by (intros _; discriminate).
  destruct (C4_ckpt_name_round_trip c (toy_state_at 123 4) None H1 H2
              eq_refl H5)
    as (d6 & d4 & q & Hsave & _ & _ & _ & _ & Hv6 & Hv4 & _ & Hparse).
  exists d6, d4, q.
  split; [exact Hsave|]. split; [exact Hv6|]. split; [exact Hv4|].
  exact (Hparse eq_refl).
Defined.

Lemma X2_witness :
  let c := toy_setup [[0; 1]; [2]]%nat [[3]]%nat in
  exists path q,
    toy_save c None (toy_state_at 12345678 123456)
    = (Ret tt, add_event (SaveState path q) (toy_state_at 12345678 123456))
    /\ parse_ckpt_name path = Ok (12345678, 123456).
Proof.
  intros c.
  assert (H1 : 0 <= iteration (toy_state_at 12345678 123456)) by (simpl; lia).
  assert (H2 : 0 <= epoch (toy_state_at 12345678 123456)) by (simpl; lia).
  assert (H5 : @None Q = None -> train_dataset c <> [])
    by (intros _; discriminate).
  exact (X2_round_trip_any_counters c (toy_state_at 12345678 123456) None
           H1 H2 eq_refl eq_refl H5).
Defined.

Lemma X4_witness :
  let c := setup_in "runs/lr%dx" [[0; 1]; [2]]%nat in
  toy_save c None (toy_state_at 5 0) = (Raise TypeError, toy_state_at 5 0)
  /\ toy_save (setup_in "runs/lr%dx" []) None (toy_state_at 5 0)
     = (Raise ZeroDivisionError, toy_state_at 5 0).
Proof.
  intros c. split.
  - refine (proj1 (X4_percent_d_in_logdir c (toy_state_at 5 0) None
                     (chars "runs/lr") (chars "x/") eq_refl eq_refl eq_refl) _).
    intros _. discriminate.
  - exact (proj2 (X4_percent_d_in_logdir (setup_in "runs/lr%dx" [])
                    (toy_state_at 5 0) None
                    (chars "runs/lr") (chars "x/") eq_refl eq_refl eq_refl)
                 eq_refl eq_refl).
Defined.

Lemma C10_witness :
  let c := toy_setup [[0; 1]; [2]]%nat [[3]]%nat in
  let s := toy_state_at 3 0 in
  exists f_epoch f_iter q,
    end_of_epoch c s
    = (Ret tt, add_event (SaveState f_epoch q) (set_epoch 1 s))
    /\ maybe_save c s = (Ret tt, add_event (SaveState f_iter q) s)
    /\ q = Qmake 3 3.
Proof.
  intros c s.
  assert (Hne : train_dataset c <> []) by discriminate.
  destruct (C10_epoch_save_count_is_default c s) as (_ & _ & Hboth).
  destruct (Hboth "logs/iteration-000003-epoch-0001.ckpt"%string
                  "logs/iteration-000003-epoch-0000.ckpt"%string
                  eq_refl eq_refl Hne eq_refl eq_refl) as [He Hi].
  eexists _, _, _. split; [exact He|]. split; [exact Hi | reflexivity].
Defined.

(** ** Checkpoints written by a run can be resumed from *)

Section Resuming.

Context {Par Optm Sch Loss Rate Spec Tm : Type}.
Variable forward : Par -> batch -> Spec * Spec * Loss.
Variable backprop : Optm -> Par -> batch -> Optm * Par.
Variable get_lr : Optm -> Rate.
Variable scheduler_step : Sch -> Loss -> Optm -> Sch * Optm.
Variable lzero : Loss.
Variable ladd : Loss -> Loss -> Loss.
Variable ldiv : Loss -> Z -> Loss.
Variable now : nat -> Tm.
Variable tsub : Tm -> Tm -> Tm.

(** The log replayed from iteration [i]: every checkpoint's file name
    parses back to the iteration current when it was written and to an
    epoch not below [lo]. *)
Fixpoint resumes (lo i : Z) (evs : list (@event Loss Rate Spec Tm)) : Prop :=
  match evs with
  | [] => True
  | OptStep :: rest => resumes lo (i + 1) rest
  | SaveState f _ :: rest =>
    (exists e, lo <= e /\ parse_ckpt_name f = Ok (i, e)) /\ resumes lo i rest
  | _ :: rest => resumes lo i rest
  end.

Lemma saves_resume (c : setup) (lo i : Z)
    (evs : list (@event Loss Rate Spec Tm)) :
  0 <= lo -> 0 <= i ->
  has_char "%" (dir_prefix (logdir c)) = false ->
  PyReFacts.free_of (chars "iteration-") (dir_prefix (logdir c))
    (chars "iteration-") = true ->
  saves_explained c lo i evs -> resumes lo i evs.
Proof.
  intros Hlo Hi Hpct Hfree. revert i Hi.
  induction evs as [|ev evs IH]; intros i Hi H; [exact I|].
  destruct ev; simpl in *; try (apply IH; [lia | exact H]).
  destruct H as [(_ & e & Hp & Hwhy) H]. split; [|apply IH; assumption].
  exists e.
  assert (He : lo <= e) by (destruct Hwhy as [[? _] | [? _]]; lia).
  split; [exact He|].
  destruct (ckpt_path_parses (logdir c) i e Hi) as (path & Hp' & Hparse);
    [lia | assumption | assumption |].
  rewrite Hp in Hp'. injection Hp' as ->. exact Hparse.
Qed.

(** X21. Every checkpoint that a run writes can be resumed from: under a
    logger directory with no [%] and no [iteration-] in it, and from
    non-negative counters, the name of each checkpoint in the log parses
    back, by the resume code of [__init__], to the iteration at which it
    was written and to an epoch not below the starting one, however large
    the counters have grown. *)
Theorem X21_written_checkpoints_resume (fuel : nat) (c : setup)
    (s : @state Par Optm Sch Loss Rate Spec Tm) :
  0 <= iteration s -> 0 <= epoch s ->
  has_char "%" (dir_prefix (logdir c)) = false ->
  PyReFacts.free_of (chars "iteration-") (dir_prefix (logdir c))
    (chars "iteration-") = true ->
  exists evs,
    log (train forward backprop get_lr scheduler_step lzero ladd ldiv now tsub
               fuel c s).2
    = (log s ++ evs)%list
    /\ resumes (epoch s) (iteration s) evs.
Proof.
  intros Hi He Hpct Hfree.
  destruct (train_detail forward backprop get_lr scheduler_step lzero ladd
              ldiv now tsub fuel c s) as (o & s' & body & Hrun & Hl & Ht).
  rewrite Hrun. simpl. eexists. split; [exact Hl|].
  apply (saves_resume c); try assumption.
  apply (traced_with_ends c (epoch s) (iteration s) NaN body o Ht).
Qed.

End Resuming.

Lemma X21_witness :
  let c := toy_setup [[0; 1]; [2]]%nat [[3]]%nat in
  exists evs,
    log (toy_train 3 c toy_state).2 = (log toy_state ++ evs)%list
    /\ resumes 0 0 evs.
Proof.
  intros c.
  assert (H1 : 0 <= iteration toy_state) by (simpl; lia).
  assert (H2 : 0 <= epoch toy_state) by (simpl; lia).
  exact (X21_written_checkpoints_resume toy_forward toy_backprop (fun _ => tt)
           toy_scheduler_step 0 Z.add Z.div toy_clock Nat.sub
           3%nat c toy_state H1 H2 eq_refl eq_refl).
Defined.

(** * bin/train-siren-toymc.py: [main]

    The command-line options are merged into the configuration read from
    the file, section by section, before [SOptimizer(cfg)] is built and
    trained. An option left out is [None]. *)

(** Values of [train.optimizer_param]: a float, or anything else. *)
Inductive yaml :=
| YPy (v : pyval)
| YFloat (q : Q).

Record args := {
  arg_device : pyval;
  arg_dataset_path : pyval;
  arg_dataset_size : pyval;
  arg_lr : option Q;
  arg_schedule_lr : pyval;
  arg_resume : pyval;
  arg_max_epochs : option Z;
  arg_max_iterations : option Z;
  arg_ckpt_file : pyval;
  arg_logdir : pyval
}.

(** The [train] section of the file: the keys that [SOptimizer] reads, and
    the [optimizer_param] mapping. *)
Record train_section := {
  ts_keys : train_cfg;
  ts_optimizer_param : option (gmap string yaml)
}.

(** The configuration as loaded from [config_file]. *)
Record file_cfg := {
  file_train : option train_section;
  file_model : option (gmap string pyval);
  file_logger : option (gmap string pyval);
  file_device : option (gmap string pyval);
  file_loader : loader_cfg
}.

(** The configuration that [main] hands to [SOptimizer]. *)
Record merged_cfg := {
  m_train : train_cfg;
  m_optimizer_param : gmap string yaml;
  m_model : gmap string pyval;
  m_logger : gmap string pyval;
  m_device : gmap string pyval;
  m_loader : loader_cfg
}.

Definition truthy_int (z : option Z) : bool :=
  match z with Some z => negb (z =? 0) | None => false end.

Definition truthy_float (q : option Q) : bool :=
  match q with Some q => negb (Qeq_bool q (0 # 1)) | None => false end.

(** Truth value of [d.get(k)] for a mapping-valued key. *)
Definition truthy_dict {V} (d : option (gmap string V)) : bool :=
  match d with Some m => negb (size m =? 0)%nat | None => false end.

(** Truth value of [cfg['train'].get('lr_scheduler')]. *)
Definition truthy_lrs (v : option lrs_value) : bool :=
  match v with
  | Some (LrsMapping m) => negb (size m =? 0)%nat
  | Some (LrsScalar v) => truthy v
  | None => false
  end.

(** [if v: cfg_update[k] = v], then [d.update(cfg_update)]. *)
Definition update_if {V} (b : bool) (k : string) (v : V) (d : gmap string V)
    : gmap string V :=
  if b then <[k := v]> d else d.

(** Lines 70-76. *)
Definition update_train (a : args) (tc : train_cfg) : train_cfg :=
  {| validation_split := validation_split tc;
     seed := seed tc;
     resume := if truthy (arg_resume a) then Some (arg_resume a) else resume tc;
     lr_scheduler := lr_scheduler tc;
     max_epochs :=
       if truthy_int (arg_max_epochs a) then arg_max_epochs a else max_epochs tc;
     max_iterations :=
       if truthy_int (arg_max_iterations a) then arg_max_iterations a
       else max_iterations tc;
     cfg_validate_every_iterations := cfg_validate_every_iterations tc;
     cfg_save_every_iterations := cfg_save_every_iterations tc;
     cfg_save_every_epochs := cfg_save_every_epochs tc |}.

(** [cfg['train'].pop('lr_scheduler')] *)
Definition pop_lr_scheduler (tc : train_cfg) : train_cfg :=
  {| validation_split := validation_split tc;
     seed := seed tc;
     resume := resume tc;
     lr_scheduler := None;
     max_epochs := max_epochs tc;
     max_iterations := max_iterations tc;
     cfg_validate_every_iterations := cfg_validate_every_iterations tc;
     cfg_save_every_iterations := cfg_save_every_iterations tc;
     cfg_save_every_epochs := cfg_save_every_epochs tc |}.

Definition is_none (v : pyval) : bool :=
  match v with PNone => true | _ => false end.

(** Lines 70-103 of [main]. *)
Definition main_cfg (a : args) (f : file_cfg) : merged_cfg :=
  let ts := default {| ts_keys := no_train_cfg; ts_optimizer_param := None |}
                    (file_train f) in
  let train_cfg := update_train a (ts_keys ts) in
  let optim_cfg :=
    update_if (truthy_float (arg_lr a)) "lr"
              (YFloat (default (0 # 1)%Q (arg_lr a)))
              (default ∅ (ts_optimizer_param ts)) in
  let model_cfg :=
    update_if (truthy (arg_ckpt_file a)) "ckpt_file" (arg_ckpt_file a)
              (default ∅ (file_model f)) in
  let logger_cfg :=
    update_if (truthy (arg_logdir a)) "dir_name" (arg_logdir a)
              (default ∅ (file_logger f)) in
  let device_cfg :=
    update_if (truthy (arg_device a)) "type" (arg_device a)
              (default ∅ (file_device f)) in
  let train_cfg :=
    if negb (is_none (arg_schedule_lr a))
       && negb (truthy (arg_schedule_lr a))
       && truthy_lrs (lr_scheduler train_cfg)
    then pop_lr_scheduler train_cfg
    else train_cfg in
  {| m_train := train_cfg; m_optimizer_param := optim_cfg;
     m_model := model_cfg; m_logger := logger_cfg; m_device := device_cfg;
     m_loader := file_loader f |}.

(** The part of the merged configuration that [SOptimizer] reads. *)
Definition to_config (m : merged_cfg) : config :=
  {| cfg_train := Some (m_train m);
     cfg_model := Some (m_model m);
     cfg_loader := m_loader m |}.

(** The file's configuration with every missing section made empty. *)
Definition completed (f : file_cfg) : merged_cfg :=
  {| m_train :=
       match file_train f with Some ts => ts_keys ts | None => no_train_cfg end;
     m_optimizer_param :=
       match file_train f with
       | Some ts => default ∅ (ts_optimizer_param ts)
       | None => ∅
       end;
     m_model := default ∅ (file_model f);
     m_logger := default ∅ (file_logger f);
     m_device := default ∅ (file_device f);
     m_loader := file_loader f |}.

(** An option that [main] passes over: left out, or given a value that is
    false in a condition. *)
Definition passed_over (a : args) : Prop :=
  truthy (arg_device a) = false
  /\ truthy_float (arg_lr a) = false
  /\ truthy (arg_resume a) = false
  /\ truthy_int (arg_max_epochs a) = false
  /\ truthy_int (arg_max_iterations a) = false
  /\ truthy (arg_ckpt_file a) = false
  /\ truthy (arg_logdir a) = false
  /\ (arg_schedule_lr a = PNone \/ truthy (arg_schedule_lr a) = true).

Lemma train_cfg_eta (tc : train_cfg) :
  {| validation_split := validation_split tc; seed := seed tc;
     resume := resume tc; lr_scheduler := lr_scheduler tc;
     max_epochs := max_epochs tc; max_iterations := max_iterations tc;
     cfg_validate_every_iterations := cfg_validate_every_iterations tc;
     cfg_save_every_iterations := cfg_save_every_iterations tc;
     cfg_save_every_epochs := cfg_save_every_epochs tc |} = tc.
Proof. destruct tc. reflexivity. Qed.

(** X22. Options that are left out or false in a condition change
    nothing: [--resume=False] does not switch off a resume that the file
    asks for, [--max_epochs=0] and [--lr=0] cannot be requested, and
    [--schedule_lr=True] does not add a scheduler. [dataset_path] and
    [dataset_size] are never read, whatever their value. The configuration
    handed to [SOptimizer] is then the file's, with every missing section
    made empty. *)
Theorem X22_options_without_effect (a : args) (f : file_cfg) :
  passed_over a -> main_cfg a f = completed f.
Proof.
  intros (Hd & Hlr & Hr & Hme & Hmi & Hck & Hlg & Hs).
  unfold main_cfg, completed, update_train, update_if.
  rewrite Hd, Hlr, Hr, Hme, Hmi, Hck, Hlg.
  assert (Hpop : negb (is_none (arg_schedule_lr a))
                 && negb (truthy (arg_schedule_lr a)) = false).
  { destruct Hs as [-> | ->]; [reflexivity | apply andb_false_r]. }
  rewrite Hpop. cbn [andb].
  destruct (file_train f) as [ts|]; cbn [default]; [|reflexivity].
  rewrite train_cfg_eta. reflexivity.
Qed.

Section MainScript.

Context {Par Optm Sch Gen Loss Rate Spec Tm : Type}.
Variable model_init : Gen -> Par.
Variable optimizer_factory : Par -> Optm.
Variable manual_seed : Z -> Gen.
Variable randperm : nat -> Gen -> list nat * Gen.
Variable has_scheduler : string -> bool.
Variable make_scheduler : string -> gmap string pyval -> Optm -> Sch.
Variable forward : Par -> batch -> Spec * Spec * Loss.
Variable backprop : Optm -> Par -> batch -> Optm * Par.
Variable get_lr : Optm -> Rate.
Variable scheduler_step : Sch -> Loss -> Optm -> Sch * Optm.
Variable lzero : Loss.
Variable ladd : Loss -> Loss -> Loss.
Variable ldiv : Loss -> Z -> Loss.
Variable now : nat -> Tm.
Variable tsub : Tm -> Tm -> Tm.

(** [sopt = SOptimizer(cfg)] on the merged configuration. *)
Definition main_sopt (a : args) (f : file_cfg) (dataset_len : nat)
    (global_rng : Gen) (logger_dir : string)
    : result (@trainer Par Optm Sch Gen Loss Rate Spec Tm) :=
  init model_init optimizer_factory manual_seed randperm has_scheduler
       make_scheduler (to_config (main_cfg a f)) dataset_len global_rng
       logger_dir.

(** [main]: merge, construct, train. *)
Definition main (a : args) (f : file_cfg) (dataset_len : nat)
    (global_rng : Gen) (logger_dir : string) (fuel : nat)
    : result (outcome unit * @state Par Optm Sch Loss Rate Spec Tm) :=
  sopt ← main_sopt a f dataset_len global_rng logger_dir;
  Ok (train forward backprop get_lr scheduler_step lzero ladd ldiv now tsub
            fuel (self_setup sopt) (self_state sopt)).

Lemma main_train_keys (a : args) (f : file_cfg) :
  let tc := m_train (main_cfg a f) in
  (truthy (arg_resume a) = true -> resume tc = Some (arg_resume a))
  /\ (truthy_int (arg_max_epochs a) = true -> max_epochs tc = arg_max_epochs a)
  /\ (truthy_int (arg_max_iterations a) = true ->
      max_iterations tc = arg_max_iterations a)
  /\ (is_none (arg_schedule_lr a) = false ->
      truthy (arg_schedule_lr a) = false ->
      truthy_lrs (lr_scheduler tc) = false).
Proof.
  unfold main_cfg, update_train. cbn [m_train lr_scheduler].
  set (ts := default _ (file_train f)).
  destruct (negb (is_none (arg_schedule_lr a))
            && negb (truthy (arg_schedule_lr a))
            && truthy_lrs (lr_scheduler (ts_keys ts))) eqn:Hpop;
    cbn [resume max_epochs max_iterations lr_scheduler pop_lr_scheduler].
  - do 3 (split; [intros ->; reflexivity|]). intros _ _. reflexivity.
  - do 3 (split; [intros ->; reflexivity|]).
    intros Hn Hf. rewrite Hn, Hf in Hpop. exact Hpop.
Qed.

(** X23. With [--schedule_lr=False] (any value that is not [None] and
    is false in a condition) the trainer that [main] builds has no
    learning-rate scheduler, whatever the file configures, and the
    scheduler lookup cannot make the construction fail. *)
Theorem X23_schedule_lr_false_removes_the_scheduler (a : args) (f : file_cfg)
    (n : nat) (rng : Gen) (dir : string)
    (t : @trainer Par Optm Sch Gen Loss Rate Spec Tm) :
  is_none (arg_schedule_lr a) = false ->
  truthy (arg_schedule_lr a) = false ->
  main_sopt a f n rng dir = Ok t ->
  scheduler (self_state t) = None.
Proof.
  intros Hn Hf Hinit.
  destruct (main_train_keys a f) as (_ & _ & _ & Hlrs).
  specialize (Hlrs Hn Hf).
  pose proof (init_scheduler model_init optimizer_factory manual_seed randperm
                has_scheduler make_scheduler (to_config (main_cfg a f))
                (m_train (main_cfg a f)) n rng dir t eq_refl Hinit)
    as Hs.
  cbn [to_config cfg_train] in Hs.
  unfold configure_scheduler in Hs.
  destruct (lr_scheduler (m_train (main_cfg a f))) as [[m|v]|];
    simpl in Hlrs, Hs.
  - apply negb_false_iff, Nat.eqb_eq, map_size_empty_inv in Hlrs.
    rewrite Hlrs in Hs. unfold dict_get in Hs. rewrite lookup_empty in Hs.
    simpl in Hs. injection Hs as <-. reflexivity.
  - discriminate Hs.
  - injection Hs as <-. reflexivity.
Qed.

(** X24. [main(resume=True, ckpt_file=path)] with the path that [save]
    wrote at counters [(i, e)] builds a trainer that continues from
    iteration [i] and epoch [e], whatever checkpoint the file names. *)
Theorem X24_resume_from_the_option (a : args) (f : file_cfg) (n : nat)
    (rng : Gen) (dir written : string) (i e : Z) (path : string)
    (t : @trainer Par Optm Sch Gen Loss Rate Spec Tm) :
  truthy (arg_resume a) = true ->
  arg_ckpt_file a = PStr path ->
  0 <= i -> 0 <= e ->
  has_char "%" (dir_prefix written) = false ->
  PyReFacts.free_of (chars "iteration-") (dir_prefix written)
    (chars "iteration-") = true ->
  ckpt_path written i e = Ok path ->
  main_sopt a f n rng dir = Ok t ->
  iteration (self_state t) = i /\ epoch (self_state t) = e.
Proof.
  intros Hres Hck Hi He Hpct Hfree Hpath Hinit.
  destruct (ckpt_path_parses written i e Hi He Hpct Hfree)
    as (path' & Hp' & Hparse).
  rewrite Hpath in Hp'. injection Hp' as <-.
  assert (Hne : path <> ""%string).
  { intros ->. vm_compute in Hparse. discriminate Hparse. }
  assert (Htr : truthy (arg_ckpt_file a) = true).
  { rewrite Hck. simpl. destruct (String.eqb path "") eqn:E; [|reflexivity].
    apply String.eqb_eq in E. contradiction. }
  destruct (main_train_keys a f) as (Hr & _).
  specialize (Hr Hres).
  pose proof (init_counters model_init optimizer_factory manual_seed randperm
                has_scheduler make_scheduler _ n rng dir t Hinit) as Hc.
  rewrite (resume_counters_of_path (to_config (main_cfg a f))
             (m_train (main_cfg a f)) (m_model (main_cfg a f)) path) in Hc.
  - rewrite Hparse in Hc. injection Hc as <- <-. auto.
  - reflexivity.
  - rewrite Hr. exact Hres.
  - reflexivity.
  - unfold main_cfg, update_if. cbn [m_model]. rewrite Htr, Hck.
    apply lookup_insert_eq.
  - exact Hne.
Qed.

(** X25. [main] always hands [SOptimizer] a [train] and a [model]
    section, so a [KeyError] raised by the construction's own lookups never
    names [train] or [model]; it names [ckpt_file] only when resume is
    asked for and neither the option nor the file gives a checkpoint. *)
Theorem X25_key_errors_through_main (a : args) (f : file_cfg) (n : nat)
    (rng : Gen) (dir : string) (fuel : nat) (k : string) :
  main a f n rng dir fuel = Err (KeyError k) ->
  k <> "train"%string /\ k <> "model"%string
  /\ (k = "ckpt_file"%string ->
      truthy (default PNone (resume (m_train (main_cfg a f)))) = true
      /\ truthy (arg_ckpt_file a) = false
      /\ default ∅ (file_model f) !! "ckpt_file" = None).
Proof.
  unfold main, main_sopt. unfold mbind, result_bind, rbind.
  destruct (init _ _ _ _ _ _ _ _ _ _) as [t|e] eqn:Hinit; [discriminate|].
  intros H. injection H as ->.
  pose proof (init_counters_error model_init optimizer_factory manual_seed
                randperm has_scheduler make_scheduler
                (to_config (main_cfg a f)) (m_train (main_cfg a f))
                n rng dir _ Hinit eq_refl) as Hwhy.
  apply init_key_error in Hinit.
  destruct Hinit as [[_ H] | [[_ H] | [(-> & m & Hm & Hk) | [-> _]]]];
    [discriminate H | discriminate H | |
     repeat split; discriminate].
  split; [discriminate|]. split; [discriminate|]. intros _.
  cbn [to_config cfg_model] in Hm. injection Hm as <-.
  split; [apply Hwhy; reflexivity|].
  unfold main_cfg, update_if in Hk. cbn [m_model] in Hk.
  destruct (truthy (arg_ckpt_file a)).
  - rewrite lookup_insert_eq in Hk. discriminate Hk.
  - auto.
Qed.

(** X26. Non-zero [--max_epochs] and [--max_iterations] options become
    the limits of the trainer that [main] builds, whatever the file says;
    a negative one is taken as it is. *)
Theorem X26_limits_from_the_options (a : args) (f : file_cfg) (n : nat)
    (rng : Gen) (dir : string) (me mi : Z)
    (t : @trainer Par Optm Sch Gen Loss Rate Spec Tm) :
  arg_max_epochs a = Some me -> me <> 0 ->
  arg_max_iterations a = Some mi -> mi <> 0 ->
  main_sopt a f n rng dir = Ok t ->
  epoch_max (self_setup t) = me /\ iteration_max (self_setup t) = mi.
Proof.
  intros Hme Hme0 Hmi Hmi0 Hinit.
  destruct (main_train_keys a f) as (_ & He & Hi & _).
  assert (T1 : truthy_int (arg_max_epochs a) = true).
  { rewrite Hme. simpl. apply negb_true_iff, Z.eqb_neq. exact Hme0. }
  assert (T2 : truthy_int (arg_max_iterations a) = true).
  { rewrite Hmi. simpl. apply negb_true_iff, Z.eqb_neq. exact Hmi0. }
  destruct (init_limits model_init optimizer_factory manual_seed randperm
              has_scheduler make_scheduler (to_config (main_cfg a f))
              (m_train (main_cfg a f)) n rng dir t eq_refl Hinit)
    as (E1 & E2 & _).
  cbn [to_config cfg_train] in E1, E2.
  rewrite (He T1), Hme in E1. rewrite (Hi T2), Hmi in E2. auto.
Qed.

End MainScript.

(** ** The device

    Lines 37-40 of [SOptimizer.__init__], on the [device] section that
    lines 96-100 of [main] prepare. *)

Section Device.

Context {Dev : Type}.
(** [get_device(type)] and the device picked when none is configured. *)
Variable get_device : pyval -> Dev.
Variable default_device : Dev.

Definition select_device (device_cfg : option (gmap string pyval))
    : result Dev :=
  if truthy_dict device_cfg then
    ty ← dict_item (default ∅ device_cfg) "type";
    Ok (get_device ty)
  else Ok default_device.

(** X27. The device of the trainer that [main] builds: a [--device]
    option that is true in a condition decides it, whatever the file says,
    and the lookup of [type] cannot fail; with the option passed over it is
    what the file's [device] section alone selects, the default device when
    that section is missing or empty. *)
Theorem X27_device_through_main (a : args) (f : file_cfg) :
  select_device (Some (m_device (main_cfg a f)))
  = if truthy (arg_device a) then Ok (get_device (arg_device a))
    else select_device (file_device f).
Proof.
  unfold main_cfg, update_if, select_device, truthy_dict. cbn [m_device default].
  destruct (truthy (arg_device a)).
  - generalize (default ∅ (file_device f)). intros m.
    unfold dict_item. unfold mbind, result_bind, rbind, id.
    rewrite lookup_insert_eq, map_size_insert.
    destruct (m !! "type") eqn:Hty; unfold id; [|reflexivity].
    destruct (size m) eqn:Hsz; [|reflexivity].
    apply map_size_empty_inv in Hsz. rewrite Hsz, lookup_empty in Hty.
    discriminate Hty.
  - destruct (file_device f) as [m|]; [reflexivity|].
    cbn [default]. rewrite map_size_empty. reflexivity.
Qed.

End Device.

(** ** [main] at concrete inputs *)

Definition no_args : args :=
  {| arg_device := PNone; arg_dataset_path := PNone; arg_dataset_size := PNone;
     arg_lr := None; arg_schedule_lr := PNone; arg_resume := PNone;
     arg_max_epochs := None; arg_max_iterations := None;
     arg_ckpt_file := PNone; arg_logdir := PNone |}.

(** A file that asks for a [StepLR] scheduler and to resume from a
    checkpoint. *)
Definition toy_file : file_cfg :=
  {| file_train :=
       Some {| ts_keys :=
                 {| validation_split := None; seed := None;
                    resume := Some (PBool true);
                    lr_scheduler := Some (LrsMapping {["name" := PStr "StepLR"]});
                    max_epochs := Some 7; max_iterations := None;
                    cfg_validate_every_iterations := None;
                    cfg_save_every_iterations := None;
                    cfg_save_every_epochs := None |};
               ts_optimizer_param := None |};
     file_model := Some {["ckpt_file" := PStr "iteration-000001-epoch-0001.ckpt"]};
     file_logger := None;
     file_device := None;
     file_loader := {| batch_size := Some 2; drop_last := None |} |}.

(** A file with nothing but the loader's batch size. *)
Definition bare_file : file_cfg :=
  {| file_train := None; file_model := None; file_logger := None;
     file_device := None;
     file_loader := {| batch_size := Some 2; drop_last := None |} |}.

Definition toy_main_sopt (a : args) (f : file_cfg) (dataset_len : nat)
    (logger_dir : string)
    : result (@trainer unit unit unit unit Z unit unit nat) :=
  main_sopt (fun _ => tt) (fun _ => tt) (fun _ => tt) (fun n g => (seq 0 n, g))
            toy_has_scheduler (fun _ _ _ => tt) a f dataset_len tt logger_dir.

Definition toy_main (a : args) (f : file_cfg) (dataset_len : nat)
    (logger_dir : string) (fuel : nat)
    : result (outcome unit * @state unit unit unit Z unit unit nat) :=
  main (fun _ => tt) (fun _ => tt) (fun _ => tt) (fun n g => (seq 0 n, g))
       toy_has_scheduler (fun _ _ _ => tt)
       toy_forward toy_backprop (fun _ => tt) toy_scheduler_step
       0 Z.add Z.div toy_clock Nat.sub a f dataset_len tt logger_dir fuel.

Lemma X19_witness :
  match toy_init
          (resume_cfg {["ckpt_file" := PStr "iteration-000123-epoch-0004.ckpt"]})
          10 "logs" with
  | Ok t => 0 <= iteration (self_state t) /\ 0 <= epoch (self_state t)
  | Err _ => False
  end.
Proof.
  destruct (toy_init _ 10 "logs") as [t|e] eqn:H.
  - exact (X19_constructed_counters_are_not_negative (fun _ => tt) (fun _ => tt)
             (fun _ => tt) (fun n g => (seq 0 n, g)) toy_has_scheduler
             (fun _ _ _ => tt) _ 10%nat tt "logs" t H).
  - vm_compute in H. discriminate H.
Defined.

Lemma X20_witness :
  match toy_init (scenario_cfg None) 100 "logs" with
  | Ok t =>
    count is_save (log (toy_train 3 (self_setup t) (self_state t)).2) = O
  | Err _ => False
  end.
Proof.
  destruct (toy_init (scenario_cfg None) 100 "logs") as [t|e] eqn:H.
  - refine (X20_default_periods_write_no_checkpoint (fun _ => tt) (fun _ => tt)
              (fun _ => tt) (fun n g => (seq 0 n, g)) toy_has_scheduler
              (fun _ _ _ => tt) toy_forward toy_backprop (fun _ => tt)
              toy_scheduler_step 0 Z.add Z.div toy_clock Nat.sub
              (scenario_cfg None) _ 100%nat tt "logs" t 3%nat eq_refl _ _ H);
      simpl; lia.
  - vm_compute in H. discriminate H.
Defined.

Lemma X22_witness :
  let a := {| arg_device := PStr ""; arg_dataset_path := PStr "data/tracks.h5";
              arg_dataset_size := PInt 1000; arg_lr := Some (0 # 1)%Q;
              arg_schedule_lr := PBool true; arg_resume := PBool false;
              arg_max_epochs := Some 0; arg_max_iterations := None;
              arg_ckpt_file := PNone; arg_logdir := PNone |} in
  main_cfg a toy_file = completed toy_file.
Proof.
  intros a.
  assert (H : passed_over a).
  { unfold passed_over. simpl. repeat split; try reflexivity. right. reflexivity. }
  exact (X22_options_without_effect a toy_file H).
Defined.

Lemma X23_witness :
  let a := {| arg_device := PNone; arg_dataset_path := PNone;
              arg_dataset_size := PNone; arg_lr := None;
              arg_schedule_lr := PBool false; arg_resume := PNone;
              arg_max_epochs := None; arg_max_iterations := None;
              arg_ckpt_file := PNone; arg_logdir := PNone |} in
  match toy_main_sopt a toy_file 10 "logs" with
  | Ok t => scheduler (self_state t) = None
  | Err _ => False
  end.
Proof.
  intros a. destruct (toy_main_sopt a toy_file 10 "logs") as [t|e] eqn:H.
  - exact (X23_schedule_lr_false_removes_the_scheduler (fun _ => tt)
             (fun _ => tt) (fun _ => tt) (fun n g => (seq 0 n, g))
             toy_has_scheduler (fun _ _ _ => tt) a toy_file 10%nat tt "logs" t
             eq_refl eq_refl H).
  - vm_compute in H. discriminate H.
Defined.

Lemma X24_witness :
  let a := {| arg_device := PNone; arg_dataset_path := PNone;
              arg_dataset_size := PNone; arg_lr := None;
              arg_schedule_lr := PNone; arg_resume := PBool true;
              arg_max_epochs := None; arg_max_iterations := None;
              arg_ckpt_file :=
                PStr "logs/iteration-12345678-epoch-0003.ckpt";
              arg_logdir := PNone |} in
  match toy_main_sopt a toy_file 10 "logs" with
  | Ok t => iteration (self_state t) = 12345678 /\ epoch (self_state t) = 3
  | Err _ => False
  end.
Proof.
  intros a. destruct (toy_main_sopt a toy_file 10 "logs") as [t|e] eqn:H.
  - refine (X24_resume_from_the_option (fun _ => tt)
              (fun _ => tt) (fun _ => tt) (fun n g => (seq 0 n, g))
              toy_has_scheduler (fun _ _ _ => tt) a toy_file 10%nat tt "logs"
              "logs" 12345678 3 "logs/iteration-12345678-epoch-0003.ckpt" t
              eq_refl eq_refl _ _ eq_refl eq_refl eq_refl H); lia.
  - vm_compute in H. discriminate H.
Defined.

Lemma X25_witness :
  let a := {| arg_device := PNone; arg_dataset_path := PNone;
              arg_dataset_size := PNone; arg_lr := None;
              arg_schedule_lr := PNone; arg_resume := PBool true;
              arg_max_epochs := None; arg_max_iterations := None;
              arg_ckpt_file := PNone; arg_logdir := PNone |} in
  toy_main a bare_file 10 "logs" 3 = Err (KeyError "ckpt_file")
  /\ truthy (arg_ckpt_file a) = false
  /\ default ∅ (file_model bare_file) !! "ckpt_file" = None.
Proof.
  intros a.
  assert (H : toy_main a bare_file 10 "logs" 3 = Err (KeyError "ckpt_file"))
    by (vm_compute; reflexivity).
  split; [exact H|].
  destruct (X25_key_errors_through_main (fun _ => tt) (fun _ => tt)
              (fun _ => tt) (fun n g => (seq 0 n, g)) toy_has_scheduler
              (fun _ _ _ => tt) toy_forward toy_backprop (fun _ => tt)
              toy_scheduler_step 0 Z.add Z.div toy_clock Nat.sub
              a bare_file 10%nat tt "logs" 3%nat "ckpt_file" H)
    as (_ & _ & Hk).
  destruct (Hk eq_refl) as (_ & H1 & H2). split; assumption.
Defined.

Lemma X26_witness :
  let a := {| arg_device := PNone; arg_dataset_path := PNone;
              arg_dataset_size := PNone; arg_lr := None;
              arg_schedule_lr := PNone; arg_resume := PNone;
              arg_max_epochs := Some 3; arg_max_iterations := Some (-2);
              arg_ckpt_file := PNone; arg_logdir := PNone |} in
  match toy_main_sopt a toy_file 10 "logs" with
  | Ok t => epoch_max (self_setup t) = 3 /\ iteration_max (self_setup t) = -2
  | Err _ => False
  end.
Proof.
  intros a. destruct (toy_main_sopt a toy_file 10 "logs") as [t|e] eqn:H.
  - refine (X26_limits_from_the_options (fun _ => tt)
              (fun _ => tt) (fun _ => tt) (fun n g => (seq 0 n, g))
              toy_has_scheduler (fun _ _ _ => tt) a toy_file 10%nat tt "logs"
              3 (-2) t eq_refl _ eq_refl _ H); lia.
  - vm_compute in H. discriminate H.
Defined.
